(** * pyvenn: petal labels, consistency check and diagram composers

    A shallow embedding of [venn/_venn.py].  Python sets are stdpp [gset]s,
    dictionaries are insertion-ordered association lists, exceptions are an
    error type threaded through a small monad, and the matplotlib drawing
    surface is the log of the calls made on it. *)

From Stdlib Require Import QArith Lqa Ascii String DecimalString DecimalNat.
From stdpp Require Import base gmap sets list strings.


Open Scope nat_scope.

(** ** Exceptions and the error monad *)

Inductive exn : Type :=
| TypeError
| ValueError
| KeyError
| IndexError
| ZeroDivisionError
| NotImplementedError.

Inductive result (T : Type) : Type :=
| Ok (v : T)
| Err (e : exn).
Arguments Ok {T} v.
Arguments Err {T} e.

#[global] Instance exn_eq_dec : EqDecision exn.
Proof. solve_decision. Defined.

#[global] Instance result_ret : MRet result := fun _ v => Ok v.
#[global] Instance result_bind : MBind result :=
  fun _ _ k r => match r with Ok v => k v | Err e => Err e end.

#[global] Instance result_fmap : FMap result :=
  fun _ _ f r => match r with Ok v => Ok (f v) | Err e => Err e end.

Definition is_ok {T} (r : result T) : bool :=
  match r with Ok _ => true | Err _ => false end.

(** [[f(x) for x in l]] *)
Fixpoint map_result {X Y} (f : X -> result Y) (l : list X)
    : result (list Y) :=
  match l with
  | [] => Ok []
  | x :: l' => y ← f x; r ← map_result f l'; Ok (y :: r)
  end.

(** ** Python strings *)

Module PyStr.

(** [s[i]] *)
Definition index (s : string) (i : nat) : result ascii :=
  match String.get i s with
  | Some c => Ok c
  | None => Err IndexError
  end.

(** [s[k:]] *)
Fixpoint drop (k : nat) (s : string) : string :=
  match k, s with
  | S k', String _ r => drop k' r
  | _, _ => s
  end.

Fixpoint zeros (k : nat) : string :=
  match k with
  | O => ""
  | S k' => String "0" (zeros k')
  end.

(** [s.zfill(width)]: the padding goes after a leading sign. *)
Definition zfill (width : nat) (s : string) : string :=
  let pad := zeros (width - String.length s) in
  match s with
  | String c r =>
      if (Ascii.eqb c "+" || Ascii.eqb c "-")%bool
      then String c (pad +:+ r)
      else pad +:+ s
  | EmptyString => pad
  end.

Fixpoint pos_digits (p : positive) : string :=
  match p with
  | xH => "1"
  | xO q => pos_digits q +:+ "0"
  | xI q => pos_digits q +:+ "1"
  end.

(** [bin(i)] for a non-negative [i] *)
Definition bin (i : N) : string :=
  "0b" +:+ match i with
           | N0 => "0"
           | Npos p => pos_digits p
           end.

(** [str(k)] for a non-negative integer *)
Definition of_nat (k : nat) : string :=
  NilEmpty.string_of_uint (Nat.to_uint k).

(** [str(z)] for an integer *)
Definition of_Z (z : Z) : string :=
  if (z <? 0)%Z then "-" +:+ of_nat (Z.to_nat (- z))
  else of_nat (Z.to_nat z).

(** [all(c in {"0", "1"} for c in s)], i.e. [set(s) <= {"0", "1"}] *)
Fixpoint binary (s : string) : bool :=
  match s with
  | EmptyString => true
  | String c r => (Ascii.eqb c "0" || Ascii.eqb c "1") && binary r
  end.

Fixpoint strip_prefix (p s : string) : option string :=
  match p, s with
  | EmptyString, _ => Some s
  | String a p', String b s' =>
      if Ascii.eqb a b then strip_prefix p' s' else None
  | String _ _, EmptyString => None
  end.

End PyStr.

(** ** Insertion-ordered dictionaries with string keys *)

Module Dict.

Definition t (V : Type) : Type := list (string * V).

Fixpoint get {V} (k : string) (d : t V) : option V :=
  match d with
  | [] => None
  | (k', v) :: r => if String.eqb k k' then Some v else get k r
  end.

(** [d[k] = v]: an existing key keeps its position. *)
Fixpoint set {V} (k : string) (v : V) (d : t V) : t V :=
  match d with
  | [] => [(k, v)]
  | (k', v') :: r =>
      if String.eqb k k' then (k', v) :: r else (k', v') :: set k v r
  end.

Definition keys {V} (d : t V) : list string := d.*1.
Definition values {V} (d : t V) : list V := d.*2.

End Dict.

(** ** Logic codes *)

(** [bin(i)[2:].zfill(n_sets)] *)
Definition logic_of (n_sets : nat) (i : nat) : string :=
  PyStr.zfill n_sets (PyStr.drop 2 (PyStr.bin (N.of_nat i))).

(** [range(1, 2**n_sets)] *)
Definition logic_range (n_sets : nat) : list nat := seq 1 (2 ^ n_sets - 1).

Definition logic_codes (n_sets : nat) : list string :=
  logic_of n_sets <$> logic_range n_sets.

(** ** Format templates *)

(** The keyword arguments handed to [fmt.format].  The percentage is the
    quotient of two integers; Python rounds it to the nearest binary64,
    the model keeps the quotient itself. *)
Record fields : Type := Fields {
  f_logic : string;
  f_size : nat;
  f_percentage : Q;
}.

(** [a / b] on integers *)
Definition truediv (a b : nat) : result Q :=
  match b with
  | O => Err ZeroDivisionError
  | S _ => Ok (Z.of_nat a # Pos.of_nat b)
  end.

Inductive piece : Type :=
| Lit (c : ascii)
| FieldLogic
| FieldSize.

(** Templates built from literal text, the escapes [{{] and [}}], and the
    bare replacement fields [{logic}] and [{size}]. *)
Fixpoint parse_template (fuel : nat) (s : string) : option (list piece) :=
  match fuel with
  | O => None
  | S fuel' =>
      match s with
      | EmptyString => Some []
      | String c r =>
          if Ascii.eqb c "{" then
            match PyStr.strip_prefix "{" r with
            | Some r' => cons (Lit "{") <$> parse_template fuel' r'
            | None =>
                match PyStr.strip_prefix "logic}" r with
                | Some r' => cons FieldLogic <$> parse_template fuel' r'
                | None =>
                    match PyStr.strip_prefix "size}" r with
                    | Some r' => cons FieldSize <$> parse_template fuel' r'
                    | None => None
                    end
                end
            end
          else if Ascii.eqb c "}" then
            match PyStr.strip_prefix "}" r with
            | Some r' => cons (Lit "}") <$> parse_template fuel' r'
            | None => None
            end
          else cons (Lit c) <$> parse_template fuel' r
      end
  end.

Definition render_piece (f : fields) (p : piece) : string :=
  match p with
  | Lit c => String c ""
  | FieldLogic => f_logic f
  | FieldSize => PyStr.of_nat (f_size f)
  end.

Fixpoint concat_str (l : list string) : string :=
  match l with
  | [] => ""
  | s :: r => s +:+ concat_str r
  end.

Section Petals.

(** Elements are arbitrary hashable values. *)
Context `{Countable A}.

(** [str.format] on every template outside the fragment of
    [parse_template]: format specifications, conversions, the float
    rendering of [{percentage}], unknown fields, malformed braces. *)
Variable format_other : string -> fields -> result string.

(** [fmt.format(logic=..., size=..., percentage=...)] *)
Definition str_format (fmt : string) (f : fields) : result string :=
  match parse_template (S (String.length fmt)) fmt with
  | Some ps => Ok (concat_str (render_piece f <$> ps))
  | None => format_other fmt f
  end.

(** [set.union] applied to unpacked [args]: the unbound method needs a receiver. *)
Definition set_union (args : list (gset A)) : result (gset A) :=
  match args with
  | [] => Err TypeError
  | s :: r => Ok (foldl (∪) s r)
  end.

(** [set.intersection] applied to unpacked [args] *)
Definition set_intersection (args : list (gset A)) : result (gset A) :=
  match args with
  | [] => Err TypeError
  | s :: r => Ok (foldl (∩) s r)
  end.

(** [datasets[i]] *)
Definition list_index {T} (l : list T) (i : nat) : result T :=
  match l !! i with
  | Some x => Ok x
  | None => Err IndexError
  end.

(** [[datasets[i] for i in idx if logic[i] == bit]] *)
Fixpoint select_sets (bit : ascii) (datasets : list (gset A))
    (logic : string) (idx : list nat) : result (list (gset A)) :=
  match idx with
  | [] => Ok []
  | i :: idx' =>
      c ← PyStr.index logic i;
      if Ascii.eqb c bit then
        d ← list_index datasets i;
        r ← select_sets bit datasets logic idx';
        Ok (d :: r)
      else select_sets bit datasets logic idx'
  end.

(** The body of the loop up to [petal_set]. *)
Definition petal_set (datasets : list (gset A)) (dataset_union : gset A)
    (logic : string) : result (gset A) :=
  let n_sets := length datasets in
  included_sets ← select_sets "1" datasets logic (seq 0 n_sets);
  excluded_sets ← select_sets "0" datasets logic (seq 0 n_sets);
  inter ← set_intersection included_sets;
  excl ← set_union (∅ :: excluded_sets);
  Ok ((dataset_union ∩ inter) ∖ excl).

(** The keyword arguments of [fmt.format] for one petal; they are
    evaluated before the call. *)
Definition petal_fields (logic : string) (petal : gset A)
    (universe_size : nat) : result fields :=
  percentage ← truediv (100 * size petal) universe_size;
  Ok (Fields logic (size petal) percentage).

Fixpoint petal_loop (datasets : list (gset A)) (dataset_union : gset A)
    (fmt : string) (codes : list string) (petal_labels : Dict.t string)
    : result (Dict.t string) :=
  match codes with
  | [] => Ok petal_labels
  | logic :: codes' =>
      petal ← petal_set datasets dataset_union logic;
      f ← petal_fields logic petal (size dataset_union);
      label ← str_format fmt f;
      petal_loop datasets dataset_union fmt codes'
        (Dict.set logic label petal_labels)
  end.

Definition generate_petal_labels (datasets : list (gset A)) (fmt : string)
    : result (Dict.t string) :=
  let n_sets := length datasets in
  dataset_union ← set_union datasets;
  petal_loop datasets dataset_union fmt (logic_codes n_sets) [].

End Petals.

(** ** The consistency checker *)

Fixpoint check_keys (n_sets : nat) (keys : list string) : result unit :=
  match keys with
  | [] => Ok ()
  | logic :: keys' =>
      if negb (String.length logic =? n_sets) then Err ValueError
      else if negb (PyStr.binary logic) then Err KeyError
      else check_keys n_sets keys'
  end.

Definition get_n_sets {V} (petal_labels : Dict.t V)
    (dataset_labels : list string) : result nat :=
  let n_sets := length dataset_labels in
  _ ← check_keys n_sets (Dict.keys petal_labels);
  Ok n_sets.

(** ** [int(s)] on a string *)

Module PyInt.

(** The blanks [int] skips at both ends of a string, a character being a
    code point below 256: tab to carriage return and the space, and the
    two blanks above 127, U+0085 and U+00A0, which [int] takes for a
    space.  The separators U+001C to U+001F are not skipped. *)
Definition is_space (c : ascii) : bool :=
  let k := nat_of_ascii c in
  ((9 <=? k) && (k <=? 13)) || (k =? 32) || (k =? 133) || (k =? 160).

Definition digit (c : ascii) : option Z :=
  let k := nat_of_ascii c in
  if (48 <=? k) && (k <=? 57) then Some (Z.of_nat (k - 48)) else None.

Fixpoint lstrip (s : string) : string :=
  match s with
  | String c r => if is_space c then lstrip r else s
  | EmptyString => s
  end.

(** Digits with single underscores between them, then trailing blanks.
    [after_digit] tells whether the previous character was a digit. *)
Fixpoint digits (after_digit : bool) (acc : Z) (s : string) : result Z :=
  match s with
  | EmptyString => if after_digit then Ok acc else Err ValueError
  | String c r =>
      match digit c with
      | Some d => digits true (10 * acc + d) r
      | None =>
          if Ascii.eqb c "_" then
            if after_digit then digits false acc r else Err ValueError
          else if after_digit && String.eqb (lstrip s) "" then Ok acc
          else Err ValueError
      end
  end.

(** [int(s)] in base 10.  Interpreters that limit the length of the
    digit strings they convert (4300 digits unless set otherwise) raise
    [ValueError] beyond the limit; statements about arbitrary labels take
    the labels within it. *)
Definition parse (s : string) : result Z :=
  match lstrip s with
  | String c r =>
      if Ascii.eqb c "-" then Z.opp <$> digits false 0 r
      else if Ascii.eqb c "+" then digits false 0 r
      else digits false 0 (String c r)
  | EmptyString => Err ValueError
  end.

End PyInt.

(** ** Colors *)

Record rgba : Type := RGBA {
  red : Q;
  green : Q;
  blue : Q;
  alpha_of : Q;
}.

(** Values that can stand where an integer count is expected. *)
Inductive pyvalue : Type :=
| PyNone
| PyBool (b : bool)
| PyInteger (z : Z)
| PyFloat (q : Q)
| PyString (s : string).

(** [isinstance(v, int)], with the integer it denotes *)
Definition as_int (v : pyvalue) : option Z :=
  match v with
  | PyInteger z => Some z
  | PyBool b => Some (if b then 1 else 0)%Z
  | _ => None
  end.

Section Colors.

(** matplotlib color specifications and colormap identifiers *)
Variables color cmap_id : Type.

(** [matplotlib.colors.to_rgba(c, alpha)] *)
Variable to_rgba : color -> option Q -> result rgba.

(** [ScalarMappable(cmap=cmap).to_rgba(xs, alpha=alpha).tolist()] *)
Variable cmap_to_rgba : cmap_id -> list nat -> Q -> result (list rgba).

(** The [cmap] argument: an explicit list or anything else. *)
Inductive cmap_arg : Type :=
| CmapList (l : list color)
| CmapId (c : cmap_id).

Definition generate_colors (cmap : cmap_arg) (n_colors : pyvalue)
    (alpha : Q) : result (list rgba) :=
  match as_int n_colors with
  | None => Err ValueError
  | Some n =>
      if ((n <? 2) || (6 <? n))%Z then Err ValueError
      else
        colors ← match cmap with
                 | CmapList l => map_result (fun c => to_rgba c (Some alpha)) l
                 | CmapId c => cmap_to_rgba c (seq 0 (Z.to_nat n)) alpha
                 end;
        Ok (take (Z.to_nat n) colors)
  end.

Definition less_transparent_color (c : color) (alpha_factor : Q)
    : result rgba :=
  t ← to_rgba c None;
  new_alpha ← (if Qeq_bool alpha_factor 0 then Err ZeroDivisionError
               else Ok ((1 + alpha_of t) / alpha_factor)%Q);
  to_rgba c (Some new_alpha).

End Colors.

Arguments CmapList {color cmap_id} l.
Arguments CmapId {color cmap_id} c.

(** ** The drawing surface *)

(** A positional argument of a shape wrapper: a number or [None].  The
    rows of the tables are recorded as they are handed over; what
    matplotlib makes of a [None] where it expects a number is not
    modelled. *)
Definition arg : Type := option Q.

Inductive patch (color : Type) : Type :=
| Ellipse (xy : arg * arg) (width height angle : arg)
    (facecolor : color) (edgecolor : rgba)
| Polygon (xy : list (arg * arg)) (closed : bool)
    (facecolor : color) (edgecolor : rgba).
Arguments Ellipse {color}.
Arguments Polygon {color}.

(** The calls made on an axes object. *)
Inductive call (color : Type) : Type :=
| SetStyle
| SetXlim (lo hi : Q)
| AddPatch (p : patch color)
| AxText (x y : Q) (s : string) (fontsize : Q)
| AxLegend (labels : list string) (loc : string) (fontsize : Q).
Arguments SetStyle {color}.
Arguments SetXlim {color}.
Arguments AddPatch {color}.
Arguments AxText {color}.
Arguments AxLegend {color}.

Definition is_ellipse {color} (c : call color) : bool :=
  match c with AddPatch (Ellipse _ _ _ _ _ _) => true | _ => false end.
Definition is_patch {color} (c : call color) : bool :=
  match c with AddPatch _ => true | _ => false end.

(** An axes object is the list of the calls made on it, oldest first. *)
Definition axes (color : Type) : Type := list (call color).

(** Code that draws: it may raise, and what it drew before stays. *)
Definition draw (color T : Type) : Type :=
  axes color -> result T * axes color.

#[global] Instance draw_ret {color} : MRet (draw color) :=
  fun _ v ax => (Ok v, ax).
#[global] Instance draw_bind {color} : MBind (draw color) :=
  fun _ _ k m ax =>
    match m ax with
    | (Ok v, ax') => k v ax'
    | (Err e, ax') => (Err e, ax')
    end.

Definition lift {color T} (r : result T) : draw color T :=
  fun ax => (r, ax).
Definition emit {color} (c : call color) : draw color unit :=
  fun ax => (Ok (), (ax ++ [c])%list).

Fixpoint for_each {color X} (l : list X) (body : X -> draw color unit)
    : draw color unit :=
  match l with
  | [] => mret ()
  | x :: l' => _ ← body x; for_each l' body
  end.

(** [table[k]] on a dictionary of constants *)
Definition table_get {K V} `{Countable K} (table : gmap K V) (k : K)
    : result V :=
  match table !! k with
  | Some v => Ok v
  | None => Err KeyError
  end.

(** ** Diagram composers and the dispatcher *)

(** The function handed to the dispatcher. *)
Inductive composer : Type :=
| DrawVenn
| DrawPseudovenn6.

#[global] Instance composer_eq_dec : EqDecision composer.
Proof. solve_decision. Defined.

(** The keyword arguments of both composers, the axes apart. *)
Record kwargs (color : Type) : Type := Kwargs {
  petal_labels : Dict.t string;
  dataset_labels : list string;
  hint_hidden : bool;
  colors : list color;
  fontsize : Q;
  legend_loc : option string;
}.
Arguments Kwargs {color}.
Arguments petal_labels {color}.
Arguments dataset_labels {color}.
Arguments hint_hidden {color}.
Arguments colors {color}.
Arguments fontsize {color}.
Arguments legend_loc {color}.

(** [hidden[i] += int(petal_labels[logic])] for every ["1"] of [logic],
    [i] counting from the position of [chars] in [logic]. *)
Fixpoint update_hidden_from (i : nat) (chars : string) (hidden : list Z)
    (logic : string) (labels : Dict.t string) : result (list Z) :=
  match chars with
  | EmptyString => Ok hidden
  | String c chars' =>
      if Ascii.eqb c "1" then
        old ← match hidden !! i with
              | Some z => Ok z
              | None => Err IndexError
              end;
        label ← match Dict.get logic labels with
                | Some l => Ok l
                | None => Err KeyError
                end;
        k ← PyInt.parse label;
        update_hidden_from (S i) chars' (<[i := (old + k)%Z]> hidden)
          logic labels
      else update_hidden_from (S i) chars' hidden logic labels
  end.

Definition update_hidden (hidden : list Z) (logic : string)
    (labels : Dict.t string) : result (list Z) :=
  update_hidden_from 0 logic hidden logic labels.

Definition newline : string := String (ascii_of_nat 10) "".

Section Composers.

Context `{Countable A}.
Variables color cmap_id : Type.
Variable format_other : string -> fields -> result string.
Variable to_rgba : color -> option Q -> result rgba.
Variable cmap_to_rgba : cmap_id -> list nat -> Q -> result (list rgba).

(** An RGBA sequence is itself a color specification. *)
Variable rgba_color : rgba -> color.

(** The tables of [_constants.py], keyed by the number of sets. *)
Variables SHAPE_COORDS SHAPE_DIMS : gmap nat (list (list arg)).
Variable SHAPE_ANGLES : gmap nat (list arg).
Variables PETAL_LABEL_COORDS PSEUDOVENN_PETAL_COORDS
  : gmap nat (gmap string (Q * Q)).

(** [math.cos], [math.sin] and [math.pi]; rounding is not modelled. *)
Variables cos sin : Q -> Q.
Variable pi : Q.

(** The decorator of [_utils.py], as a pass over the keyword arguments
    that rejects them or hands them on, possibly rewritten. *)
Variable validate_arguments : kwargs color -> result (kwargs color).

#[local] Abbreviation draw := (draw color).

Definition draw_ellipse (args : list arg) (c : color) : draw unit :=
  match args with
  | [x; y; w; h; a] =>
      edge ← lift (less_transparent_color color to_rgba c 2);
      emit (AddPatch (Ellipse (x, y) w h a c edge))
  | _ => lift (Err TypeError)
  end.

Definition draw_triangle (args : list arg) (c : color) : draw unit :=
  match args with
  | [x1; y1; x2; y2; x3; y3; _dim; _angle] =>
      edge ← lift (less_transparent_color color to_rgba c 2);
      emit (AddPatch (Polygon [(x1, y1); (x2, y2); (x3, y3)] true c edge))
  | _ => lift (Err TypeError)
  end.

(** The loop over [petal_labels.items()] of [draw_venn]. *)
Definition venn_petal (n_sets : nat) (size : Q) (item : string * string)
    : draw unit :=
  coords ← lift (table_get PETAL_LABEL_COORDS n_sets);
  match coords !! item.1 with
  | Some (x, y) => emit (AxText x y item.2 size)
  | None => mret ()
  end.

Definition draw_legend (kw : kwargs color) : draw unit :=
  match legend_loc kw with
  | Some loc => emit (AxLegend (dataset_labels kw) loc (fontsize kw))
  | None => mret ()
  end.

(** [draw_venn] once the shape wrapper has been chosen. *)
Definition draw_venn_shapes (kw : kwargs color) (n_sets : nat)
    (draw_shape : list arg -> color -> draw unit) : draw unit :=
  coords ← lift (table_get SHAPE_COORDS n_sets);
  dims ← lift (table_get SHAPE_DIMS n_sets);
  angles ← lift (table_get SHAPE_ANGLES n_sets);
  let shape_params := zip (zip (zip coords dims) angles) (colors kw) in
  _ ← for_each shape_params
        (fun '(cs, ds, angle, c) => draw_shape (cs ++ ds ++ [angle])%list c);
  _ ← for_each (petal_labels kw) (venn_petal n_sets (fontsize kw));
  draw_legend kw.

(** The body of [draw_venn]. *)
Definition draw_venn_body (kw : kwargs color) : draw unit :=
  n_sets ← lift (get_n_sets (petal_labels kw) (dataset_labels kw));
  draw_shape ← lift (if (2 <=? n_sets) && (n_sets <? 6) then Ok draw_ellipse
                     else if n_sets =? 6 then Ok draw_triangle
                     else Err ValueError);
  draw_venn_shapes kw n_sets draw_shape.

(** [(2 - step) * pi / 3] *)
Definition step_angle (step : nat) : Q :=
  ((2 - inject_Z (Z.of_nat step)) * pi / 3)%Q.

(** The loop over [petal_labels.items()] of [draw_pseudovenn6]; it
    threads the hidden counters, which exist only under [hint_hidden]. *)
Fixpoint pseudovenn_petals (hint : bool) (size : Q)
    (labels : Dict.t string) (items : list (string * string))
    (hidden : list Z) : draw (list Z) :=
  match items with
  | [] => mret hidden
  | (logic, petal_label) :: items' =>
      coords ← lift (table_get PSEUDOVENN_PETAL_COORDS 6);
      match coords !! logic with
      | Some (x, y) =>
          _ ← emit (AxText x y petal_label size);
          pseudovenn_petals hint size labels items' hidden
      | None =>
          if hint then
            hidden' ← lift (update_hidden hidden logic labels);
            pseudovenn_petals hint size labels items' hidden'
          else pseudovenn_petals hint size labels items' hidden
      end
  end.

Definition draw_hint (size : Q) (item : nat * Z) : draw unit :=
  let angle := step_angle item.1 in
  let x := ((1 # 2) + (57 # 100) * cos angle)%Q in
  let y := ((1 # 2) + (57 # 100) * sin angle)%Q in
  emit (AxText x y (PyStr.of_Z item.2 +:+ newline +:+ " n/d*") size).

Definition draw_hint_explanation (labels : list string) (size : Q)
    : draw unit :=
  l0 ← lift (list_index labels 0);
  l3 ← lift (list_index labels 3);
  let hint_text :=
    "* elements of set in intersections that are not displayed," +:+
    newline +:+ "such as shared only between " +:+ l0 +:+ " and " +:+ l3 in
  emit (AxText (1 # 2) (- (1 # 10)) hint_text size).

(** [draw_pseudovenn6] once the number of sets has been accepted. *)
Definition draw_pseudovenn6_shapes (kw : kwargs color) (n_sets : nat)
    : draw unit :=
  _ ← for_each (zip (seq 0 6) (colors kw))
        (fun '(step, c) =>
           let angle := step_angle step in
           let x := ((1 # 2) + (1 # 5) * cos angle)%Q in
           let y := ((1 # 2) + (1 # 5) * sin angle)%Q in
           draw_ellipse
             [Some x; Some y; Some (6 # 10); Some (6 # 10); Some 0%Q] c);
  let hidden0 := if hint_hidden kw then replicate n_sets 0%Z else [] in
  hidden ← pseudovenn_petals (hint_hidden kw) (fontsize kw)
             (petal_labels kw) (petal_labels kw) hidden0;
  _ ← (if hint_hidden kw then
         _ ← for_each (zip (seq 0 6) hidden) (draw_hint (fontsize kw));
         _ ← emit (SetXlim (- (2 # 10)) (105 # 100));
         draw_hint_explanation (dataset_labels kw) (fontsize kw)
       else mret ());
  draw_legend kw.

(** The body of [draw_pseudovenn6]. *)
Definition draw_pseudovenn6_body (kw : kwargs color) : draw unit :=
  n_sets ← lift (get_n_sets (petal_labels kw) (dataset_labels kw));
  _ ← lift (if negb (n_sets =? 6) then Err NotImplementedError else Ok ());
  draw_pseudovenn6_shapes kw n_sets.

(** [ensure_axes]: a missing axes object is created, then styled. *)
Definition ensure_axes {T} (function : kwargs color -> draw T)
    (kw : kwargs color) (ax : option (axes color))
    : result T * axes color :=
  (_ ← emit SetStyle; function kw) (default [] ax).

Definition validated {T} (function : kwargs color -> draw T)
    (kw : kwargs color) : draw T :=
  kw' ← lift (validate_arguments kw); function kw'.

Definition draw_venn := ensure_axes (validated draw_venn_body).
Definition draw_pseudovenn6 := ensure_axes (validated draw_pseudovenn6_body).

Definition call_composer (func : composer) :=
  match func with
  | DrawVenn => draw_venn
  | DrawPseudovenn6 => draw_pseudovenn6
  end.

(** [fmt or "{size}"] *)
Definition fmt_or_default (fmt : option string) : string :=
  match fmt with
  | None => "{size}"
  | Some s => if String.eqb s "" then "{size}" else s
  end.

(** [fmt not in {None, "{size}"}] *)
Definition unsupported_fmt (fmt : option string) : bool :=
  match fmt with
  | None => false
  | Some s => negb (String.eqb s "{size}")
  end.

(** [_venn_dispatch]; the result pairs the outcome with the axes object,
    if there is one by then. *)
Definition _venn_dispatch (data : list (string * gset A)) (func : composer)
    (labels : option (Dict.t string)) (fmt : option string) (hint : bool)
    (size : Q) (cmap : cmap_arg color cmap_id) (alpha : Q)
    (loc : option string) (ax : option (axes color))
    : result unit * option (axes color) :=
  if hint && bool_decide (func = DrawPseudovenn6) && unsupported_fmt fmt
  then (Err NotImplementedError, ax)
  else
    match
      (pl ← match labels with
            | Some l => Ok l
            | None => generate_petal_labels format_other data.*2
                        (fmt_or_default fmt)
            end;
       cs ← generate_colors color cmap_id to_rgba cmap_to_rgba cmap
              (PyInteger (Z.of_nat (length data))) alpha;
       Ok (pl, cs))
    with
    | Err e => (Err e, ax)
    | Ok (pl, cs) =>
        let kw := Kwargs pl data.*1 hint (rgba_color <$> cs) size loc in
        let '(r, ax') := call_composer func kw ax in
        (r, Some ax')
    end.

End Composers.

(** * Properties *)

#[local] Arguments String.append !_ _ / : simpl nomatch.

(** ** Logic codes as bit vectors *)

Definition bit_char (b : bool) : ascii := if b then "1"%char else "0"%char.

Fixpoint code_of_bits (l : list bool) : string :=
  match l with
  | [] => ""
  | b :: r => String (bit_char b) (code_of_bits r)
  end.

(** The [n] low bits of [v], lowest first. *)
Fixpoint bits_rev (n : nat) (v : N) : list bool :=
  match n with
  | O => []
  | S n' => N.odd v :: bits_rev n' (N.div2 v)
  end.

Fixpoint value_rev (l : list bool) : N :=
  match l with
  | [] => 0
  | b :: r => N.b2n b + 2 * value_rev r
  end.

(** A non-zero logic code of length [n]. *)
Definition is_logic_code (n : nat) (s : string) : Prop :=
  String.length s = n ∧ PyStr.binary s = true ∧
  ∃ i, String.get i s = Some "1"%char.

Lemma append_assoc (a b c : string) : (a +:+ b) +:+ c = a +:+ (b +:+ c).
Proof. induction a as [|x a IH]; simpl; [done | by rewrite IH]. Qed.

Lemma length_append (a b : string) :
  String.length (a +:+ b) = String.length a + String.length b.
Proof. induction a as [|x a IH]; simpl; [done | by rewrite IH]. Qed.

Lemma code_of_bits_app (l1 l2 : list bool) :
  code_of_bits (l1 ++ l2) = code_of_bits l1 +:+ code_of_bits l2.
Proof. induction l1 as [|b l1 IH]; simpl; [done | by rewrite IH]. Qed.

Lemma code_of_bits_zeros (k : nat) :
  code_of_bits (replicate k false) = PyStr.zeros k.
Proof. induction k as [|k IH]; simpl; [done | by rewrite IH]. Qed.

Lemma code_of_bits_length (l : list bool) :
  String.length (code_of_bits l) = length l.
Proof. induction l as [|b l IH]; simpl; [done | by rewrite IH]. Qed.

Lemma code_of_bits_inj (l1 l2 : list bool) :
  code_of_bits l1 = code_of_bits l2 → l1 = l2.
Proof.
  revert l2; induction l1 as [|b l1 IH]; intros [|c l2]; simpl; try done.
  intros [= Hb Hl]. f_equal; [by destruct b, c | by apply IH].
Qed.

Lemma code_of_bits_get (l : list bool) (i : nat) :
  String.get i (code_of_bits l) = bit_char <$> l !! i.
Proof.
  revert i; induction l as [|b l IH]; intros [|i]; simpl; done.
Qed.

Lemma code_of_bits_binary (l : list bool) :
  PyStr.binary (code_of_bits l) = true.
Proof. induction l as [|[] l IH]; simpl; done. Qed.

Lemma binary_code (s : string) :
  PyStr.binary s = true → ∃ l, s = code_of_bits l.
Proof.
  induction s as [|c s IH]; simpl; intros Hb.
  - by exists [].
  - apply andb_prop in Hb as [Hc Hs]. destruct (IH Hs) as [l ->].
    apply orb_prop in Hc as [Hc|Hc]; apply Ascii.eqb_eq in Hc; subst c.
    + by exists (false :: l).
    + by exists (true :: l).
Qed.

Lemma pos_digits_head (p : positive) :
  ∃ r, PyStr.pos_digits p = String "1" r.
Proof.
  induction p as [p [r IH]|p [r IH]|]; simpl; rewrite ?IH; simpl; eauto.
Qed.

Lemma zfill_pos_digits (n : nat) (p : positive) :
  PyStr.zfill n (PyStr.pos_digits p) =
  PyStr.zeros (n - String.length (PyStr.pos_digits p)) +:+ PyStr.pos_digits p.
Proof.
  unfold PyStr.zfill. destruct (pos_digits_head p) as [r ->]. done.
Qed.

Lemma pos_digits_length (p : positive) :
  String.length (PyStr.pos_digits p) = Pos.size_nat p.
Proof.
  induction p as [p IH|p IH|]; simpl; rewrite ?length_append, ?IH; simpl; lia.
Qed.

Lemma size_nat_bound (p : positive) (n : nat) :
  Pos.to_nat p < 2 ^ n → Pos.size_nat p ≤ n.
Proof.
  revert n; induction p as [p IH|p IH|]; intros [|n]; simpl;
    rewrite ?Pos2Nat.inj_xI, ?Pos2Nat.inj_xO; try lia.
  - intros Hp. specialize (IH n). lia.
  - intros Hp. specialize (IH n). lia.
Qed.

Lemma bits_rev_zero (n : nat) : bits_rev n 0 = replicate n false.
Proof. induction n as [|n IH]; simpl; [done | by rewrite IH]. Qed.

Lemma bits_rev_length (n : nat) (v : N) : length (bits_rev n v) = n.
Proof. revert v; induction n as [|n IH]; intros v; simpl; [done | by rewrite IH]. Qed.

Lemma rev_replicate {T} (k : nat) (x : T) :
  rev (replicate k x) = replicate k x.
Proof.
  induction k as [|k IH]; simpl; [done|].
  rewrite IH. clear IH. induction k as [|k IH]; simpl; [done | by rewrite IH].
Qed.

Lemma pos_digits_bits (p : positive) (n : nat) :
  Pos.size_nat p ≤ n →
  PyStr.zeros (n - Pos.size_nat p) +:+ PyStr.pos_digits p =
  code_of_bits (rev (bits_rev n (Npos p))).
Proof.
  revert n; induction p as [p IH|p IH|]; intros [|n] Hn; simpl in Hn; try lia.
  - simpl. rewrite code_of_bits_app, <- IH by lia. simpl.
    by rewrite append_assoc.
  - simpl. rewrite code_of_bits_app, <- IH by lia. simpl.
    by rewrite append_assoc.
  - simpl. rewrite bits_rev_zero, code_of_bits_app, rev_replicate.
    rewrite code_of_bits_zeros. by rewrite Nat.sub_0_r.
Qed.

Lemma logic_of_bits (n i : nat) :
  1 ≤ i → i < 2 ^ n →
  logic_of n i = code_of_bits (rev (bits_rev n (N.of_nat i))).
Proof.
  intros H1 H2. unfold logic_of, PyStr.bin.
  destruct (N.of_nat i) as [|p] eqn:Hp; [lia|].
  simpl PyStr.drop. rewrite zfill_pos_digits, pos_digits_length.
  apply pos_digits_bits, size_nat_bound.
  assert (Pos.to_nat p = i) as -> by lia. done.
Qed.

Lemma value_rev_bits_rev (n : nat) (v : N) :
  N.to_nat v < 2 ^ n → value_rev (bits_rev n v) = v.
Proof.
  revert v; induction n as [|n IH]; intros v Hv; simpl in *; [lia|].
  pose proof (N.div2_odd v) as Hd.
  rewrite IH; [lia|].
  destruct (N.odd v); simpl in Hd; lia.
Qed.

Lemma bits_rev_value_rev (l : list bool) :
  bits_rev (length l) (value_rev l) = l.
Proof.
  induction l as [|b l IH]; simpl; [done|].
  assert (N.odd (N.b2n b + 2 * value_rev l) = b) as ->.
  { rewrite N.odd_add_mul_2. by destruct b. }
  assert (N.div2 (N.b2n b + 2 * value_rev l) = value_rev l) as ->; [|by rewrite IH].
  rewrite N.div2_div. destruct b; simpl N.b2n.
  - symmetry. apply (N.div_unique _ 2 _ 1); lia.
  - symmetry. apply (N.div_unique _ 2 _ 0); lia.
Qed.

Lemma value_rev_lt (l : list bool) : N.to_nat (value_rev l) < 2 ^ length l.
Proof.
  induction l as [|b l IH]; simpl; [lia|]. destruct b; simpl N.b2n; lia.
Qed.

Lemma value_rev_pos (l : list bool) : true ∈ l ↔ value_rev l ≠ 0%N.
Proof.
  induction l as [|b l IH]; simpl.
  - split; [by intros ?%elem_of_nil | done].
  - rewrite elem_of_cons, IH. destruct b; simpl N.b2n; split; lia.
Qed.

Lemma elem_of_rev {T} (x : T) (l : list T) : x ∈ rev l ↔ x ∈ l.
Proof. rewrite !list_elem_of_In. symmetry. apply in_rev. Qed.

Lemma bit_char_one (b : bool) : bit_char b = "1"%char ↔ b = true.
Proof. by destruct b. Qed.

Lemma bit_char_zero (b : bool) : bit_char b = "0"%char ↔ b = false.
Proof. by destruct b. Qed.

Lemma is_logic_code_bits (n : nat) (s : string) :
  is_logic_code n s ↔ ∃ l, s = code_of_bits l ∧ length l = n ∧ true ∈ l.
Proof.
  split.
  - intros (Hlen & Hbin & i & Hi). destruct (binary_code s Hbin) as [l ->].
    exists l. rewrite code_of_bits_length in Hlen. split_and!; [done..|].
    rewrite code_of_bits_get in Hi.
    destruct (l !! i) as [b|] eqn:Hb; [|done]. simpl in Hi.
    injection Hi as Hi%bit_char_one; subst b. by eapply list_elem_of_lookup_2.
  - intros (l & -> & Hlen & Hin). split_and!.
    + by rewrite code_of_bits_length.
    + apply code_of_bits_binary.
    + apply list_elem_of_lookup_1 in Hin as [i Hi]. exists i.
      by rewrite code_of_bits_get, Hi.
Qed.

Lemma logic_range_elem (n i : nat) : i ∈ logic_range n ↔ 1 ≤ i ∧ i < 2 ^ n.
Proof.
  unfold logic_range. rewrite elem_of_seq.
  assert (0 < 2 ^ n) by (apply Nat.neq_0_lt_0, Nat.pow_nonzero; lia). lia.
Qed.

Lemma logic_codes_elem (n : nat) (s : string) :
  s ∈ logic_codes n ↔ is_logic_code n s.
Proof.
  rewrite is_logic_code_bits. unfold logic_codes. rewrite list_elem_of_fmap.
  split.
  - intros (i & -> & [H1 H2]%logic_range_elem).
    exists (rev (bits_rev n (N.of_nat i))). split_and!.
    + by apply logic_of_bits.
    + by rewrite length_rev, bits_rev_length.
    + rewrite elem_of_rev, value_rev_pos.
      rewrite value_rev_bits_rev; lia.
  - intros (l & -> & Hlen & Hin).
    exists (N.to_nat (value_rev (rev l))).
    pose proof (value_rev_lt (rev l)) as Hlt. rewrite length_rev, Hlen in Hlt.
    assert (value_rev (rev l) ≠ 0%N) as Hpos.
    { apply value_rev_pos. by rewrite elem_of_rev. }
    split; [|apply logic_range_elem; lia].
    rewrite logic_of_bits by lia. rewrite N2Nat.id.
    rewrite <- Hlen, <- (length_rev l), bits_rev_value_rev.
    by rewrite rev_involutive.
Qed.

Lemma logic_codes_NoDup (n : nat) : NoDup (logic_codes n).
Proof.
  unfold logic_codes, logic_range. apply NoDup_fmap_2_strong; [|apply NoDup_seq].
  intros i j [Hi1 Hi2]%logic_range_elem [Hj1 Hj2]%logic_range_elem.
  rewrite !logic_of_bits by done.
  intros Heq%code_of_bits_inj.
  apply (f_equal (@rev bool)) in Heq. rewrite !rev_involutive in Heq.
  apply (f_equal value_rev) in Heq.
  rewrite !value_rev_bits_rev in Heq; lia.
Qed.

Lemma logic_codes_length (n : nat) : length (logic_codes n) = 2 ^ n - 1.
Proof. unfold logic_codes, logic_range. by rewrite length_fmap, length_seq. Qed.

(** ** The error monad on lists *)

Lemma map_result_Ok {X Y} (f : X → result Y) (l : list X) (r : list Y) :
  map_result f l = Ok r ↔ Forall2 (λ x y, f x = Ok y) l r.
Proof.
  revert r; induction l as [|x l IH]; intros r; simpl.
  - split; [intros [= <-]; constructor | by intros ->%Forall2_nil_inv_l].
  - destruct (f x) as [y|e] eqn:Hx; simpl.
    + destruct (map_result f l) as [r'|e] eqn:Hl; simpl.
      * split.
        -- intros [= <-]. constructor; [done | by apply IH].
        -- intros (y' & r'' & Hy & Hr & ->)%Forall2_cons_inv_l.
           apply IH in Hr. congruence.
      * split; [done|].
        intros (y' & r'' & Hy & Hr & ->)%Forall2_cons_inv_l.
        apply IH in Hr. done.
    + split; [done|].
      intros (y' & r'' & Hy & Hr & ->)%Forall2_cons_inv_l. congruence.
Qed.

Lemma map_result_total {X Y} (f : X → result Y) (g : X → Y) (l : list X) :
  (∀ x, x ∈ l → f x = Ok (g x)) → map_result f l = Ok (g <$> l).
Proof.
  intros Hf. apply map_result_Ok, Forall2_fmap_r, Forall_Forall2_diag.
  by apply Forall_forall.
Qed.

Lemma map_result_Err {X Y} (f : X → result Y) (l : list X) (e : exn) :
  map_result f l = Err e → ∃ x, x ∈ l ∧ f x = Err e.
Proof.
  induction l as [|x l IH]; simpl; [done|].
  destruct (f x) as [y|e'] eqn:Hx; simpl.
  - destruct (map_result f l) as [r|e'] eqn:Hl; simpl; [done|].
    intros [= ->]. destruct IH as (x' & ? & ?); [done|].
    exists x'. split; [by right | done].
  - intros [= ->]. exists x. split; [by left | done].
Qed.

(** ** Petals as sets *)

Section PetalFacts.

Context `{Countable A}.
Implicit Types (x : A) (S U : gset A) (datasets : list (gset A)).
Implicit Types (l : list bool).

Lemma foldl_union_elem x S (r : list (gset A)) :
  x ∈ foldl (∪) S r ↔ x ∈ S ∨ ∃ T, T ∈ r ∧ x ∈ T.
Proof.
  revert S; induction r as [|T r IH]; intros S; simpl.
  - split; [by left | intros [?|(T & ?%elem_of_nil & _)]; done].
  - rewrite IH, elem_of_union. split.
    + intros [[?|?]|(T' & ? & ?)]; [by left | right..].
      * exists T. split; [by left | done].
      * exists T'. split; [by right | done].
    + intros [?|(T' & [->|?]%elem_of_cons & ?)]; [by left; left| by left; right|].
      right. by exists T'.
Qed.

Lemma foldl_inter_elem x S (r : list (gset A)) :
  x ∈ foldl (∩) S r ↔ x ∈ S ∧ ∀ T, T ∈ r → x ∈ T.
Proof.
  revert S; induction r as [|T r IH]; intros S; simpl.
  - split; [|by intros [? _]]. intros ?; split; [done|].
    by intros T ?%elem_of_nil.
  - rewrite IH, elem_of_intersection. split.
    + intros [[? ?] Hr]. split; [done|].
      intros T' [->|?]%elem_of_cons; [done | by apply Hr].
    + intros [? Hr]. split_and!; [done| |].
      * apply Hr. by left.
      * intros T' ?. apply Hr. by right.
Qed.

Lemma set_union_elem datasets U x :
  set_union datasets = Ok U → x ∈ U ↔ ∃ S, S ∈ datasets ∧ x ∈ S.
Proof.
  destruct datasets as [|S r]; simpl; [done|]. intros [= <-].
  rewrite foldl_union_elem. split.
  - intros [?|(T & ? & ?)].
    + exists S. split; [by left | done].
    + exists T. split; [by right | done].
  - intros (T & [->|?]%elem_of_cons & ?); [by left|]. right. by exists T.
Qed.

Lemma select_sets_spec (b : bool) datasets l (idx : list nat) :
  length l = length datasets →
  (∀ i, i ∈ idx → i < length datasets) →
  ∃ r, select_sets (bit_char b) datasets (code_of_bits l) idx = Ok r ∧
       ∀ S, S ∈ r ↔ ∃ i, i ∈ idx ∧ l !! i = Some b ∧ datasets !! i = Some S.
Proof.
  intros Hlen. induction idx as [|i idx IH]; intros Hidx; simpl.
  - exists []. split; [done|]. intros S. split.
    + by intros ?%elem_of_nil.
    + by intros (i & ?%elem_of_nil & _).
  - destruct IH as (r & Hr & Hmem).
    { intros j ?. apply Hidx. by right. }
    assert (i < length datasets) as Hi by (apply Hidx; by left).
    destruct (lookup_lt_is_Some_2 datasets i Hi) as [S HS].
    destruct (lookup_lt_is_Some_2 l i) as [b' Hb']; [lia|].
    unfold PyStr.index. rewrite code_of_bits_get, Hb'. simpl.
    destruct (Ascii.eqb (bit_char b') (bit_char b)) eqn:Hbb.
    + assert (b' = b) as -> by (destruct b, b'; done).
      unfold list_index. rewrite HS, Hr. simpl.
      exists (S :: r). split; [done|]. intros T. rewrite elem_of_cons, Hmem.
      split.
      * intros [->|(j & ? & ? & ?)].
        -- exists i. split_and!; [by left | done..].
        -- exists j. split_and!; [by right | done..].
      * intros (j & [->|?]%elem_of_cons & ? & ?).
        -- left. congruence.
        -- right. by exists j.
    + assert (b' ≠ b) as Hne by (destruct b, b'; done).
      rewrite Hr. exists r. split; [done|]. intros T. rewrite Hmem.
      split.
      * intros (j & ? & ? & ?). exists j. split_and!; [by right | done..].
      * intros (j & [->|?]%elem_of_cons & ? & ?); [congruence|]. by exists j.
Qed.

(** What the spec's formula says of the petal of a code: the elements of
    the universe that lie in every included set and in no excluded one. *)
Definition in_petal_spec datasets U (logic : string) x : Prop :=
  x ∈ U ∧
  ∀ i S, datasets !! i = Some S →
    (String.get i logic = Some "1"%char → x ∈ S) ∧
    (String.get i logic = Some "0"%char → x ∉ S).

Lemma petal_set_bits datasets U l :
  length l = length datasets → true ∈ l →
  ∃ P, petal_set datasets U (code_of_bits l) = Ok P ∧
       ∀ x, x ∈ P ↔ in_petal_spec datasets U (code_of_bits l) x.
Proof.
  intros Hlen Hin. unfold petal_set.
  assert (∀ i, i ∈ seq 0 (length datasets) → i < length datasets) as Hidx.
  { intros i ?%elem_of_seq. lia. }
  destruct (select_sets_spec true datasets l _ Hlen Hidx) as (inc & Hi & Hinc).
  destruct (select_sets_spec false datasets l _ Hlen Hidx) as (exc & He & Hexc).
  change (bit_char true) with "1"%char in Hi.
  change (bit_char false) with "0"%char in He.
  rewrite Hi, He. clear Hi He. simpl.
  destruct inc as [|S0 inc].
  { exfalso. apply list_elem_of_lookup_1 in Hin as [i Hi].
    destruct (lookup_lt_is_Some_2 datasets i) as [S HS].
    { apply lookup_lt_Some in Hi. lia. }
    eapply elem_of_nil, Hinc. exists i. split_and!; [|done..].
    apply elem_of_seq. apply lookup_lt_Some in HS. lia. }
  simpl. eexists. split; [done|]. intros x.
  rewrite elem_of_difference, elem_of_intersection.
  rewrite foldl_inter_elem, foldl_union_elem.
  unfold in_petal_spec. split.
  - intros [[HU [H0 Hr]] Hex]. split; [done|]. intros i S HS.
    rewrite code_of_bits_get. split.
    + destruct (l !! i) as [b|] eqn:Hb; [|done]. simpl.
      intros [= ->%bit_char_one].
      assert (S ∈ S0 :: inc) as [->|?]%elem_of_cons; [|done|by apply Hr].
      apply Hinc. exists i. split_and!; [|done..].
      apply elem_of_seq. apply lookup_lt_Some in HS. lia.
    + destruct (l !! i) as [b|] eqn:Hb; [|done]. simpl.
      intros [= ->%bit_char_zero] Hx. apply Hex. right. exists S.
      split; [|done]. apply Hexc. exists i. split_and!; [|done..].
      apply elem_of_seq. apply lookup_lt_Some in HS. lia.
  - intros [HU Hall]. split_and!; [done| | |].
    + assert (S0 ∈ S0 :: inc) as (i & _ & Hb & HS)%Hinc by by left.
      apply (Hall i S0 HS). by rewrite code_of_bits_get, Hb.
    + intros T HT. assert (T ∈ S0 :: inc) as (i & _ & Hb & HS)%Hinc by by right.
      apply (Hall i T HS). by rewrite code_of_bits_get, Hb.
    + intros [?%elem_of_empty|(T & (i & _ & Hb & HS)%Hexc & Hx)]; [done|].
      apply (Hall i T HS); [|done]. by rewrite code_of_bits_get, Hb.
Qed.

Lemma petal_set_code datasets U (logic : string) :
  is_logic_code (length datasets) logic →
  ∃ P, petal_set datasets U logic = Ok P ∧
       ∀ x, x ∈ P ↔ in_petal_spec datasets U logic x.
Proof.
  intros (l & -> & Hlen & Hin)%is_logic_code_bits. by apply petal_set_bits.
Qed.

End PetalFacts.

Section Partition.

Context `{Countable A}.
Implicit Types (x : A) (S U P : gset A) (datasets : list (gset A)).

(** Which of the sets hold [x], in dataset order. *)
Definition signature x datasets : list bool :=
  (λ S, bool_decide (x ∈ S)) <$> datasets.

Lemma in_petal_signature datasets U (l : list bool) x :
  length l = length datasets →
  in_petal_spec datasets U (code_of_bits l) x ↔
  x ∈ U ∧ signature x datasets = l.
Proof.
  intros Hlen. unfold in_petal_spec, signature. split.
  - intros [HU Hall]. split; [done|]. apply list_eq. intros i.
    rewrite list_lookup_fmap.
    destruct (datasets !! i) as [S|] eqn:HS; simpl.
    + destruct (lookup_lt_is_Some_2 l i) as [b Hb].
      { apply lookup_lt_Some in HS. lia. }
      rewrite Hb. f_equal. destruct (Hall i S HS) as [H1 H0].
      rewrite code_of_bits_get, Hb in H1, H0. simpl in *.
      destruct b.
      * by apply bool_decide_eq_true_2, H1.
      * by apply bool_decide_eq_false_2, H0.
    + symmetry. apply lookup_ge_None. apply lookup_ge_None in HS. lia.
  - intros [HU <-]. split; [done|]. intros i S HS.
    rewrite code_of_bits_get, list_lookup_fmap, HS. simpl. split.
    + intros [= Hb%bit_char_one]. by apply bool_decide_eq_true in Hb.
    + intros [= Hb%bit_char_zero]. by apply bool_decide_eq_false in Hb.
Qed.

Lemma signature_length x datasets :
  length (signature x datasets) = length datasets.
Proof. unfold signature. by rewrite length_fmap. Qed.

Lemma signature_code datasets U x :
  set_union datasets = Ok U → x ∈ U →
  code_of_bits (signature x datasets) ∈ logic_codes (length datasets).
Proof.
  intros HU Hx. apply logic_codes_elem, is_logic_code_bits.
  exists (signature x datasets). split_and!; [done|apply signature_length|].
  apply (set_union_elem _ _ x HU) in Hx as (S & HS & Hx).
  unfold signature. apply list_elem_of_fmap. exists S.
  split; [|done]. symmetry. by apply bool_decide_eq_true_2.
Qed.

Lemma petal_sizes_sum datasets U (codes : list string) (petals : list (gset A)) :
  NoDup codes →
  (∀ c, c ∈ codes → is_logic_code (length datasets) c) →
  Forall2 (λ c P, ∀ x, x ∈ P ↔ in_petal_spec datasets U c x) codes petals →
  sum_list (size <$> petals) =
  size (filter (λ x, code_of_bits (signature x datasets) ∈ codes) U).
Proof.
  intros Hnd Hcodes Hall. induction Hall as [|c P codes petals HP Hall IH].
  - simpl. symmetry. apply size_empty_iff. intros x.
    rewrite elem_of_filter.
    split; [by intros [?%elem_of_nil _] | by intros ?%elem_of_empty].
  - apply NoDup_cons in Hnd as [Hc Hnd].
    assert (is_logic_code (length datasets) c)
      as (l & -> & Hlen & _)%is_logic_code_bits by (apply Hcodes; by left).
    assert (∀ x, x ∈ P ↔ x ∈ U ∧ code_of_bits (signature x datasets) = code_of_bits l)
      as HP'.
    { intros x. rewrite HP, in_petal_signature by done.
      split; intros [? ?]; split; try done; [by f_equal|].
      by apply code_of_bits_inj. }
    rewrite fmap_cons.
    change (sum_list (size P :: (size <$> petals)))
      with (size P + sum_list (size <$> petals)).
    rewrite IH; [|done|intros c' ?; apply Hcodes; by right].
    rewrite <- size_union.
    + f_equal. apply set_eq. intros x.
      rewrite elem_of_union, !elem_of_filter, HP', elem_of_cons. tauto.
    + intros x [_ Hx]%HP' [Hx' _]%elem_of_filter. congruence.
Qed.

Lemma petals_of_codes datasets U (codes : list string) :
  (∀ c, c ∈ codes → is_logic_code (length datasets) c) →
  ∃ petals, map_result (petal_set datasets U) codes = Ok petals ∧
    Forall2 (λ c P, ∀ x, x ∈ P ↔ in_petal_spec datasets U c x) codes petals.
Proof.
  induction codes as [|c codes IH]; intros Hcodes; simpl.
  - exists []. split; [done | constructor].
  - destruct (petal_set_code datasets U c) as (P & -> & HP); [apply Hcodes; by left|].
    destruct IH as (petals & -> & Hall); [intros c' ?; apply Hcodes; by right|].
    simpl. exists (P :: petals). split; [done | by constructor].
Qed.

(** The petals of all the codes partition the universe. *)
Lemma petal_partition datasets U :
  set_union datasets = Ok U →
  ∃ petals,
    map_result (petal_set datasets U) (logic_codes (length datasets)) = Ok petals ∧
    length petals = 2 ^ length datasets - 1 ∧
    sum_list (size <$> petals) = size U.
Proof.
  intros HU.
  destruct (petals_of_codes datasets U (logic_codes (length datasets)))
    as (petals & Hp & Hall); [by intros c ?%logic_codes_elem|].
  exists petals. split_and!; [done| |].
  - apply Forall2_length in Hall. by rewrite <- Hall, logic_codes_length.
  - rewrite (petal_sizes_sum datasets U (logic_codes (length datasets)) petals);
      [|apply logic_codes_NoDup|by intros c ?%logic_codes_elem|done].
    f_equal. apply set_eq. intros x. rewrite elem_of_filter.
    split; [by intros [_ ?]|]. intros Hx. split; [|done].
    by eapply signature_code.
Qed.

End Partition.

(** ** The label mapping *)

Lemma dict_set_fresh {V} (k : string) (v : V) (d : Dict.t V) :
  k ∉ Dict.keys d → Dict.set k v d = d ++ [(k, v)].
Proof.
  unfold Dict.keys. induction d as [|[k' v'] d IH]; simpl; [done|].
  rewrite not_elem_of_cons. intros [Hne Hd].
  destruct (String.eqb_spec k k') as [->|_]; [done|]. by rewrite IH.
Qed.

Lemma dict_get_app_fresh {V} (k : string) (d1 d2 : Dict.t V) :
  k ∉ Dict.keys d1 → Dict.get k (d1 ++ d2) = Dict.get k d2.
Proof.
  unfold Dict.keys. induction d1 as [|[k' v'] d IH]; simpl; [done|].
  rewrite not_elem_of_cons. intros [Hne Hd].
  destruct (String.eqb_spec k k') as [->|_]; [done|]. by apply IH.
Qed.

Lemma dict_get_Forall2 {V} (P : string → V → Prop) (ks : list string)
    (d : Dict.t V) (k : string) :
  Forall2 (λ c kv, kv.1 = c ∧ P c kv.2) ks d → k ∈ ks →
  ∃ v, Dict.get k d = Some v ∧ P k v.
Proof.
  induction 1 as [|c [k' v] ks d [Hk Hv] Hall IH]; simpl in *.
  - by intros ?%elem_of_nil.
  - subst k'. intros Hin. destruct (String.eqb_spec k c) as [->|Hne].
    + by exists v.
    + apply IH. by apply elem_of_cons in Hin as [?|?].
Qed.

Section Labels.

Context `{Countable A}.
Variable format_other : string -> fields -> result string.
Implicit Types (datasets : list (gset A)) (U P : gset A).

(** One pass of the loop body: the label of a single code. *)
Definition petal_label datasets U (fmt logic : string) : result string :=
  petal ← petal_set datasets U logic;
  f ← petal_fields logic petal (size U);
  str_format format_other fmt f.

Lemma petal_loop_eq datasets U fmt (codes : list string) (acc : Dict.t string) :
  NoDup codes → (∀ c, c ∈ codes → c ∉ Dict.keys acc) →
  petal_loop format_other datasets U fmt codes acc =
  ls ← map_result (λ c, (λ lbl, (c, lbl)) <$> petal_label datasets U fmt c) codes;
  Ok (acc ++ ls).
Proof.
  intros Hnd. revert acc.
  induction Hnd as [|c codes Hc Hnd IH]; intros acc Hacc; simpl.
  - by rewrite app_nil_r.
  - unfold petal_label.
    destruct (petal_set datasets U c) as [P|e]; simpl; [|done].
    destruct (petal_fields c P (size U)) as [f|e]; simpl; [|done].
    destruct (str_format format_other fmt f) as [lbl|e]; simpl; [|done].
    rewrite IH.
    + destruct (map_result _ codes) as [ls|e]; simpl; [|done].
      rewrite dict_set_fresh by (apply Hacc; by left).
      by rewrite <- app_assoc.
    + intros c' Hc'. rewrite dict_set_fresh by (apply Hacc; by left).
      unfold Dict.keys. rewrite fmap_app, elem_of_app. simpl.
      intros [? | ->%list_elem_of_singleton]; [|done].
      by apply (Hacc c'); [right|].
Qed.

Lemma generate_petal_labels_eq datasets fmt :
  generate_petal_labels format_other datasets fmt =
  U ← set_union datasets;
  map_result (λ c, (λ lbl, (c, lbl)) <$> petal_label datasets U fmt c)
    (logic_codes (length datasets)).
Proof.
  unfold generate_petal_labels. destruct (set_union datasets) as [U|e]; simpl; [|done].
  rewrite petal_loop_eq; [|apply logic_codes_NoDup|by intros c _ ?%elem_of_nil].
  by destruct (map_result _ _).
Qed.

Lemma generate_petal_labels_Ok datasets fmt U (labels : Dict.t string) :
  set_union datasets = Ok U →
  generate_petal_labels format_other datasets fmt = Ok labels ↔
  Forall2 (λ c kv, kv.1 = c ∧ petal_label datasets U fmt c = Ok kv.2)
    (logic_codes (length datasets)) labels.
Proof.
  intros HU. rewrite generate_petal_labels_eq, HU. simpl.
  etrans; [apply map_result_Ok|].
  split; intros Hall; (eapply Forall2_impl; [exact Hall|]);
    intros c [k v]; simpl.
  - destruct (petal_label datasets U fmt c) as [lbl|e]; simpl; [|done].
    intros Hx. injection Hx as Hk Hv. by subst.
  - intros [Hk Hv]. subst k. by rewrite Hv.
Qed.

Lemma generate_petal_labels_keys datasets fmt (labels : Dict.t string) :
  generate_petal_labels format_other datasets fmt = Ok labels →
  Dict.keys labels = logic_codes (length datasets).
Proof.
  rewrite generate_petal_labels_eq.
  destruct (set_union datasets) as [U|e] eqn:HU; simpl; [|done].
  intros Hall%map_result_Ok. revert Hall.
  generalize (logic_codes (length datasets)). intros codes Hall. unfold Dict.keys.
  induction Hall as [|c [k v] codes labels Hc Hall IH]; [done|].
  rewrite fmap_cons, IH. f_equal.
  destruct (petal_label datasets U fmt c); simpl in Hc; [|done].
  by injection Hc as Hk _.
Qed.

End Labels.

(** ** [int(str(k))] *)

Lemma digit_not_space (c : ascii) (d : Z) :
  PyInt.digit c = Some d →
  PyInt.is_space c = false ∧ Ascii.eqb c "-" = false ∧
  Ascii.eqb c "+" = false ∧ Ascii.eqb c "_" = false.
Proof.
  unfold PyInt.digit, PyInt.is_space.
  destruct (_ && _) eqn:Hd; [|done]. intros _.
  apply andb_prop in Hd as [H1%Nat.leb_le H2%Nat.leb_le].
  split_and!.
  - repeat apply orb_false_intro; try (apply Nat.eqb_neq; lia).
    apply andb_false_intro2, Nat.leb_gt. lia.
  - apply Ascii.eqb_neq. intros ->. vm_compute in H1. lia.
  - apply Ascii.eqb_neq. intros ->. vm_compute in H1. lia.
  - apply Ascii.eqb_neq. intros ->. vm_compute in H2. lia.
Qed.

Lemma parse_digit_head (c : ascii) (r : string) (d : Z) :
  PyInt.digit c = Some d →
  PyInt.parse (String c r) = PyInt.digits false 0 (String c r).
Proof.
  intros (Hs & Hm & Hp & _)%digit_not_space.
  unfold PyInt.parse. simpl. by rewrite Hs, Hm, Hp.
Qed.

Lemma digits_string_of_uint (d : Decimal.uint) (acc : nat) (b : bool) :
  d ≠ Decimal.Nil ∨ b = true →
  PyInt.digits b (Z.of_nat acc) (NilEmpty.string_of_uint d) =
  Ok (Z.of_nat (Nat.of_uint_acc d acc)).
Proof.
  revert acc b; induction d as [|d IH|d IH|d IH|d IH|d IH|d IH|d IH|d IH|d IH|d IH];
    intros acc b Hb; simpl.
  1: { destruct Hb as [?| ->]; done. }
  all: rewrite <- (IH _ true) by (by right); f_equal;
    rewrite Nat.tail_mul_spec; lia.
Qed.

Lemma parse_of_nat (k : nat) : PyInt.parse (PyStr.of_nat k) = Ok (Z.of_nat k).
Proof.
  unfold PyStr.of_nat.
  assert (Nat.to_uint k ≠ Decimal.Nil) as Hnil.
  { destruct k; [done|]. intros Hk.
    pose proof (DecimalNat.Unsigned.of_to (S k)) as Hof.
    by rewrite Hk in Hof. }
  rewrite <- (DecimalNat.Unsigned.of_to k) at 2.
  unfold Nat.of_uint.
  rewrite <- (digits_string_of_uint _ 0 false) by (by left).
  destruct (Nat.to_uint k); [done|..]; by eapply parse_digit_head.
Qed.

(** ** Claims on [generate_petal_labels] *)

(** Runs the binds whose argument is already a value. *)
Ltac result_steps := unfold mbind, result_bind; cbv beta iota.

Lemma append_nil_r (s : string) : s +:+ "" = s.
Proof. induction s as [|c s IH]; simpl; [done | by rewrite IH]. Qed.

Lemma map_result_is_ok {X Y} (f : X → result Y) (l : list X) :
  (∀ x, x ∈ l → is_ok (f x) = true) → is_ok (map_result f l) = true.
Proof.
  induction l as [|x l IH]; intros Hl; simpl; [done|].
  assert (is_ok (f x) = true) as Hx by (apply Hl; by left).
  destruct (f x); [|done]. simpl.
  assert (is_ok (map_result f l) = true) as Hr.
  { apply IH. intros y ?. apply Hl. by right. }
  by destruct (map_result f l).
Qed.

Lemma truediv_Ok (a b : nat) :
  b ≠ 0 →
  ∃ q, truediv a b = Ok q ∧
       (q == inject_Z (Z.of_nat a) / inject_Z (Z.of_nat b))%Q.
Proof.
  intros Hb. destruct b as [|b]; [done|]. eexists. split; [done|].
  replace (Z.of_nat (S b)) with (Z.pos (Pos.of_nat (S b))) by lia.
  apply Qmake_Qdiv.
Qed.

Lemma truediv_nonzero (a b : nat) :
  b ≠ 0 → truediv a b = Ok (Z.of_nat a # Pos.of_nat b).
Proof. by destruct b. Qed.

Lemma size_nonempty `{Countable A} (U : gset A) : U ≠ ∅ → size U ≠ 0.
Proof. intros HU Hs. apply HU. by apply leibniz_equiv, size_empty_iff. Qed.

Lemma parse_sizes `{Countable A} (petals : list (gset A)) :
  map_result PyInt.parse ((PyStr.of_nat ∘ size) <$> petals) =
  Ok ((Z.of_nat ∘ size) <$> petals).
Proof.
  induction petals as [|P petals IH]; [done|].
  rewrite !fmap_cons. simpl. by rewrite parse_of_nat, IH.
Qed.

Lemma sum_sizes `{Countable A} (petals : list (gset A)) :
  foldr Z.add 0%Z ((Z.of_nat ∘ size) <$> petals) =
  Z.of_nat (sum_list (size <$> petals)).
Proof.
  induction petals as [|P petals IH]; [done|].
  rewrite !fmap_cons. simpl foldr. rewrite IH.
  change (sum_list (size P :: (size <$> petals)))
    with (size P + sum_list (size <$> petals)). lia.
Qed.

Section PetalClaims.

Context `{Countable A}.
Variable format_other : string -> fields -> result string.
Implicit Types (datasets : list (gset A)) (U S : gset A).

Lemma str_format_default (f : fields) :
  str_format format_other "{size}" f = Ok (PyStr.of_nat (f_size f)).
Proof. unfold str_format. simpl. by rewrite append_nil_r. Qed.

Lemma petal_label_default datasets U (c : string) (P : gset A) :
  petal_set datasets U c = Ok P → size U ≠ 0 →
  petal_label format_other datasets U "{size}" c = Ok (PyStr.of_nat (size P)).
Proof.
  intros HP HU. unfold petal_label, petal_fields. rewrite HP.
  destruct (truediv_Ok (100 * size P) (size U) HU) as (q & Hq & _).
  result_steps. rewrite Hq. result_steps. by rewrite str_format_default.
Qed.

Lemma default_labels datasets U (codes : list string) (petals : list (gset A)) :
  map_result (petal_set datasets U) codes = Ok petals → size U ≠ 0 →
  map_result
    (λ c, (λ lbl, (c, lbl)) <$> petal_label format_other datasets U "{size}" c)
    codes
  = Ok (zip codes ((PyStr.of_nat ∘ size) <$> petals)).
Proof.
  intros Hp HU. apply map_result_Ok in Hp. apply map_result_Ok.
  induction Hp as [|c P codes petals HP Hp IH]; [constructor|].
  rewrite fmap_cons. simpl. constructor; [|done].
  by rewrite (petal_label_default _ _ _ P).
Qed.

(** C1: for [N >= 2] sets with a non-empty union and a non-zero code of
    length [N], the petal computed for the code holds exactly the elements
    of the universe that are in every included set (bit [1]) and in no
    excluded one (bit [0]); the label stored under the code is the
    template applied to [logic] = the code, [size] = the cardinality of
    the petal and [percentage] = 100 * size / universe size; and labels
    are returned whenever the template renders on every code. *)
Theorem generate_petal_labels_petal datasets (fmt : string) U (logic : string) :
  2 ≤ length datasets →
  set_union datasets = Ok U → U ≠ ∅ →
  is_logic_code (length datasets) logic →
  ∃ (petal : gset A) (percentage : Q),
    petal_set datasets U logic = Ok petal ∧
    (∀ x, x ∈ petal ↔ in_petal_spec datasets U logic x) ∧
    truediv (100 * size petal) (size U) = Ok percentage ∧
    (percentage ==
       inject_Z (Z.of_nat (100 * size petal)) / inject_Z (Z.of_nat (size U)))%Q ∧
    (∀ labels, generate_petal_labels format_other datasets fmt = Ok labels →
       ∃ label, Dict.get logic labels = Some label ∧
         str_format format_other fmt (Fields logic (size petal) percentage)
           = Ok label) ∧
    ((∀ c, is_logic_code (length datasets) c →
         is_ok (petal_label format_other datasets U fmt c) = true) →
     is_ok (generate_petal_labels format_other datasets fmt) = true).
Proof.
  intros _ HU Hne Hcode.
  destruct (petal_set_code datasets U logic Hcode) as (petal & Hp & Hspec).
  destruct (truediv_Ok (100 * size petal) (size U) (size_nonempty U Hne))
    as (q & Hq & Hqeq).
  exists petal, q. split_and!; [done..| |].
  - intros labels Hl.
    apply (generate_petal_labels_Ok _ _ _ U) in Hl; [|done].
    destruct (dict_get_Forall2
                (λ c v, petal_label format_other datasets U fmt c = Ok v)
                _ _ logic Hl) as (label & Hget & Hlabel).
    { by apply logic_codes_elem. }
    exists label. split; [done|].
    unfold petal_label, petal_fields in Hlabel.
    rewrite Hp in Hlabel. unfold mbind, result_bind in Hlabel.
    cbv beta iota in Hlabel. by rewrite Hq in Hlabel.
  - intros Hall. rewrite generate_petal_labels_eq, HU. simpl.
    apply map_result_is_ok. intros c Hc%logic_codes_elem.
    specialize (Hall c Hc). by destruct (petal_label _ _ _ _ _).
Qed.

(** C2: for [N >= 2] sets with a non-empty union, the petals of the
    [2^N - 1] codes have sizes that add up to the cardinality of the
    union; with the default template the labels returned are these sizes,
    and read back as integers they add up to it as well. *)
Theorem petal_sizes_partition datasets U :
  2 ≤ length datasets →
  set_union datasets = Ok U → U ≠ ∅ →
  (∃ petals : list (gset A),
     map_result (petal_set datasets U) (logic_codes (length datasets))
       = Ok petals ∧
     length petals = 2 ^ length datasets - 1 ∧
     sum_list (size <$> petals) = size U) ∧
  (∃ (labels : Dict.t string) (sizes : list Z),
     generate_petal_labels format_other datasets "{size}" = Ok labels ∧
     length labels = 2 ^ length datasets - 1 ∧
     map_result PyInt.parse (Dict.values labels) = Ok sizes ∧
     foldr Z.add 0%Z sizes = Z.of_nat (size U)).
Proof.
  intros _ HU Hne.
  destruct (petal_partition datasets U HU) as (petals & Hp & Hlen & Hsum).
  split; [by exists petals|].
  exists (zip (logic_codes (length datasets)) ((PyStr.of_nat ∘ size) <$> petals)),
    ((Z.of_nat ∘ size) <$> petals).
  assert (length (logic_codes (length datasets)) = length petals) as Hl.
  { by rewrite logic_codes_length. }
  split_and!.
  - rewrite generate_petal_labels_eq, HU. simpl.
    apply default_labels; [done | by apply size_nonempty].
  - rewrite length_zip_with, length_fmap. lia.
  - unfold Dict.values. rewrite snd_zip by (rewrite length_fmap; lia).
    apply parse_sizes.
  - by rewrite sum_sizes, Hsum.
Qed.

(** C3: for [N >= 1] sets that are all empty, the call fails with a
    division by zero, whatever the template. *)
Theorem generate_petal_labels_empty_universe datasets (fmt : string) :
  1 ≤ length datasets →
  (∀ S, S ∈ datasets → S = ∅) →
  generate_petal_labels format_other datasets fmt = Err ZeroDivisionError.
Proof.
  intros Hn Hempty. unfold generate_petal_labels.
  destruct (set_union datasets) as [U|e] eqn:HU.
  2: { destruct datasets; simpl in *; [lia | done]. }
  assert (U = ∅) as ->.
  { apply set_eq. intros x. rewrite (set_union_elem _ _ x HU).
    split; [|by intros ?%elem_of_empty].
    intros (S & HS & Hx). by rewrite (Hempty S HS) in Hx. }
  result_steps. destruct (logic_codes (length datasets)) as [|c codes] eqn:Hc.
  { apply (f_equal length) in Hc. rewrite logic_codes_length in Hc. simpl in Hc.
    assert (2 ^ 1 ≤ 2 ^ length datasets) by (apply Nat.pow_le_mono_r; lia).
    simpl in *. lia. }
  assert (is_logic_code (length datasets) c) as Hcode.
  { apply logic_codes_elem. rewrite Hc. by left. }
  destruct (petal_set_code datasets ∅ c Hcode) as (P & HP & _).
  cbn [petal_loop]. rewrite HP. result_steps.
  unfold petal_fields. by rewrite size_empty.
Qed.

(** C10: nothing checks the number of sets.  A single non-empty set [S]
    yields the one-entry mapping from ["1"] to the label of size [|S|];
    and whenever labels are returned for [N >= 1] sets, their keys are
    exactly the [2^N - 1] non-zero binary codes of length [N], in
    counting order. *)
Theorem generate_petal_labels_no_count_check S (fmt label : string)
    datasets (fmt' : string) (labels : Dict.t string) :
  S ≠ ∅ →
  str_format format_other fmt
    (Fields "1" (size S) (Z.of_nat (100 * size S) # Pos.of_nat (size S)))
    = Ok label →
  1 ≤ length datasets →
  generate_petal_labels format_other datasets fmt' = Ok labels →
  generate_petal_labels format_other [S] fmt = Ok [("1", label)] ∧
  Dict.keys labels = logic_codes (length datasets) ∧
  NoDup (Dict.keys labels) ∧
  length labels = 2 ^ length datasets - 1 ∧
  (∀ s, s ∈ Dict.keys labels ↔ is_logic_code (length datasets) s).
Proof.
  intros HS Hlabel _ Hl. split.
  - assert (petal_set [S] S "1" = Ok ((S ∩ S) ∖ ∅)) as Hp by reflexivity.
    assert ((S ∩ S) ∖ ∅ = S) as HSS.
    { apply set_eq. intros x. rewrite elem_of_difference, elem_of_intersection.
      split; [by intros [[? ?] ?]|]. intros ?. split_and!; [done..|].
      by intros ?%elem_of_empty. }
    rewrite generate_petal_labels_eq.
    change (set_union [S]) with (Ok S). result_steps.
    change (logic_codes (length [S])) with ["1"]. cbn [map_result].
    unfold petal_label, petal_fields. rewrite Hp, HSS. result_steps.
    rewrite truediv_nonzero by by apply size_nonempty. result_steps.
    by rewrite Hlabel.
  - pose proof (generate_petal_labels_keys _ _ _ _ Hl) as Hk.
    rewrite Hk. split_and!; [done|apply logic_codes_NoDup| |].
    + unfold Dict.keys in Hk. apply (f_equal length) in Hk.
      by rewrite length_fmap, logic_codes_length in Hk.
    + intros s. apply logic_codes_elem.
Qed.

End PetalClaims.

(** *** The claims at concrete inputs *)

(** A stand-in for the part of [str.format] that is not modelled; the
    templates it is used with below never reach it. *)
Definition no_format : string -> fields -> result string :=
  fun _ _ => Err ValueError.

(** The sets [{1, 2, 3}] and [{2, 3, 4}] of the spec's example. *)
Definition sets_ab : list (gset Z) := [{[1; 2; 3]}; {[2; 3; 4]}]%Z.
Definition union_ab : gset Z := ({[1; 2; 3]} ∪ {[2; 3; 4]})%Z.

Lemma union_ab_nonempty : union_ab ≠ ∅.
Proof. intros HU. vm_compute in HU. discriminate HU. Defined.

Example petal_labels_ab :
  generate_petal_labels no_format sets_ab "{size}"
  = Ok [("01", "1"); ("10", "1"); ("11", "2")].
Proof. vm_compute. reflexivity. Qed.

Example petal_labels_abc :
  generate_petal_labels no_format
    ([{[1; 2; 3]}; {[2; 3; 4]}; {[3; 4; 5]}]%Z : list (gset Z)) "{logic}={size}"
  = Ok [("001", "001=1"); ("010", "010=0"); ("011", "011=1"); ("100", "100=1");
        ("101", "101=0"); ("110", "110=1"); ("111", "111=1")].
Proof. vm_compute. reflexivity. Qed.

Example percentage_ab :
  (petal ← petal_set sets_ab union_ab "11";
   f_percentage <$> petal_fields "11" petal (size union_ab))
  = Ok (200 # 4) ∧ (200 # 4 == 50)%Q.
Proof. split; [vm_compute; reflexivity | reflexivity]. Qed.

Example petal_labels_no_sets :
  generate_petal_labels no_format ([] : list (gset Z)) "{size}" = Err TypeError.
Proof. reflexivity. Qed.

Lemma generate_petal_labels_petal_witness :
  (2 ≤ length sets_ab ∧ set_union sets_ab = Ok union_ab ∧ union_ab ≠ ∅ ∧
   is_logic_code (length sets_ab) "11") ∧
  ∃ (petal : gset Z) (percentage : Q),
    petal_set sets_ab union_ab "11" = Ok petal ∧
    (∀ x, x ∈ petal ↔ in_petal_spec sets_ab union_ab "11" x) ∧
    truediv (100 * size petal) (size union_ab) = Ok percentage ∧
    (percentage ==
       inject_Z (Z.of_nat (100 * size petal)) /
       inject_Z (Z.of_nat (size union_ab)))%Q ∧
    (∀ labels, generate_petal_labels no_format sets_ab "{size}" = Ok labels →
       ∃ label, Dict.get "11" labels = Some label ∧
         str_format no_format "{size}" (Fields "11" (size petal) percentage)
           = Ok label) ∧
    ((∀ c, is_logic_code (length sets_ab) c →
         is_ok (petal_label no_format sets_ab union_ab "{size}" c) = true) →
     is_ok (generate_petal_labels no_format sets_ab "{size}") = true).
Proof.
  assert (is_logic_code (length sets_ab) "11") as Hcode.
  { split; [reflexivity|]. split; [reflexivity|]. exists 0. reflexivity. }
  split.
  - split; [simpl; lia|]. split; [reflexivity|].
    split; [apply union_ab_nonempty | exact Hcode].
  - apply (generate_petal_labels_petal no_format sets_ab "{size}" union_ab "11").
    + simpl; lia.
    + reflexivity.
    + apply union_ab_nonempty.
    + exact Hcode.
Defined.

Lemma petal_sizes_partition_witness :
  (2 ≤ length sets_ab ∧ set_union sets_ab = Ok union_ab ∧ union_ab ≠ ∅) ∧
  (∃ petals : list (gset Z),
     map_result (petal_set sets_ab union_ab) (logic_codes (length sets_ab))
       = Ok petals ∧
     length petals = 2 ^ length sets_ab - 1 ∧
     sum_list (size <$> petals) = size union_ab) ∧
  (∃ (labels : Dict.t string) (sizes : list Z),
     generate_petal_labels no_format sets_ab "{size}" = Ok labels ∧
     length labels = 2 ^ length sets_ab - 1 ∧
     map_result PyInt.parse (Dict.values labels) = Ok sizes ∧
     foldr Z.add 0%Z sizes = Z.of_nat (size union_ab)).
Proof.
  split.
  - split; [simpl; lia|]. split; [reflexivity | apply union_ab_nonempty].
  - apply (petal_sizes_partition no_format sets_ab union_ab).
    + simpl; lia.
    + reflexivity.
    + apply union_ab_nonempty.
Defined.

Lemma generate_petal_labels_empty_universe_witness :
  (1 ≤ length [(∅ : gset Z); ∅] ∧ ∀ S, S ∈ [(∅ : gset Z); ∅] → S = ∅) ∧
  generate_petal_labels no_format [(∅ : gset Z); ∅] "{logic}"
  = Err ZeroDivisionError.
Proof.
  assert (∀ S, S ∈ [(∅ : gset Z); ∅] → S = ∅) as Hempty.
  { intros S HS. apply elem_of_cons in HS as [HS|HS]; [exact HS|].
    apply elem_of_cons in HS as [HS|HS]; [exact HS|].
    apply elem_of_nil in HS. destruct HS. }
  split.
  - split; [simpl; lia | exact Hempty].
  - apply (generate_petal_labels_empty_universe no_format [∅; ∅] "{logic}").
    + simpl; lia.
    + exact Hempty.
Defined.

Lemma generate_petal_labels_no_count_check_witness :
  let S : gset Z := {[7; 8]}%Z in
  let labels := [("01", "1"); ("10", "1"); ("11", "2")] in
  (S ≠ ∅ ∧
   str_format no_format "{size}"
     (Fields "1" (size S) (Z.of_nat (100 * size S) # Pos.of_nat (size S)))
     = Ok "2" ∧
   1 ≤ length sets_ab ∧
   generate_petal_labels no_format sets_ab "{size}" = Ok labels) ∧
  generate_petal_labels no_format [S] "{size}" = Ok [("1", "2")] ∧
  Dict.keys labels = logic_codes (length sets_ab) ∧
  NoDup (Dict.keys labels) ∧
  length labels = 2 ^ length sets_ab - 1 ∧
  (∀ s, s ∈ Dict.keys labels ↔ is_logic_code (length sets_ab) s).
Proof.
  intros S labels.
  assert (S ≠ ∅) as HS.
  { intros HU. vm_compute in HU. discriminate HU. }
  assert (generate_petal_labels no_format sets_ab "{size}" = Ok labels) as Hl.
  { vm_compute. reflexivity. }
  split.
  - split; [exact HS|]. split; [vm_compute; reflexivity|].
    split; [simpl; lia | exact Hl].
  - apply (generate_petal_labels_no_count_check no_format S "{size}" "2"
             sets_ab "{size}" labels).
    + exact HS.
    + vm_compute. reflexivity.
    + simpl; lia.
    + exact Hl.
Defined.

(** ** The consistency checker *)

(** A key that [get_n_sets] rejects: wrong length, or a character that is
    neither ["0"] nor ["1"]. *)
Definition bad_key (n_sets : nat) (logic : string) : Prop :=
  String.length logic ≠ n_sets ∨
  ∃ i c, String.get i logic = Some c ∧ c ≠ "0"%char ∧ c ≠ "1"%char.

Lemma binary_false (s : string) :
  PyStr.binary s = false ↔
  ∃ i c, String.get i s = Some c ∧ c ≠ "0"%char ∧ c ≠ "1"%char.
Proof.
  induction s as [|a s IH]; simpl.
  - split; [done | by intros (i & c & ? & _)].
  - rewrite andb_false_iff, IH, orb_false_iff, !Ascii.eqb_neq. split.
    + intros [[? ?]|(i & c & ? & ?)].
      * by exists 0, a.
      * by exists (S i), c.
    + intros ([|i] & c & Hget & ?).
      * injection Hget as ->. by left.
      * right. by exists i, c.
Qed.

Lemma check_keys_spec (n_sets : nat) (keys : list string) :
  (check_keys n_sets keys = Ok () ∧ ∀ k, k ∈ keys → ¬ bad_key n_sets k) ∨
  (∃ k, k ∈ keys ∧ bad_key n_sets k ∧
        (check_keys n_sets keys = Err ValueError ∨
         check_keys n_sets keys = Err KeyError)).
Proof.
  induction keys as [|k keys IH]; simpl.
  - left. split; [done|]. by intros k ?%elem_of_nil.
  - destruct (String.length k =? n_sets) eqn:Hlen; simpl.
    + apply Nat.eqb_eq in Hlen.
      destruct (PyStr.binary k) eqn:Hbin; simpl.
      * destruct IH as [[-> Hgood]|(k' & ? & ? & ?)].
        -- left. split; [done|]. intros k' [->|?]%elem_of_cons; [|by apply Hgood].
           intros [?|Hbad%binary_false]; [done | congruence].
        -- right. exists k'. split_and!; [by right | done..].
      * right. exists k. split_and!; [by left| |by right].
        right. by apply binary_false.
    + apply Nat.eqb_neq in Hlen. right. exists k.
      split_and!; [by left|by left|by left].
Qed.

(** C7: [get_n_sets] raises exactly when some key of the mapping has a
    length other than the number of dataset labels or holds a character
    outside [{0, 1}]; otherwise it returns the number of dataset labels. *)
Theorem get_n_sets_spec {V} (petal_labels : Dict.t V) (dataset_labels : list string) :
  ((∃ e, get_n_sets petal_labels dataset_labels = Err e) ↔
   ∃ logic, logic ∈ Dict.keys petal_labels ∧
            bad_key (length dataset_labels) logic) ∧
  (get_n_sets petal_labels dataset_labels = Ok (length dataset_labels) ∨
   ∃ e, get_n_sets petal_labels dataset_labels = Err e).
Proof.
  unfold get_n_sets.
  destruct (check_keys_spec (length dataset_labels) (Dict.keys petal_labels))
    as [[-> Hgood]|(k & Hk & Hbad & [-> | ->])]; simpl.
  - split; [|by left]. split; [by intros [e ?]|].
    intros (logic & Hin & Hbad). by destruct (Hgood logic Hin).
  - split; [|right; by exists ValueError].
    split; [by exists k | by exists ValueError].
  - split; [|right; by exists KeyError].
    split; [by exists k | by exists KeyError].
Qed.

Example get_n_sets_ok :
  get_n_sets [("10", "a"); ("01", "b")] ["A"; "B"] = Ok 2.
Proof. reflexivity. Qed.

Example get_n_sets_length :
  get_n_sets [("10", "a"); ("011", "b")] ["A"; "B"] = Err ValueError.
Proof. reflexivity. Qed.

Example get_n_sets_character :
  get_n_sets [("10", "a"); ("0x", "b")] ["A"; "B"] = Err KeyError.
Proof. reflexivity. Qed.

(** ** The color generator *)

Lemma map_result_length {X Y} (f : X → result Y) (l : list X) (r : list Y) :
  map_result f l = Ok r → length r = length l.
Proof. intros Hr%map_result_Ok. symmetry. by eapply Forall2_length. Qed.

Section ColorClaims.

Variables color cmap_id : Type.
Variable to_rgba : color -> option Q -> result rgba.
Variable cmap_to_rgba : cmap_id -> list nat -> Q -> result (list rgba).

#[local] Abbreviation colors_of :=
  (generate_colors color cmap_id to_rgba cmap_to_rgba).

Lemma generate_colors_invalid (cmap : cmap_arg color cmap_id)
    (n_colors : pyvalue) (alpha : Q) :
  (∀ n, as_int n_colors = Some n → (n < 2 ∨ 6 < n)%Z) →
  colors_of cmap n_colors alpha = Err ValueError.
Proof.
  intros Hn. unfold generate_colors.
  destruct (as_int n_colors) as [n|]; [|done].
  destruct (Hn n eq_refl) as [?%Z.ltb_lt | ?%Z.ltb_lt].
  - by replace (n <? 2)%Z with true.
  - replace (6 <? n)%Z with true. by rewrite orb_true_r.
Qed.

Lemma generate_colors_valid (cmap : cmap_arg color cmap_id)
    (n_colors : pyvalue) (alpha : Q) (n : Z) :
  as_int n_colors = Some n → (2 ≤ n ≤ 6)%Z →
  colors_of cmap n_colors alpha =
  colors ← match cmap with
           | CmapList l => map_result (λ c, to_rgba c (Some alpha)) l
           | CmapId c => cmap_to_rgba c (seq 0 (Z.to_nat n)) alpha
           end;
  Ok (take (Z.to_nat n) colors).
Proof.
  intros Hint Hn. unfold generate_colors. rewrite Hint.
  replace (n <? 2)%Z with false by (symmetry; apply Z.ltb_ge; lia).
  by replace (6 <? n)%Z with false by (symmetry; apply Z.ltb_ge; lia).
Qed.


End ColorClaims.

(** [to_rgba] on an RGBA tuple: it is returned, with the alpha forced if
    one is given. *)
Definition tuple_to_rgba (c : rgba) (alpha : option Q) : result rgba :=
  Ok match alpha with
     | Some a => RGBA (red c) (green c) (blue c) a
     | None => c
     end.

(** A colormap from black to white, sampled over the range of the data. *)
Definition gray_to_rgba (_ : unit) (xs : list nat) (alpha : Q)
    : result (list rgba) :=
  let top := inject_Z (Z.of_nat (Nat.pred (length xs))) in
  Ok ((λ x, let v := (inject_Z (Z.of_nat x) / top)%Q in RGBA v v v alpha) <$> xs).

Definition opaque_red : rgba := RGBA 1 0 0 1.


Example generate_colors_three :
  generate_colors rgba unit tuple_to_rgba gray_to_rgba
    (CmapId ()) (PyInteger 3) (4 # 10)
  = Ok [RGBA (0 # 2) (0 # 2) (0 # 2) (4 # 10);
        RGBA (1 # 2) (1 # 2) (1 # 2) (4 # 10);
        RGBA (2 # 2) (2 # 2) (2 # 2) (4 # 10)].
Proof. vm_compute. reflexivity. Qed.

Example generate_colors_one_seven_float :
  generate_colors rgba unit tuple_to_rgba gray_to_rgba
    (CmapId ()) (PyInteger 1) (4 # 10) = Err ValueError ∧
  generate_colors rgba unit tuple_to_rgba gray_to_rgba
    (CmapId ()) (PyInteger 7) (4 # 10) = Err ValueError ∧
  generate_colors rgba unit tuple_to_rgba gray_to_rgba
    (CmapId ()) (PyFloat 3) (4 # 10) = Err ValueError.
Proof. done. Qed.


(** ** What drawing code adds to the axes *)


Lemma draw_bind_lift_Ok {color X T} (v : X) (k : X → draw color T)
    (ax : axes color) :
  (lift (Ok v) ≫= k) ax = k v ax.
Proof. reflexivity. Qed.

Lemma draw_bind_lift_Err {color X T} (e : exn) (k : X → draw color T)
    (ax : axes color) :
  (lift (Err e) ≫= k) ax = (Err e, ax).
Proof. reflexivity. Qed.






Section DrawClaims.

Variable color : Type.
Variable to_rgba : color -> option Q -> result rgba.
Variables SHAPE_COORDS SHAPE_DIMS : gmap nat (list (list arg)).
Variable SHAPE_ANGLES : gmap nat (list arg).
Variables PETAL_LABEL_COORDS PSEUDOVENN_PETAL_COORDS
  : gmap nat (gmap string (Q * Q)).
Variables cos sin : Q -> Q.
Variable pi : Q.
Variable validate_arguments : kwargs color -> result (kwargs color).

#[local] Abbreviation venn :=
  (draw_venn color to_rgba SHAPE_COORDS SHAPE_DIMS SHAPE_ANGLES
     PETAL_LABEL_COORDS validate_arguments).
#[local] Abbreviation venn_shapes :=
  (draw_venn_shapes color SHAPE_COORDS SHAPE_DIMS SHAPE_ANGLES
     PETAL_LABEL_COORDS).
#[local] Abbreviation pseudovenn6 :=
  (draw_pseudovenn6 color to_rgba PSEUDOVENN_PETAL_COORDS cos sin pi
     validate_arguments).
#[local] Abbreviation pseudovenn6_shapes :=
  (draw_pseudovenn6_shapes color to_rgba PSEUDOVENN_PETAL_COORDS cos sin pi).






Lemma decorated_run {T} (body : kwargs color → draw color T)
    (kw kw' : kwargs color) (ax : option (axes color)) :
  validate_arguments kw = Ok kw' →
  ensure_axes color (validated color validate_arguments body) kw ax =
  body kw' (default [] ax ++ [SetStyle]).
Proof.
  intros Hv. unfold ensure_axes, validated.
  unfold mbind at 1, draw_bind at 1. unfold emit at 1. cbv beta iota.
  by rewrite Hv, draw_bind_lift_Ok.
Qed.


(** C8: once the arguments are validated and the number [N] of sets is
    confirmed, [draw_pseudovenn6] raises [NotImplementedError] with nothing
    drawn when [N] is not 6, and goes on to draw when it is. *)
Theorem draw_pseudovenn6_count (kw kw' : kwargs color)
    (ax : option (axes color)) (N : nat) :
  validate_arguments kw = Ok kw' →
  get_n_sets (petal_labels kw') (dataset_labels kw') = Ok N →
  let ax1 := default [] ax ++ [SetStyle] in
  (N ≠ 6 → pseudovenn6 kw ax = (Err NotImplementedError, ax1)) ∧
  (N = 6 → pseudovenn6 kw ax = pseudovenn6_shapes kw' 6 ax1).
Proof.
  intros Hv Hn ax1. unfold draw_pseudovenn6.
  rewrite (decorated_run _ kw kw' ax Hv). fold ax1.
  unfold draw_pseudovenn6_body. rewrite Hn, draw_bind_lift_Ok. split.
  - intros HN. assert ((N =? 6) = false) as -> by (by apply Nat.eqb_neq).
    simpl negb. cbv iota. by rewrite draw_bind_lift_Err.
  - intros ->. simpl negb. cbv iota. by rewrite draw_bind_lift_Ok.
Qed.

End DrawClaims.

Section DispatchClaims.

Context `{Countable A}.
Variables color cmap_id : Type.
Variable format_other : string -> fields -> result string.
Variable to_rgba : color -> option Q -> result rgba.
Variable cmap_to_rgba : cmap_id -> list nat -> Q -> result (list rgba).
Variable rgba_color : rgba -> color.
Variables SHAPE_COORDS SHAPE_DIMS : gmap nat (list (list arg)).
Variable SHAPE_ANGLES : gmap nat (list arg).
Variables PETAL_LABEL_COORDS PSEUDOVENN_PETAL_COORDS
  : gmap nat (gmap string (Q * Q)).
Variables cos sin : Q -> Q.
Variable pi : Q.
Variable validate_arguments : kwargs color -> result (kwargs color).

#[local] Abbreviation dispatch :=
  (_venn_dispatch color cmap_id format_other to_rgba cmap_to_rgba rgba_color
     SHAPE_COORDS SHAPE_DIMS SHAPE_ANGLES PETAL_LABEL_COORDS
     PSEUDOVENN_PETAL_COORDS cos sin pi validate_arguments).

(** C9: the dispatcher called for the pseudo-Venn composer with
    [hint_hidden] on and a template that is neither absent nor [{size}]
    raises [NotImplementedError]; the data, the labels and the axes play no
    part, so no label is computed and nothing is drawn. *)
Theorem venn_dispatch_unsupported_fmt (data : list (string * gset A))
    (labels : option (Dict.t string)) (fmt : string) (size : Q)
    (cmap : cmap_arg color cmap_id) (alpha : Q) (loc : option string)
    (ax : option (axes color)) :
  fmt ≠ "{size}" →
  dispatch data DrawPseudovenn6 labels (Some fmt) true size cmap alpha loc ax
  = (Err NotImplementedError, ax).
Proof.
  intros Hfmt. unfold _venn_dispatch, unsupported_fmt.
  by destruct (String.eqb_spec fmt "{size}").
Qed.

End DispatchClaims.

(** *** Sample surroundings for running the composers *)

Module Sample.

(** The layout of the two-set diagram, and two positions of the six-set
    pseudo-diagram. *)
Definition SHAPE_COORDS : gmap nat (list (list arg)) :=
  {[2 := [[Some (375 # 1000); Some (1 # 2)]; [Some (625 # 1000); Some (1 # 2)]]]}.
Definition SHAPE_DIMS : gmap nat (list (list arg)) :=
  {[2 := [[Some (1 # 2); Some (1 # 2)]; [Some (1 # 2); Some (1 # 2)]]]}.
Definition SHAPE_ANGLES : gmap nat (list arg) :=
  {[2 := [Some 0%Q; Some 0%Q]]}.
Definition PETAL_LABEL_COORDS : gmap nat (gmap string (Q * Q)) :=
  {[2 := {["01" := (74 # 100, 1 # 2); "10" := (26 # 100, 1 # 2);
           "11" := (1 # 2, 1 # 2)]}]}.
Definition PSEUDOVENN_PETAL_COORDS : gmap nat (gmap string (Q * Q)) :=
  {[6 := {["100000" := (1 # 2, 8 # 10); "111111" := (1 # 2, 1 # 2)]}]}.

(** Stand-ins for the trigonometry, which no claim depends on. *)
Definition cos (_ : Q) : Q := 0.
Definition sin (_ : Q) : Q := 1.
Definition pi : Q := 3.

Definition validate_arguments (kw : kwargs rgba) : result (kwargs rgba) :=
  Ok kw.

Definition draw_venn :=
  draw_venn rgba tuple_to_rgba SHAPE_COORDS SHAPE_DIMS SHAPE_ANGLES
    PETAL_LABEL_COORDS validate_arguments.
Definition draw_venn_shapes :=
  draw_venn_shapes rgba SHAPE_COORDS SHAPE_DIMS SHAPE_ANGLES PETAL_LABEL_COORDS.
Definition draw_pseudovenn6 :=
  draw_pseudovenn6 rgba tuple_to_rgba PSEUDOVENN_PETAL_COORDS cos sin pi
    validate_arguments.
Definition draw_pseudovenn6_shapes :=
  draw_pseudovenn6_shapes rgba tuple_to_rgba PSEUDOVENN_PETAL_COORDS cos sin pi.
Definition _venn_dispatch :=
  _venn_dispatch (A := Z) rgba unit no_format tuple_to_rgba gray_to_rgba id
    SHAPE_COORDS SHAPE_DIMS SHAPE_ANGLES PETAL_LABEL_COORDS
    PSEUDOVENN_PETAL_COORDS cos sin pi validate_arguments.

Definition colors2 : list rgba := [RGBA 0 0 0 (4 # 10); RGBA 1 1 1 (4 # 10)].

Definition kw_ab : kwargs rgba :=
  Kwargs [("01", "1"); ("10", "1"); ("11", "2")] ["A"; "B"] false
    colors2 13 (Some "upper right").

Definition kw_abc : kwargs rgba :=
  Kwargs [("001", "1")] ["A"; "B"; "C"; "D"; "E"; "F"; "G"] false
    colors2 13 None.

End Sample.

Example draw_venn_ab :
  Sample.draw_venn Sample.kw_ab None
  = (Ok (),
     [SetStyle;
      AddPatch (Ellipse (Some (375 # 1000), Some (1 # 2)) (Some (1 # 2))
                  (Some (1 # 2)) (Some 0%Q)
                  (RGBA 0 0 0 (4 # 10)) (RGBA 0 0 0 ((1 + (4 # 10)) / 2)));
      AddPatch (Ellipse (Some (625 # 1000), Some (1 # 2)) (Some (1 # 2))
                  (Some (1 # 2)) (Some 0%Q)
                  (RGBA 1 1 1 (4 # 10)) (RGBA 1 1 1 ((1 + (4 # 10)) / 2)));
      AxText (74 # 100) (1 # 2) "1" 13;
      AxText (26 # 100) (1 # 2) "1" 13;
      AxText (1 # 2) (1 # 2) "2" 13;
      AxLegend ["A"; "B"] "upper right" 13]).
Proof. vm_compute. reflexivity. Qed.


Example draw_venn_seven :
  Sample.draw_venn Sample.kw_abc None = (Err ValueError, [SetStyle]).
Proof. reflexivity. Qed.

Lemma draw_pseudovenn6_count_witness :
  (Sample.validate_arguments Sample.kw_ab = Ok Sample.kw_ab ∧
   get_n_sets (petal_labels Sample.kw_ab) (dataset_labels Sample.kw_ab) = Ok 2) ∧
  let ax1 := default [] None ++ [SetStyle] in
  (2 ≠ 6 →
     Sample.draw_pseudovenn6 Sample.kw_ab None = (Err NotImplementedError, ax1)) ∧
  (2 = 6 →
     Sample.draw_pseudovenn6 Sample.kw_ab None
     = Sample.draw_pseudovenn6_shapes Sample.kw_ab 6 ax1).
Proof.
  split; [split; reflexivity|].
  apply (draw_pseudovenn6_count rgba tuple_to_rgba
           Sample.PSEUDOVENN_PETAL_COORDS Sample.cos Sample.sin Sample.pi
           Sample.validate_arguments Sample.kw_ab Sample.kw_ab None 2);
    reflexivity.
Defined.

Lemma venn_dispatch_unsupported_fmt_witness :
  "{percentage}" ≠ "{size}" ∧
  Sample._venn_dispatch [("A", {[1%Z]}); ("B", ∅)] DrawPseudovenn6 None
    (Some "{percentage}") true 13 (CmapId ()) (4 # 10) (Some "upper right") None
  = (Err NotImplementedError, None).
Proof.
  assert ("{percentage}" ≠ "{size}") as Hne by (intros Heq; discriminate Heq).
  split; [exact Hne|].
  apply (venn_dispatch_unsupported_fmt rgba unit no_format tuple_to_rgba
           gray_to_rgba id Sample.SHAPE_COORDS Sample.SHAPE_DIMS
           Sample.SHAPE_ANGLES Sample.PETAL_LABEL_COORDS
           Sample.PSEUDOVENN_PETAL_COORDS Sample.cos Sample.sin Sample.pi
           Sample.validate_arguments).
  exact Hne.
Defined.

(** With [hint_hidden] off the same template reaches the label computer. *)
Example venn_dispatch_fmt_without_hint :
  Sample._venn_dispatch [("A", {[1%Z]}); ("B", {[2%Z]})] DrawPseudovenn6 None
    (Some "{logic}") false 13 (CmapId ()) (4 # 10) None None
  = (Err NotImplementedError, Some [SetStyle]).
Proof. vm_compute. reflexivity. Qed.

(** ** Hidden counters of the pseudo-Venn diagram *)

(** The integer a label stands for, [0] if it is not one. *)
Definition label_size (label : string) : Z :=
  match PyInt.parse label with
  | Ok z => z
  | Err _ => 0%Z
  end.

(** [logic[i] == "1"] *)
Definition has_bit (i : nat) (logic : string) : bool :=
  match String.get i logic with
  | Some c => Ascii.eqb c "1"
  | None => false
  end.

Definition sumZ (l : list Z) : Z := foldr Z.add 0%Z l.

(** What an undisplayed code adds to the counter of set [i]. *)
Definition hidden_part (tbl : gmap string (Q * Q)) (i : nat)
    (item : string * string) : Z :=
  match tbl !! item.1 with
  | Some _ => 0%Z
  | None => if has_bit i item.1 then label_size item.2 else 0%Z
  end.

(** What a displayed code shows of set [i]. *)
Definition displayed_part (tbl : gmap string (Q * Q)) (i : nat)
    (item : string * string) : Z :=
  match tbl !! item.1 with
  | Some _ => if has_bit i item.1 then label_size item.2 else 0%Z
  | None => 0%Z
  end.

Lemma sumZ_cons {X} (f : X → Z) (x : X) (l : list X) :
  sumZ (f <$> x :: l) = (f x + sumZ (f <$> l))%Z.
Proof. reflexivity. Qed.

Lemma hidden_part_Some (tbl : gmap string (Q * Q)) (i : nat)
    (c l : string) (p : Q * Q) :
  tbl !! c = Some p → hidden_part tbl i (c, l) = 0%Z.
Proof. unfold hidden_part. simpl. by intros ->. Qed.

Lemma hidden_part_None (tbl : gmap string (Q * Q)) (i : nat) (c l : string) :
  tbl !! c = None →
  hidden_part tbl i (c, l) = if has_bit i c then label_size l else 0%Z.
Proof. unfold hidden_part. simpl. by intros ->. Qed.

Lemma has_bit_cons (j : nat) (c : ascii) (r : string) :
  has_bit (S j) (String c r) = has_bit j r.
Proof. reflexivity. Qed.

Lemma update_hidden_from_spec (i0 : nat) (chars : string) (hidden : list Z)
    (logic : string) (labels : Dict.t string) (label : string) (z : Z) :
  Dict.get logic labels = Some label → PyInt.parse label = Ok z →
  i0 + String.length chars ≤ length hidden →
  ∃ hidden',
    update_hidden_from i0 chars hidden logic labels = Ok hidden' ∧
    length hidden' = length hidden ∧
    ∀ j, hidden' !! j =
         (λ h, if decide (i0 ≤ j)
               then (if has_bit (j - i0) chars then h + z else h)%Z
               else h) <$> hidden !! j.
Proof.
  intros Hget Hparse. revert i0 hidden.
  induction chars as [|c r IH]; intros i0 hidden Hlen; simpl in Hlen.
  - exists hidden. split_and!; [done..|]. intros j.
    destruct (hidden !! j); simpl; [|done]. by destruct (decide _).
  - cbn [update_hidden_from]. destruct (Ascii.eqb c "1") eqn:Hc.
    + destruct (lookup_lt_is_Some_2 hidden i0) as [old Hold]; [lia|].
      rewrite Hold, Hget. result_steps. rewrite Hparse. result_steps.
      destruct (IH (S i0) (<[i0 := (old + z)%Z]> hidden)) as (hidden' & -> & Hl & Hj).
      { rewrite length_insert. lia. }
      exists hidden'. rewrite length_insert in Hl. split_and!; [done..|].
      intros j. rewrite Hj. destruct (decide (j = i0)) as [->|Hne].
      * rewrite list_lookup_insert_eq, Hold by lia. simpl.
        rewrite decide_False, decide_True by lia.
        rewrite Nat.sub_diag. unfold has_bit. simpl. by rewrite Hc.
      * rewrite list_lookup_insert_ne by done.
        destruct (hidden !! j) as [h|]; simpl; [|done]. f_equal.
        destruct (decide (S i0 ≤ j)).
        -- rewrite decide_True by lia.
           replace (j - i0) with (S (j - S i0)) by lia.
           by rewrite has_bit_cons.
        -- by rewrite decide_False by lia.
    + destruct (IH (S i0) hidden) as (hidden' & -> & Hl & Hj); [lia|].
      exists hidden'. split_and!; [done..|].
      intros j. rewrite Hj.
      destruct (hidden !! j) as [h|]; simpl; [|done]. f_equal.
      destruct (decide (S i0 ≤ j)).
      * rewrite decide_True by lia.
        replace (j - i0) with (S (j - S i0)) by lia.
        by rewrite has_bit_cons.
      * destruct (decide (i0 ≤ j)); [|done].
        assert (j = i0) as -> by lia. rewrite Nat.sub_diag.
        unfold has_bit. simpl. by rewrite Hc.
Qed.

Lemma update_hidden_spec (hidden : list Z) (logic : string)
    (labels : Dict.t string) (label : string) :
  Dict.get logic labels = Some label →
  PyInt.parse label = Ok (label_size label) →
  String.length logic ≤ length hidden →
  ∃ hidden',
    update_hidden hidden logic labels = Ok hidden' ∧
    length hidden' = length hidden ∧
    ∀ j, hidden' !! j =
         (λ h, h + (if has_bit j logic then label_size label else 0))%Z
           <$> hidden !! j.
Proof.
  intros Hget Hparse Hlen.
  destruct (update_hidden_from_spec 0 logic hidden logic labels label _
              Hget Hparse) as (hidden' & Hup & Hl & Hj); [lia|].
  exists hidden'. split_and!; [done..|]. intros j. rewrite Hj.
  destruct (hidden !! j) as [h|]; simpl; [|done]. f_equal.
  rewrite Nat.sub_0_r. destruct (has_bit j logic); lia.
Qed.

Lemma draw_bind_emit {color T} (c : call color) (k : unit → draw color T)
    (ax : axes color) :
  (emit c ≫= k) ax = k () (ax ++ [c]).
Proof. reflexivity. Qed.

Lemma draw_bind_run {color X T} (m : draw color X) (k : X → draw color T)
    (ax ax' : axes color) (v : X) :
  m ax = (Ok v, ax') → (m ≫= k) ax = k v ax'.
Proof. intros Hm. unfold mbind, draw_bind. by rewrite Hm. Qed.

Section HiddenLoop.

Variable color : Type.
Variable PSEUDOVENN_PETAL_COORDS : gmap nat (gmap string (Q * Q)).

#[local] Abbreviation petals_loop :=
  (pseudovenn_petals color PSEUDOVENN_PETAL_COORDS).

Lemma pseudovenn_petals_spec (tbl : gmap string (Q * Q)) (size : Q)
    (labels : Dict.t string) (items : list (string * string))
    (hidden : list Z) (ax : axes color) :
  PSEUDOVENN_PETAL_COORDS !! 6 = Some tbl →
  (∀ c l, (c, l) ∈ items →
     Dict.get c labels = Some l ∧ PyInt.parse l = Ok (label_size l) ∧
     String.length c ≤ length hidden) →
  ∃ hidden' new,
    petals_loop true size labels items hidden ax = (Ok hidden', ax ++ new) ∧
    length hidden' = length hidden ∧
    ∀ j, hidden' !! j =
         (λ h, h + sumZ (hidden_part tbl j <$> items))%Z <$> hidden !! j.
Proof.
  intros Htbl. revert hidden ax.
  induction items as [|[c l] items IH]; intros hidden ax Hitems.
  - exists hidden, []. rewrite app_nil_r. split_and!; [done..|].
    intros j. destruct (hidden !! j) as [h|]; simpl; [|done].
    f_equal. unfold sumZ. simpl. lia.
  - cbn [pseudovenn_petals]. unfold table_get. rewrite Htbl.
    rewrite draw_bind_lift_Ok.
    assert (∀ hidden1 : list Z, length hidden1 = length hidden →
              ∀ c' l', (c', l') ∈ items →
                Dict.get c' labels = Some l' ∧
                PyInt.parse l' = Ok (label_size l') ∧
                String.length c' ≤ length hidden1) as Hrest.
    { intros hidden1 Hl c' l' Hin. rewrite Hl. apply Hitems. by right. }
    destruct (tbl !! c) as [[x y]|] eqn:Hc.
    + rewrite draw_bind_emit.
      destruct (IH hidden (ax ++ [AxText x y l size]) (Hrest hidden eq_refl))
        as (hidden' & new & -> & Hl & Hj).
      exists hidden', (AxText x y l size :: new).
      rewrite <- app_assoc. split_and!; [done..|].
      intros j. rewrite Hj, sumZ_cons, (hidden_part_Some _ _ _ _ _ Hc).
      destruct (hidden !! j) as [h|]; simpl; [|done]. done.
    + destruct (Hitems c l) as (Hget & Hparse & Hlen); [by left|].
      destruct (update_hidden_spec hidden c labels l Hget Hparse Hlen)
        as (hidden1 & Hup & Hl1 & Hj1).
      rewrite Hup, draw_bind_lift_Ok.
      destruct (IH hidden1 ax (Hrest hidden1 Hl1)) as (hidden' & new & -> & Hl & Hj).
      exists hidden', new. split_and!; [done|congruence|].
      intros j. rewrite Hj, Hj1, sumZ_cons, (hidden_part_None _ _ _ _ Hc).
      destruct (hidden !! j) as [h|]; simpl; [|done]. f_equal. lia.
Qed.

End HiddenLoop.

Lemma dict_get_NoDup {V} (d : Dict.t V) (k : string) (v : V) :
  NoDup (Dict.keys d) → (k, v) ∈ d → Dict.get k d = Some v.
Proof.
  unfold Dict.keys. induction d as [|[k' v'] d IH]; simpl.
  - by intros _ ?%elem_of_nil.
  - intros [Hk Hnd]%NoDup_cons [Heq|Hin]%elem_of_cons.
    + injection Heq as -> ->. by rewrite String.eqb_refl.
    + destruct (String.eqb_spec k k') as [->|_]; [|by apply IH].
      destruct Hk. apply list_elem_of_fmap. by exists (k', v).
Qed.

Lemma sum_parts (tbl : gmap string (Q * Q)) (i : nat)
    (items : list (string * string)) :
  (sumZ (hidden_part tbl i <$> items) + sumZ (displayed_part tbl i <$> items))%Z
  = sumZ ((λ kv, if has_bit i kv.1 then label_size kv.2 else 0%Z) <$> items).
Proof.
  induction items as [|[c l] items IH]; [done|].
  rewrite !sumZ_cons, <- IH. unfold hidden_part at 1, displayed_part at 1.
  simpl. destruct (tbl !! c); lia.
Qed.

Section HiddenClaims.

Context `{Countable A}.
Variable color : Type.
Variable format_other : string -> fields -> result string.
Variable PSEUDOVENN_PETAL_COORDS : gmap nat (gmap string (Q * Q)).
Implicit Types (datasets : list (gset A)) (U S P : gset A).

(** A key of the default mapping with its label. *)
Definition labelled datasets U (c : string) (kv : string * string) : Prop :=
  kv.1 = c ∧ is_logic_code (length datasets) c ∧
  ∃ P, (∀ x, x ∈ P ↔ in_petal_spec datasets U c x) ∧
       kv.2 = PyStr.of_nat (size P).

Lemma default_labelled datasets U (labels : Dict.t string) :
  set_union datasets = Ok U → U ≠ ∅ →
  generate_petal_labels format_other datasets "{size}" = Ok labels →
  Forall2 (labelled datasets U) (logic_codes (length datasets)) labels.
Proof.
  intros HU Hne Hl%(generate_petal_labels_Ok _ _ _ U); [|done].
  assert (∀ c, c ∈ logic_codes (length datasets) →
               is_logic_code (length datasets) c) as Hcodes
    by (by intros c ?%logic_codes_elem).
  revert Hl Hcodes. generalize (logic_codes (length datasets)).
  intros codes Hl. induction Hl as [|c [k v] codes labels [Hk Hv] Hl IH];
    intros Hcodes; constructor.
  - assert (is_logic_code (length datasets) c) as Hc by (apply Hcodes; by left).
    split_and!; [done..|].
    destruct (petal_set_code datasets U c Hc) as (P & HP & Hspec).
    exists P. split; [done|].
    rewrite (petal_label_default _ _ _ _ P HP (size_nonempty U Hne)) in Hv.
    by injection Hv as <-.
  - apply IH. intros c' ?. apply Hcodes. by right.
Qed.

Lemma labelled_sum datasets U (b : string → bool) (codes : list string)
    (labels : Dict.t string) :
  NoDup codes → Forall2 (labelled datasets U) codes labels →
  sumZ ((λ kv, if b kv.1 then label_size kv.2 else 0%Z) <$> labels) =
  Z.of_nat (size (filter
    (λ x, code_of_bits (signature x datasets) ∈ codes ∧
          b (code_of_bits (signature x datasets)) = true) U)).
Proof.
  intros Hnd Hall.
  induction Hall as [|c [k v] codes labels (Hk & Hc & P & HP & Hv) Hall IH].
  - replace (filter _ U) with (∅ : gset A); [done|].
    symmetry. apply set_eq. intros x. rewrite elem_of_filter.
    split; [by intros [[?%elem_of_nil _] _] | by intros ?%elem_of_empty].
  - simpl in Hk, Hv. subst k v. apply NoDup_cons in Hnd as [Hnin Hnd].
    rewrite sumZ_cons, (IH Hnd). cbn [fst snd].
    apply is_logic_code_bits in Hc as (l & -> & Hlen & _).
    assert (∀ x, x ∈ P ↔
              x ∈ U ∧ code_of_bits (signature x datasets) = code_of_bits l) as HP'.
    { intros x. rewrite HP, in_petal_signature by done.
      split; intros [? ?]; split; try done; [by f_equal|].
      by apply code_of_bits_inj. }
    unfold label_size. rewrite parse_of_nat.
    destruct (b (code_of_bits l)) eqn:Hb.
    + rewrite <- Nat2Z.inj_add, <- size_union.
      * do 2 f_equal. apply set_eq. intros x.
        rewrite elem_of_union, !elem_of_filter, HP', elem_of_cons.
        split; [|tauto].
        intros [[? Heq]|?]; [|tauto]. rewrite Heq. tauto.
      * intros x [_ Hx]%HP' [[Hx' _] _]%elem_of_filter. congruence.
    + rewrite Z.add_0_l. do 2 f_equal. apply set_eq. intros x.
      rewrite !elem_of_filter, elem_of_cons. split; [tauto|].
      intros [[[Heq|?] Hbx] ?]; [|tauto]. congruence.
Qed.

Lemma labelled_items datasets U (codes : list string) (labels : Dict.t string)
    (c l : string) :
  NoDup codes → Forall2 (labelled datasets U) codes labels → (c, l) ∈ labels →
  Dict.get c labels = Some l ∧ PyInt.parse l = Ok (label_size l) ∧
  String.length c = length datasets.
Proof.
  intros Hnd Hall Hin.
  assert (Dict.keys labels = codes) as Hkeys.
  { unfold Dict.keys. clear -Hall.
    induction Hall as [|c k codes labels (Hk & _) Hall IH]; [done|].
    by rewrite fmap_cons, IH, Hk. }
  split; [apply dict_get_NoDup; [by rewrite Hkeys | done]|].
  apply list_elem_of_lookup_1 in Hin as [i Hi].
  destruct (Forall2_lookup_r _ _ _ _ _ Hall Hi)
    as (c' & _ & Hk & Hc & P & _ & Hv).
  simpl in Hk, Hv. subst c' l. split.
  - unfold label_size. by rewrite parse_of_nat.
  - by destruct Hc as [? _].
Qed.

Lemma generate_petal_labels_universe datasets (fmt : string)
    (labels : Dict.t string) :
  datasets ≠ [] →
  generate_petal_labels format_other datasets fmt = Ok labels →
  ∃ U, set_union datasets = Ok U ∧ U ≠ ∅.
Proof.
  intros Hds Hl. destruct (set_union datasets) as [U|e] eqn:HU.
  2: { unfold generate_petal_labels in Hl. by rewrite HU in Hl. }
  exists U. split; [done|]. intros ->.
  apply (generate_petal_labels_Ok _ _ _ ∅ _ HU) in Hl.
  destruct (logic_codes (length datasets)) as [|c codes] eqn:Hc.
  { apply (f_equal length) in Hc. rewrite logic_codes_length in Hc.
    assert (2 ^ 1 ≤ 2 ^ length datasets).
    { apply Nat.pow_le_mono_r; [lia|]. destruct datasets; [done | simpl; lia]. }
    simpl in *. lia. }
  apply Forall2_cons_inv_l in Hl as (kv & labels' & [_ Hkv] & _ & _).
  assert (is_logic_code (length datasets) c) as Hcode.
  { apply logic_codes_elem. rewrite Hc. by left. }
  destruct (petal_set_code datasets ∅ c Hcode) as (P & HP & _).
  unfold petal_label, petal_fields in Hkv. rewrite HP in Hkv.
  unfold mbind, result_bind in Hkv. cbv beta iota in Hkv.
  by rewrite size_empty in Hkv.
Qed.

Lemma petals_with_bit datasets U (i : nat) S :
  set_union datasets = Ok U → datasets !! i = Some S →
  filter (λ x, code_of_bits (signature x datasets) ∈ logic_codes (length datasets) ∧
               has_bit i (code_of_bits (signature x datasets)) = true) U = S.
Proof.
  intros HU HS. apply set_eq. intros x. rewrite elem_of_filter.
  unfold has_bit, signature. rewrite code_of_bits_get, list_lookup_fmap, HS.
  simpl. split.
  - intros [[_ Hb] _]. apply Ascii.eqb_eq, bit_char_one in Hb.
    by apply bool_decide_eq_true in Hb.
  - intros Hx.
    assert (x ∈ U) as HxU.
    { apply (set_union_elem _ _ x HU). exists S.
      split; [by eapply list_elem_of_lookup_2 | done]. }
    split_and!; [by eapply signature_code| |done].
    by rewrite bool_decide_eq_true_2.
Qed.

(** For six sets whose labels come from the default template, the label
    loop of [draw_pseudovenn6], run with [hint_hidden] on and the counters
    at zero, ends with six counters; and for every set, its counter plus
    the sizes of the displayed codes (those in the pseudo-Venn position
    table) that hold the set's bit equals the cardinality of the set. *)
Lemma hidden_counters_accounting datasets (labels : Dict.t string)
    (tbl : gmap string (Q * Q)) (kw : kwargs color) (ax : axes color) :
  length datasets = 6 →
  generate_petal_labels format_other datasets "{size}" = Ok labels →
  PSEUDOVENN_PETAL_COORDS !! 6 = Some tbl →
  petal_labels kw = labels → hint_hidden kw = true →
  ∃ (hidden : list Z) (new : list (call color)),
    pseudovenn_petals color PSEUDOVENN_PETAL_COORDS (hint_hidden kw)
      (fontsize kw) (petal_labels kw) (petal_labels kw)
      (if hint_hidden kw then replicate 6 0%Z else []) ax
    = (Ok hidden, ax ++ new) ∧
    length hidden = 6 ∧
    ∀ i S, datasets !! i = Some S →
      ∃ h, hidden !! i = Some h ∧
           (h + sumZ (displayed_part tbl i <$> labels))%Z = Z.of_nat (size S).
Proof.
  intros Hlen Hl Htbl -> ->.
  destruct (generate_petal_labels_universe datasets "{size}" labels)
    as (U & HU & Hne);
    [by destruct datasets | done |].
  pose proof (default_labelled datasets U labels HU Hne Hl) as Hall.
  pose proof (logic_codes_NoDup (length datasets)) as Hnd.
  destruct (pseudovenn_petals_spec color PSEUDOVENN_PETAL_COORDS tbl
              (fontsize kw) labels labels (replicate 6 0%Z) ax Htbl)
    as (hidden & new & Hrun & Hsix & Hj).
  { intros c l Hin.
    destruct (labelled_items datasets U _ labels c l Hnd Hall Hin)
      as (? & ? & Hc).
    split_and!; [done..|]. rewrite length_replicate. lia. }
  exists hidden, new. rewrite length_replicate in Hsix. split_and!; [done..|].
  intros i S HS.
  assert (i < 6) as Hi by (apply lookup_lt_Some in HS; lia).
  exists (0 + sumZ (hidden_part tbl i <$> labels))%Z. split.
  - by rewrite Hj, lookup_replicate_2.
  - rewrite Z.add_0_l, sum_parts.
    rewrite (labelled_sum datasets U (has_bit i) _ labels Hnd Hall).
    by rewrite (petals_with_bit datasets U i S HU HS).
Qed.

End HiddenClaims.

(** *** Six sets, run through the pseudo-Venn composer *)

Module Six.

(** [0] is in every set, [7] in the first only, and each of [1..6] in two
    neighbours. *)
Definition sets : list (gset Z) :=
  [{[0; 1; 2; 7]}; {[0; 2; 3]}; {[0; 3; 4]}; {[0; 4; 5]}; {[0; 5; 6]};
   {[0; 6; 1]}]%Z.

Definition labels : Dict.t string :=
  Eval vm_compute in
    match generate_petal_labels no_format sets "{size}" with
    | Ok l => l
    | Err _ => []
    end.

Definition table : gmap string (Q * Q) :=
  {["100000" := (1 # 2, 8 # 10); "111111" := (1 # 2, 1 # 2)]}.

Definition colors6 : list rgba :=
  (λ k, RGBA (inject_Z (Z.of_nat k) / 5) 0 0 (4 # 10)) <$> seq 0 6.

Definition kw : kwargs rgba :=
  Kwargs labels ["A"; "B"; "C"; "D"; "E"; "F"] true colors6 13 None.

(** The strings written on the axes, in order. *)
Definition texts (ax : axes rgba) : list string :=
  omap (λ c, match c with AxText _ _ s _ => Some s | _ => None end) ax.

End Six.

Example six_labels_generated :
  generate_petal_labels no_format Six.sets "{size}" = Ok Six.labels ∧
  length Six.labels = 63 ∧
  Dict.get "100000" Six.labels = Some "1" ∧
  Dict.get "110000" Six.labels = Some "1" ∧
  Dict.get "111111" Six.labels = Some "1" ∧
  Dict.get "101010" Six.labels = Some "0".
Proof. vm_compute. repeat split. Qed.

Example six_table : Sample.PSEUDOVENN_PETAL_COORDS !! 6 = Some Six.table.
Proof. reflexivity. Qed.

(** The whole composer on the six sets: two labels are displayed, and the
    counters [2, 2, 2, 2, 2, 2] are written as hints. *)
Example draw_pseudovenn6_six :
  let '(r, ax) := Sample.draw_pseudovenn6 Six.kw None in
  r = Ok () ∧
  length (filter (λ c, is_ellipse c = true) ax) = 6 ∧
  Six.texts ax =
    ["1"; "1";
     "2" +:+ newline +:+ " n/d*"; "2" +:+ newline +:+ " n/d*";
     "2" +:+ newline +:+ " n/d*"; "2" +:+ newline +:+ " n/d*";
     "2" +:+ newline +:+ " n/d*"; "2" +:+ newline +:+ " n/d*";
     "* elements of set in intersections that are not displayed," +:+
       newline +:+ "such as shared only between A and D"].
Proof. vm_compute. repeat split. Qed.

(** * Further properties *)

(** ** More on the petals *)

Lemma get_lt (s : string) (i : nat) (c : ascii) :
  String.get i s = Some c → i < String.length s.
Proof.
  revert i; induction s as [|a s IH]; intros [|i]; simpl; try done; [lia|].
  intros ?%IH. lia.
Qed.

Section MorePetals.

Context `{Countable A}.
Variable format_other : string -> fields -> result string.
Implicit Types (datasets : list (gset A)) (U S P : gset A).

Lemma petal_set_signature datasets U (logic : string) P x :
  is_logic_code (length datasets) logic →
  petal_set datasets U logic = Ok P →
  x ∈ P ↔ x ∈ U ∧ code_of_bits (signature x datasets) = logic.
Proof.
  intros Hcode HP.
  destruct (petal_set_code datasets U logic Hcode) as (P' & HP' & Hspec).
  assert (P' = P) as -> by congruence.
  apply is_logic_code_bits in Hcode as (l & -> & Hlen & _).
  rewrite Hspec, in_petal_signature by done.
  split; intros [? ?]; split; try done; [by f_equal | by apply code_of_bits_inj].
Qed.

Lemma default_label_lookup datasets U (labels : Dict.t string)
    (logic : string) P :
  set_union datasets = Ok U → U ≠ ∅ →
  generate_petal_labels format_other datasets "{size}" = Ok labels →
  is_logic_code (length datasets) logic →
  petal_set datasets U logic = Ok P →
  Dict.get logic labels = Some (PyStr.of_nat (size P)).
Proof.
  intros HU Hne Hl Hcode HP.
  apply (generate_petal_labels_Ok _ _ _ U _ HU) in Hl.
  destruct (dict_get_Forall2
              (λ c v, petal_label format_other datasets U "{size}" c = Ok v)
              _ _ logic Hl) as (label & Hget & Hlabel).
  { by apply logic_codes_elem. }
  rewrite (petal_label_default _ _ _ _ P HP (size_nonempty U Hne)) in Hlabel.
  by injection Hlabel as <-.
Qed.

(** The petals of two different codes share no element, and every petal
    lies inside the universe. *)
Theorem petals_disjoint datasets U (c1 c2 : string) (P1 P2 : gset A) :
  is_logic_code (length datasets) c1 →
  is_logic_code (length datasets) c2 →
  c1 ≠ c2 →
  petal_set datasets U c1 = Ok P1 →
  petal_set datasets U c2 = Ok P2 →
  P1 ## P2 ∧ P1 ⊆ U ∧ P2 ⊆ U.
Proof.
  intros H1 H2 Hne HP1 HP2. split_and!.
  - intros x Hx1 Hx2.
    apply (petal_set_signature datasets U c1 P1 x H1 HP1) in Hx1 as [_ Hx1].
    apply (petal_set_signature datasets U c2 P2 x H2 HP2) in Hx2 as [_ Hx2].
    congruence.
  - intros x Hx. by apply (petal_set_signature datasets U c1 P1 x H1 HP1) in Hx as [? _].
  - intros x Hx. by apply (petal_set_signature datasets U c2 P2 x H2 HP2) in Hx as [? _].
Qed.

(** For sets that are pairwise disjoint, a code that includes two sets has
    an empty petal, and its default label is ["0"]. *)
Theorem disjoint_sets_petal datasets U (logic : string) (i j : nat) P
    (labels : Dict.t string) :
  (∀ i j Si Sj, i ≠ j → datasets !! i = Some Si → datasets !! j = Some Sj →
     Si ## Sj) →
  set_union datasets = Ok U →
  is_logic_code (length datasets) logic →
  i ≠ j →
  String.get i logic = Some "1"%char → String.get j logic = Some "1"%char →
  petal_set datasets U logic = Ok P →
  generate_petal_labels format_other datasets "{size}" = Ok labels →
  P = ∅ ∧ Dict.get logic labels = Some "0".
Proof.
  intros Hdisj HU Hcode Hij Hi Hj HP Hl.
  assert (P = ∅) as ->.
  { apply set_eq. intros x. split; [|by intros ?%elem_of_empty]. intros Hx.
    destruct (petal_set_code datasets U logic Hcode) as (P' & HP' & Hspec).
    assert (P' = P) as -> by congruence.
    apply Hspec in Hx as [_ Hall].
    assert (i < length datasets ∧ j < length datasets) as [Hil Hjl].
    { destruct Hcode as (Hlen & _). rewrite <- Hlen.
      split; by eapply get_lt. }
    destruct (lookup_lt_is_Some_2 datasets i Hil) as [Si HSi].
    destruct (lookup_lt_is_Some_2 datasets j Hjl) as [Sj HSj].
    destruct (Hall i Si HSi) as [Hxi _]. destruct (Hall j Sj HSj) as [Hxj _].
    exfalso. by apply (Hdisj i j Si Sj Hij HSi HSj x); [apply Hxi | apply Hxj]. }
  split; [done|].
  destruct (decide (U = ∅)) as [->|Hne].
  - destruct (generate_petal_labels_universe format_other datasets "{size}" labels)
      as (U' & HU' & Hne'); [by intros -> | done |]. congruence.
  - by rewrite (default_label_lookup datasets U labels logic ∅ HU Hne Hl Hcode HP).
Qed.

End MorePetals.

Section MorePetalSums.

Context `{Countable A}.
Variable format_other : string -> fields -> result string.
Implicit Types (datasets : list (gset A)) (U S P : gset A).

Lemma signature_replicate (x : A) S (n : nat) :
  signature x (replicate n S) = replicate n (bool_decide (x ∈ S)).
Proof. unfold signature. by rewrite fmap_replicate. Qed.

Lemma set_union_replicate S (n : nat) U :
  set_union (replicate n S) = Ok U → U = S.
Proof.
  intros HU. apply set_eq. intros x. rewrite (set_union_elem _ _ x HU). split.
  - by intros (T & [-> _]%elem_of_replicate & ?).
  - intros Hx. exists S. split; [|done]. apply elem_of_replicate.
    split; [done|]. by destruct n.
Qed.

(** For [n] copies of one set, the code of all ones has the whole set as
    its petal and every other code an empty petal. *)
Theorem identical_sets_petal S (n : nat) U (logic : string) P :
  set_union (replicate n S) = Ok U →
  is_logic_code n logic →
  petal_set (replicate n S) U logic = Ok P →
  (logic = code_of_bits (replicate n true) → P = S) ∧
  (logic ≠ code_of_bits (replicate n true) → P = ∅).
Proof.
  intros HU Hcode HP. pose proof (set_union_replicate S n U HU) as ->.
  assert (∀ x, x ∈ P ↔
            x ∈ S ∧ code_of_bits (replicate n (bool_decide (x ∈ S))) = logic) as Hx.
  { intros x. rewrite <- signature_replicate.
    apply petal_set_signature; [by rewrite length_replicate | done]. }
  split.
  - intros ->. apply set_eq. intros x. rewrite Hx. split; [by intros [? _]|].
    intros Hin. split; [done|]. by rewrite bool_decide_eq_true_2.
  - intros Hne. apply set_eq. intros x. rewrite Hx.
    split; [|by intros ?%elem_of_empty]. intros [Hin Heq].
    by rewrite bool_decide_eq_true_2 in Heq.
Qed.

(** With the default template, the labels of the codes that include set
    [i], read as integers, add up to the cardinality of set [i], for any
    number of sets. *)
Theorem set_size_from_labels datasets (labels : Dict.t string) (i : nat) S :
  generate_petal_labels format_other datasets "{size}" = Ok labels →
  datasets !! i = Some S →
  sumZ ((λ kv, if has_bit i kv.1 then label_size kv.2 else 0%Z) <$> labels)
  = Z.of_nat (size S).
Proof.
  intros Hl HS.
  destruct (generate_petal_labels_universe format_other datasets "{size}" labels)
    as (U & HU & Hne); [by intros -> | done |].
  pose proof (default_labelled format_other datasets U labels HU Hne Hl) as Hall.
  rewrite (labelled_sum datasets U (has_bit i) _ labels
             (logic_codes_NoDup _) Hall).
  by rewrite (petals_with_bit datasets U i S HU HS).
Qed.

(** With a non-empty union, the only way to fail is the template: an error
    of [generate_petal_labels] is the error [str.format] raised on the
    fields of some code. *)
Theorem errors_come_from_template datasets U (fmt : string) (e : exn) :
  set_union datasets = Ok U → U ≠ ∅ →
  generate_petal_labels format_other datasets fmt = Err e →
  ∃ (c : string) P (q : Q),
    is_logic_code (length datasets) c ∧
    petal_set datasets U c = Ok P ∧
    truediv (100 * size P) (size U) = Ok q ∧
    str_format format_other fmt (Fields c (size P) q) = Err e.
Proof.
  intros HU Hne. rewrite generate_petal_labels_eq, HU. result_steps.
  intros (c & Hc%logic_codes_elem & Herr)%map_result_Err.
  destruct (petal_set_code datasets U c Hc) as (P & HP & _).
  destruct (truediv_Ok (100 * size P) (size U) (size_nonempty U Hne))
    as (q & Hq & _).
  exists c, P, q. split_and!; [done..|].
  unfold petal_label, petal_fields in Herr. rewrite HP in Herr.
  unfold mbind, result_bind in Herr. cbv beta iota in Herr.
  rewrite Hq in Herr.
  destruct (str_format format_other fmt _) as [lbl|e']; [done|].
  by injection Herr as ->.
Qed.

End MorePetalSums.

Lemma petals_disjoint_witness :
  (is_logic_code (length sets_ab) "10" ∧ is_logic_code (length sets_ab) "11" ∧
   "10" ≠ "11" ∧
   petal_set sets_ab union_ab "10" = Ok {[1%Z]} ∧
   petal_set sets_ab union_ab "11" = Ok {[2%Z; 3%Z]}) ∧
  ({[1%Z]} : gset Z) ## {[2%Z; 3%Z]} ∧
  ({[1%Z]} : gset Z) ⊆ union_ab ∧ ({[2%Z; 3%Z]} : gset Z) ⊆ union_ab.
Proof.
  assert (is_logic_code (length sets_ab) "10") as H1.
  { split; [reflexivity|]. split; [reflexivity|]. exists 0. reflexivity. }
  assert (is_logic_code (length sets_ab) "11") as H2.
  { split; [reflexivity|]. split; [reflexivity|]. exists 0. reflexivity. }
  assert ("10" ≠ "11") as Hne by (intros Heq; discriminate Heq).
  assert (petal_set sets_ab union_ab "10" = Ok {[1%Z]}) as HP1
    by (vm_compute; reflexivity).
  assert (petal_set sets_ab union_ab "11" = Ok {[2%Z; 3%Z]}) as HP2
    by (vm_compute; reflexivity).
  split; [exact (conj H1 (conj H2 (conj Hne (conj HP1 HP2))))|].
  exact (petals_disjoint sets_ab union_ab "10" "11" _ _ H1 H2 Hne HP1 HP2).
Defined.

(** Three sets without a common element. *)
Definition sets_apart : list (gset Z) := [{[1; 2]}; {[3]}; {[4; 5]}]%Z.

Lemma sets_apart_disjoint (i j : nat) (Si Sj : gset Z) :
  i ≠ j → sets_apart !! i = Some Si → sets_apart !! j = Some Sj → Si ## Sj.
Proof.
  intros Hij Hi Hj.
  destruct i as [|[|[|i]]]; destruct j as [|[|[|j]]];
    try discriminate Hi; try discriminate Hj; try (by destruct Hij);
    injection Hi as <-; injection Hj as <-;
    apply (bool_decide_unpack _); vm_compute; exact I.
Defined.

Lemma disjoint_sets_petal_witness :
  let U : gset Z := ({[1; 2]} ∪ {[3]} ∪ {[4; 5]})%Z in
  let labels := [("001", "2"); ("010", "1"); ("011", "0"); ("100", "2");
                 ("101", "0"); ("110", "0"); ("111", "0")] in
  (set_union sets_apart = Ok U ∧
   is_logic_code (length sets_apart) "110" ∧ 0 ≠ 1 ∧
   String.get 0 "110" = Some "1"%char ∧ String.get 1 "110" = Some "1"%char ∧
   petal_set sets_apart U "110" = Ok ∅ ∧
   generate_petal_labels no_format sets_apart "{size}" = Ok labels) ∧
  (∅ : gset Z) = ∅ ∧ Dict.get "110" labels = Some "0".
Proof.
  intros U labels.
  assert (is_logic_code (length sets_apart) "110") as Hcode.
  { split; [reflexivity|]. split; [reflexivity|]. exists 0. reflexivity. }
  assert (petal_set sets_apart U "110" = Ok ∅) as HP by (vm_compute; reflexivity).
  assert (generate_petal_labels no_format sets_apart "{size}" = Ok labels) as Hl
    by (vm_compute; reflexivity).
  split.
  - split; [reflexivity|]. split; [exact Hcode|]. split; [lia|].
    split; [reflexivity|]. split; [reflexivity|]. split; [exact HP | exact Hl].
  - apply (disjoint_sets_petal no_format sets_apart U "110" 0 1 ∅ labels).
    + exact sets_apart_disjoint.
    + reflexivity.
    + exact Hcode.
    + lia.
    + reflexivity.
    + reflexivity.
    + exact HP.
    + exact Hl.
Defined.

Lemma identical_sets_petal_witness :
  let S : gset Z := {[1; 2]}%Z in
  (set_union (replicate 2 S) = Ok (S ∪ S) ∧ is_logic_code 2 "10" ∧
   petal_set (replicate 2 S) (S ∪ S) "10" = Ok ∅) ∧
  ("10" = code_of_bits (replicate 2 true) → (∅ : gset Z) = S) ∧
  ("10" ≠ code_of_bits (replicate 2 true) → (∅ : gset Z) = ∅).
Proof.
  intros S.
  assert (is_logic_code 2 "10") as Hcode.
  { split; [reflexivity|]. split; [reflexivity|]. exists 0. reflexivity. }
  assert (petal_set (replicate 2 S) (S ∪ S) "10" = Ok ∅) as HP
    by (vm_compute; reflexivity).
  split.
  - split; [reflexivity|]. split; [exact Hcode | exact HP].
  - apply (identical_sets_petal S 2 (S ∪ S) "10" ∅).
    + reflexivity.
    + exact Hcode.
    + exact HP.
Defined.

Lemma set_size_from_labels_witness :
  let labels := [("01", "1"); ("10", "1"); ("11", "2")] in
  (generate_petal_labels no_format sets_ab "{size}" = Ok labels ∧
   sets_ab !! 0 = Some ({[1; 2; 3]}%Z : gset Z)) ∧
  sumZ ((λ kv, if has_bit 0 kv.1 then label_size kv.2 else 0%Z) <$> labels)
  = Z.of_nat (size ({[1; 2; 3]}%Z : gset Z)).
Proof.
  intros labels.
  assert (generate_petal_labels no_format sets_ab "{size}" = Ok labels) as Hl
    by (vm_compute; reflexivity).
  split.
  - split; [exact Hl | reflexivity].
  - apply (set_size_from_labels no_format sets_ab labels 0 {[1; 2; 3]}%Z).
    + exact Hl.
    + reflexivity.
Defined.

(** [str.format] on the template ["{foo}"]: the call passes no field of
    that name, and the lookup raises [KeyError].  No other template is
    handed to this stand-in. *)
Definition format_foo (fmt : string) (f : fields) : result string :=
  if String.eqb fmt "{foo}" then Err KeyError else no_format fmt f.

Lemma errors_come_from_template_witness :
  (set_union sets_ab = Ok union_ab ∧ union_ab ≠ ∅ ∧
   generate_petal_labels format_foo sets_ab "{foo}" = Err KeyError) ∧
  ∃ (c : string) (P : gset Z) (q : Q),
    is_logic_code (length sets_ab) c ∧
    petal_set sets_ab union_ab c = Ok P ∧
    truediv (100 * size P) (size union_ab) = Ok q ∧
    str_format format_foo "{foo}" (Fields c (size P) q) = Err KeyError.
Proof.
  assert (generate_petal_labels format_foo sets_ab "{foo}" = Err KeyError)
    as Hl by (vm_compute; reflexivity).
  split.
  - split; [reflexivity|]. split; [exact union_ab_nonempty | exact Hl].
  - apply (errors_come_from_template format_foo sets_ab union_ab
             "{foo}" KeyError).
    + reflexivity.
    + exact union_ab_nonempty.
    + exact Hl.
Defined.

(** ** More on the consistency checker *)

Lemma check_keys_good (n_sets : nat) (keys : list string) :
  (∀ k, k ∈ keys → String.length k = n_sets ∧ PyStr.binary k = true) →
  check_keys n_sets keys = Ok ().
Proof.
  induction keys as [|k keys IH]; intros Hkeys; simpl; [done|].
  destruct (Hkeys k) as [Hlen Hbin]; [by left|].
  rewrite Hlen, Nat.eqb_refl, Hbin. simpl. apply IH.
  intros k' ?. apply Hkeys. by right.
Qed.

Lemma check_keys_app (n_sets : nat) (l1 l2 : list string) :
  (∀ k, k ∈ l1 → ¬ bad_key n_sets k) →
  check_keys n_sets (l1 ++ l2) = check_keys n_sets l2.
Proof.
  induction l1 as [|k l1 IH]; intros Hgood; [done|].
  rewrite <- app_comm_cons. cbn [check_keys].
  assert (¬ bad_key n_sets k) as Hk by (apply Hgood; by left).
  destruct (String.length k =? n_sets) eqn:Hlen.
  - destruct (PyStr.binary k) eqn:Hbin.
    + simpl. apply IH. intros k' ?. apply Hgood. by right.
    + destruct Hk. right. by apply binary_false.
  - destruct Hk. left. by apply Nat.eqb_neq.
Qed.

(** The first offending key, in the order of the mapping, decides the
    error: [ValueError] if its length is wrong (whatever its characters),
    [KeyError] if its length is right and a character is not a bit. *)
Theorem get_n_sets_first_bad {V} (petal_labels : Dict.t V)
    (dataset_labels : list string) (l1 l2 : list string) (k : string) :
  Dict.keys petal_labels = l1 ++ k :: l2 →
  (∀ k', k' ∈ l1 → ¬ bad_key (length dataset_labels) k') →
  bad_key (length dataset_labels) k →
  get_n_sets petal_labels dataset_labels =
  if decide (String.length k = length dataset_labels)
  then Err KeyError else Err ValueError.
Proof.
  intros Hkeys Hgood Hbad. unfold get_n_sets.
  rewrite Hkeys, check_keys_app by done. cbn [check_keys].
  destruct (decide _) as [Hlen|Hlen].
  - rewrite Hlen, Nat.eqb_refl. simpl.
    destruct Hbad as [?|Hbad%binary_false]; [done|]. by rewrite Hbad.
  - apply Nat.eqb_neq in Hlen. by rewrite Hlen.
Qed.

Section CheckGenerated.

Context `{Countable A}.
Variable format_other : string -> fields -> result string.

(** The mapping returned for [N] sets passes the check against [N] dataset
    labels, and fails it with [ValueError] against any other number. *)
Theorem get_n_sets_generated (datasets : list (gset A)) (fmt : string)
    (labels : Dict.t string) (dataset_labels : list string) :
  generate_petal_labels format_other datasets fmt = Ok labels →
  get_n_sets labels dataset_labels =
  if decide (length dataset_labels = length datasets)
  then Ok (length datasets) else Err ValueError.
Proof.
  intros Hl. pose proof (generate_petal_labels_keys _ _ _ _ Hl) as Hkeys.
  unfold get_n_sets. rewrite Hkeys. destruct (decide _) as [Hn|Hn].
  - rewrite Hn, check_keys_good; [done|].
    by intros k (? & ? & _)%logic_codes_elem.
  - destruct (logic_codes (length datasets)) as [|c codes] eqn:Hc.
    + apply (f_equal length) in Hc. rewrite logic_codes_length in Hc.
      assert (datasets ≠ []) as Hds.
      { intros ->. by vm_compute in Hl. }
      assert (2 ^ 1 ≤ 2 ^ length datasets).
      { apply Nat.pow_le_mono_r; [lia|]. destruct datasets; [done | simpl; lia]. }
      simpl in *. lia.
    + assert (String.length c = length datasets) as Hlen.
      { assert (is_logic_code (length datasets) c) as [? _]; [|done].
        apply logic_codes_elem. rewrite Hc. by left. }
      cbn [check_keys]. rewrite Hlen.
      assert ((length datasets =? length dataset_labels) = false) as ->
        by (apply Nat.eqb_neq; lia).
      done.
Qed.

End CheckGenerated.

Lemma get_n_sets_first_bad_witness :
  let labels : Dict.t string := [("10", "a"); ("0x1", "b"); ("0y", "c")] in
  (Dict.keys labels = ["10"] ++ "0x1" :: ["0y"] ∧
   (∀ k', k' ∈ ["10"] → ¬ bad_key (length ["A"; "B"]) k') ∧
   bad_key (length ["A"; "B"]) "0x1") ∧
  get_n_sets labels ["A"; "B"] =
  if decide (String.length "0x1" = length ["A"; "B"])
  then Err KeyError else Err ValueError.
Proof.
  intros labels.
  assert (∀ k', k' ∈ ["10"] → ¬ bad_key (length ["A"; "B"]) k') as Hgood.
  { intros k' Hk. apply elem_of_cons in Hk as [->|Hk].
    - intros [Hlen|Hbad]; [by apply Hlen|].
      apply binary_false in Hbad. discriminate Hbad.
    - apply elem_of_nil in Hk. destruct Hk. }
  assert (bad_key (length ["A"; "B"]) "0x1") as Hbad.
  { left. simpl. lia. }
  split; [split; [reflexivity|]; split; [exact Hgood | exact Hbad]|].
  apply (get_n_sets_first_bad labels ["A"; "B"] ["10"] ["0y"] "0x1").
  - reflexivity.
  - exact Hgood.
  - exact Hbad.
Defined.

Lemma get_n_sets_generated_witness :
  generate_petal_labels no_format sets_ab "{logic}"
  = Ok [("01", "01"); ("10", "10"); ("11", "11")] ∧
  get_n_sets [("01", "01"); ("10", "10"); ("11", "11")] ["A"; "B"; "C"] =
  if decide (length ["A"; "B"; "C"] = length sets_ab)
  then Ok (length sets_ab) else Err ValueError.
Proof.
  assert (generate_petal_labels no_format sets_ab "{logic}"
          = Ok [("01", "01"); ("10", "10"); ("11", "11")]) as Hl
    by (vm_compute; reflexivity).
  split; [exact Hl|].
  apply (get_n_sets_generated no_format sets_ab "{logic}" _ ["A"; "B"; "C"]).
  exact Hl.
Defined.

(** ** More on the colors *)

Lemma map_result_first_error {X Y} (f : X → result Y) (l1 l2 : list X)
    (x : X) (e : exn) :
  (∀ y, y ∈ l1 → is_ok (f y) = true) → f x = Err e →
  map_result f (l1 ++ x :: l2) = Err e.
Proof.
  intros Hl1 Hx. induction l1 as [|y l1 IH]; simpl.
  - by rewrite Hx.
  - assert (is_ok (f y) = true) as Hy by (apply Hl1; by left).
    destruct (f y); [|done]. simpl. rewrite IH; [done|].
    intros z ?. apply Hl1. by right.
Qed.

Section MoreColors.

Variables color cmap_id : Type.
Variable to_rgba : color -> option Q -> result rgba.
Variable cmap_to_rgba : cmap_id -> list nat -> Q -> result (list rgba).

#[local] Abbreviation palette :=
  (generate_colors color cmap_id to_rgba cmap_to_rgba).

(** Every entry of an explicit list is converted before the list is cut to
    length: an entry that does not convert makes the call fail with its
    error, even when it lies beyond the first [n_colors] entries. *)
Theorem generate_colors_converts_all (l1 l2 : list color) (c : color)
    (n_colors : pyvalue) (n : Z) (alpha : Q) (e : exn) :
  as_int n_colors = Some n → (2 ≤ n ≤ 6)%Z →
  (∀ c', c' ∈ l1 → is_ok (to_rgba c' (Some alpha)) = true) →
  to_rgba c (Some alpha) = Err e →
  palette (CmapList (l1 ++ c :: l2)) n_colors alpha = Err e.
Proof.
  intros Hint Hn Hl1 Hc.
  rewrite (generate_colors_valid _ _ _ _ _ _ _ n Hint Hn).
  by rewrite (map_result_first_error _ l1 l2 c e Hl1 Hc).
Qed.

(** The colors returned for an explicit list are index-aligned with it:
    entry [i] of the result is the conversion of entry [i] of the list. *)
Theorem generate_colors_aligned (l : list color) (n_colors : pyvalue)
    (alpha : Q) (colors : list rgba) (i : nat) (t : rgba) :
  palette (CmapList l) n_colors alpha = Ok colors →
  colors !! i = Some t →
  ∃ c, l !! i = Some c ∧ to_rgba c (Some alpha) = Ok t.
Proof.
  unfold generate_colors. destruct (as_int n_colors) as [n|]; [|done].
  destruct (_ || _)%bool; [done|].
  destruct (map_result _ l) as [r|e] eqn:Hr; simpl; [|done].
  intros [= <-] Hi. apply lookup_take_Some in Hi as [Hi _].
  apply map_result_Ok in Hr.
  destruct (Forall2_lookup_r _ _ _ _ _ Hr Hi) as (c & Hc & Ht).
  by exists c.
Qed.

(** The outline of a shape: with the factor 2 of its callers,
    [less_transparent_color] hands the color back to [to_rgba] with the
    alpha [(1 + a) / 2], [a] being the alpha of the color itself, and
    returns what [to_rgba] makes of it.  For [a] between 0 and 1 the alpha
    asked for lies between [a] and 1: the outline is never asked to be
    more transparent than the fill.  A factor 0 raises
    [ZeroDivisionError] once the color has been converted. *)
Theorem less_transparent_color_alpha (c : color) (t : rgba) :
  to_rgba c None = Ok t →
  (0 <= alpha_of t)%Q → (alpha_of t <= 1)%Q →
  (∃ a',
     less_transparent_color color to_rgba c 2 = to_rgba c (Some a') ∧
     (a' == (1 + alpha_of t) / 2)%Q ∧
     (alpha_of t <= a')%Q ∧ (a' <= 1)%Q) ∧
  less_transparent_color color to_rgba c 0 = Err ZeroDivisionError.
Proof.
  intros Ht H0 H1. unfold less_transparent_color. rewrite Ht. result_steps.
  split; [|reflexivity].
  exists ((1 + alpha_of t) / 2)%Q. split; [reflexivity|].
  split; [reflexivity|]. clear Ht. revert H0 H1.
  generalize (alpha_of t). intros a H0 H1.
  unfold Qdiv. change (/ 2)%Q with (1 # 2)%Q. split; lra.
Qed.

End MoreColors.

(** [matplotlib.colors.to_rgba] on an RGBA tuple: a given alpha replaces
    the tuple's own, and the four values of the result must lie between 0
    and 1. *)
Definition checked_to_rgba (c : rgba) (alpha : option Q) : result rgba :=
  let unit_range (v : Q) := Qle_bool 0 v && Qle_bool v 1 in
  let t := match alpha with
           | Some a => RGBA (red c) (green c) (blue c) a
           | None => c
           end in
  if unit_range (red t) && unit_range (green t) && unit_range (blue t)
     && unit_range (alpha_of t)
  then Ok t
  else Err ValueError.

Definition off_scale : rgba := RGBA 2 0 0 1.

Lemma generate_colors_converts_all_witness :
  (as_int (PyInteger 2) = Some 2%Z ∧ (2 ≤ 2 ≤ 6)%Z ∧
   (∀ c', c' ∈ [opaque_red; opaque_red] →
      is_ok (checked_to_rgba c' (Some (4 # 10))) = true) ∧
   checked_to_rgba off_scale (Some (4 # 10)) = Err ValueError) ∧
  generate_colors rgba unit checked_to_rgba gray_to_rgba
    (CmapList ([opaque_red; opaque_red] ++ off_scale :: [])) (PyInteger 2)
    (4 # 10)
  = Err ValueError.
Proof.
  assert (∀ c', c' ∈ [opaque_red; opaque_red] →
            is_ok (checked_to_rgba c' (Some (4 # 10))) = true) as Hl1.
  { intros c' Hc. apply elem_of_cons in Hc as [->|Hc]; [reflexivity|].
    apply elem_of_cons in Hc as [->|Hc]; [reflexivity|].
    apply elem_of_nil in Hc. destruct Hc. }
  split.
  - split; [reflexivity|]. split; [lia|]. split; [exact Hl1 | reflexivity].
  - apply (generate_colors_converts_all rgba unit checked_to_rgba gray_to_rgba
             [opaque_red; opaque_red] [] off_scale (PyInteger 2) 2 (4 # 10)
             ValueError).
    + reflexivity.
    + lia.
    + exact Hl1.
    + reflexivity.
Defined.

Lemma generate_colors_aligned_witness :
  (generate_colors rgba unit checked_to_rgba gray_to_rgba
     (CmapList [opaque_red; RGBA 0 1 0 1; RGBA 0 0 1 1]) (PyInteger 2) (4 # 10)
   = Ok [RGBA 1 0 0 (4 # 10); RGBA 0 1 0 (4 # 10)] ∧
   [RGBA 1 0 0 (4 # 10); RGBA 0 1 0 (4 # 10)] !! 1 = Some (RGBA 0 1 0 (4 # 10))) ∧
  ∃ c, [opaque_red; RGBA 0 1 0 1; RGBA 0 0 1 1] !! 1 = Some c ∧
       checked_to_rgba c (Some (4 # 10)) = Ok (RGBA 0 1 0 (4 # 10)).
Proof.
  split; [split; reflexivity|].
  apply (generate_colors_aligned rgba unit checked_to_rgba gray_to_rgba
           [opaque_red; RGBA 0 1 0 1; RGBA 0 0 1 1] (PyInteger 2) (4 # 10)
           [RGBA 1 0 0 (4 # 10); RGBA 0 1 0 (4 # 10)] 1 (RGBA 0 1 0 (4 # 10)));
    reflexivity.
Defined.

Lemma less_transparent_color_alpha_witness :
  let t := RGBA 1 0 0 (4 # 10) in
  (checked_to_rgba t None = Ok t ∧
   (0 <= alpha_of t)%Q ∧ (alpha_of t <= 1)%Q) ∧
  (∃ a',
     less_transparent_color rgba checked_to_rgba t 2
     = checked_to_rgba t (Some a') ∧
     (a' == (1 + alpha_of t) / 2)%Q ∧
     (alpha_of t <= a')%Q ∧ (a' <= 1)%Q) ∧
  less_transparent_color rgba checked_to_rgba t 0 = Err ZeroDivisionError.
Proof.
  intros t.
  assert (0 <= alpha_of t)%Q as H0 by (vm_compute; discriminate).
  assert (alpha_of t <= 1)%Q as H1 by (vm_compute; discriminate).
  split.
  - split; [reflexivity|]. split; [exact H0 | exact H1].
  - apply (less_transparent_color_alpha rgba checked_to_rgba t t).
    + reflexivity.
    + exact H0.
    + exact H1.
Defined.

(** ** More on drawing *)

(** [m] draws at most one patch, and none when it raises. *)
Definition one_patch_or_nothing {color T} (m : draw color T) : Prop :=
  ∀ ax, match m ax with
        | (Ok _, ax') => ∃ p, ax' = ax ++ [AddPatch p]
        | (Err _, ax') => ax' = ax
        end.

Lemma draw_bind_inv {color X T} (m : draw color X) (k : X → draw color T)
    (ax ax' : axes color) (v : T) :
  (m ≫= k) ax = (Ok v, ax') →
  ∃ u ax1, m ax = (Ok u, ax1) ∧ k u ax1 = (Ok v, ax').
Proof.
  unfold mbind, draw_bind. destruct (m ax) as [[u|e] ax1]; [|done].
  intros Hk. by exists u, ax1.
Qed.

Lemma draw_lift_inv {color T} (r : result T) (ax ax' : axes color) (v : T) :
  lift r ax = (Ok v, ax') → r = Ok v ∧ ax' = ax.
Proof. unfold lift. by intros [= -> ->]. Qed.

(** A loop whose passes each append calls described by [R] appends, when
    it completes, the calls of all its passes in order. *)
Lemma for_each_inv {color X} (R : X → list (call color) → Prop)
    (l : list X) (body : X → draw color unit) (ax ax' : axes color) :
  (∀ x ax ax', body x ax = (Ok (), ax') → ∃ new, ax' = ax ++ new ∧ R x new) →
  for_each l body ax = (Ok (), ax') →
  ∃ news, ax' = ax ++ concat news ∧ Forall2 R l news.
Proof.
  intros Hbody. revert ax. induction l as [|x l IH]; intros ax; simpl.
  - intros [= <-]. exists []. by rewrite app_nil_r.
  - intros ([] & ax1 & Hx & Hl)%draw_bind_inv.
    destruct (Hbody x ax ax1 Hx) as (new & -> & Hnew).
    destruct (IH _ Hl) as (news & -> & Hnews).
    exists (new :: news). simpl. rewrite app_assoc. by split; [|constructor].
Qed.

Section ShapeFacts.

Variable color : Type.
Variable to_rgba : color -> option Q -> result rgba.

Lemma draw_ellipse_atomic (args : list arg) (c : color) :
  one_patch_or_nothing (draw_ellipse color to_rgba args c).
Proof.
  intros ax. unfold draw_ellipse.
  destruct args as [|x [|y [|w [|h [|a [|? ?]]]]]]; try done.
  unfold mbind, draw_bind, lift.
  destruct (less_transparent_color color to_rgba c 2); [|done].
  by eexists.
Qed.

Lemma draw_triangle_atomic (args : list arg) (c : color) :
  one_patch_or_nothing (draw_triangle color to_rgba args c).
Proof.
  intros ax. unfold draw_triangle.
  destruct args as [|x1 [|y1 [|x2 [|y2 [|x3 [|y3 [|d [|a [|? ?]]]]]]]]];
    try done.
  unfold mbind, draw_bind, lift.
  destruct (less_transparent_color color to_rgba c 2); [|done].
  by eexists.
Qed.

(** Both shape wrappers are all-or-nothing: a call that returns has added
    exactly one patch, a call that raises has added nothing; and a wrong
    number of positional values raises [TypeError]. *)
Theorem shape_wrappers_atomic (args : list arg) (c : color)
    (ax : axes color) :
  one_patch_or_nothing (draw_ellipse color to_rgba args c) ∧
  one_patch_or_nothing (draw_triangle color to_rgba args c) ∧
  (length args = 5 ∨ draw_ellipse color to_rgba args c ax = (Err TypeError, ax)) ∧
  (length args = 8 ∨ draw_triangle color to_rgba args c ax = (Err TypeError, ax)).
Proof.
  split; [apply draw_ellipse_atomic|]. split; [apply draw_triangle_atomic|].
  split.
  - destruct args as [|x [|y [|w [|h [|a [|? ?]]]]]]; (by left) || (by right).
  - destruct args as [|x1 [|y1 [|x2 [|y2 [|x3 [|y3 [|d [|a [|? ?]]]]]]]]];
      (by left) || (by right).
Qed.

End ShapeFacts.

(** The text call for one entry of the label mapping, if its code has a
    position in the table. *)
Definition label_text {color} (tbl : gmap string (Q * Q)) (size : Q)
    (item : string * string) : list (call color) :=
  match tbl !! item.1 with
  | Some (x, y) => [AxText x y item.2 size]
  | None => []
  end.

(** The legend call, if a location is given. *)
Definition legend_calls {color} (kw : kwargs color) : list (call color) :=
  match legend_loc kw with
  | Some loc => [AxLegend (dataset_labels kw) loc (fontsize kw)]
  | None => []
  end.

Lemma draw_legend_run {color} (kw : kwargs color) (ax : axes color) :
  draw_legend color kw ax = (Ok (), ax ++ legend_calls kw).
Proof.
  unfold draw_legend, legend_calls. destruct (legend_loc kw); [done|].
  by rewrite app_nil_r.
Qed.

Lemma Forall2_eq_fmap {X Y} (f : X → Y) (l : list X) (k : list Y) :
  Forall2 (λ x y, y = f x) l k → k = f <$> l.
Proof. induction 1 as [|x y l k -> _ IH]; [done|]. by rewrite fmap_cons, IH. Qed.

Lemma concat_patches {color X} (l : list X) (news : list (list (call color))) :
  Forall2 (λ _ new, ∃ p, new = [AddPatch p]) l news →
  length (concat news) = length l ∧
  Forall (λ c, is_patch c = true) (concat news).
Proof.
  induction 1 as [|x new l news [p ->] _ [IHl IHp]]; [done|].
  simpl. split; [by rewrite IHl | by constructor].
Qed.

Section VennLayout.

Variable color : Type.
Variable to_rgba : color -> option Q -> result rgba.
Variables SHAPE_COORDS SHAPE_DIMS : gmap nat (list (list arg)).
Variable SHAPE_ANGLES : gmap nat (list arg).
Variable PETAL_LABEL_COORDS : gmap nat (gmap string (Q * Q)).
Variable validate_arguments : kwargs color -> result (kwargs color).

#[local] Abbreviation exact_venn :=
  (draw_venn color to_rgba SHAPE_COORDS SHAPE_DIMS SHAPE_ANGLES
     PETAL_LABEL_COORDS validate_arguments).
#[local] Abbreviation exact_venn_shapes :=
  (draw_venn_shapes color SHAPE_COORDS SHAPE_DIMS SHAPE_ANGLES
     PETAL_LABEL_COORDS).

Lemma table_get_inv {V} (table : gmap nat V) (k : nat) (v : V) :
  table_get table k = Ok v → table !! k = Some v.
Proof. unfold table_get. destruct (table !! k); [|done]. by intros [= ->]. Qed.

Lemma venn_petal_inv (n_sets : nat) (size : Q) (item : string * string)
    (ax ax' : axes color) :
  venn_petal color PETAL_LABEL_COORDS n_sets size item ax = (Ok (), ax') →
  ax' = ax ++ label_text (default ∅ (PETAL_LABEL_COORDS !! n_sets)) size item.
Proof.
  unfold venn_petal.
  intros (tbl & ax1 & [Htbl%table_get_inv ->]%draw_lift_inv & Hrun)%draw_bind_inv.
  rewrite Htbl. unfold label_text. simpl.
  destruct (tbl !! item.1) as [[x y]|].
  - by injection Hrun as <-.
  - injection Hrun as <-. by rewrite app_nil_r.
Qed.

Lemma venn_shapes_inv (kw : kwargs color) (n_sets : nat)
    (draw_shape : list arg → color → draw color unit)
    (ax ax' : axes color) :
  (∀ args c, one_patch_or_nothing (draw_shape args c)) →
  exact_venn_shapes kw n_sets draw_shape ax = (Ok (), ax') →
  ∃ coords dims angles patches,
    SHAPE_COORDS !! n_sets = Some coords ∧
    SHAPE_DIMS !! n_sets = Some dims ∧
    SHAPE_ANGLES !! n_sets = Some angles ∧
    ax' = ax ++ patches ++
          concat (label_text (default ∅ (PETAL_LABEL_COORDS !! n_sets))
                    (fontsize kw) <$> petal_labels kw) ++
          legend_calls kw ∧
    length patches =
      ((length coords `min` length dims) `min` length angles)
        `min` length (colors kw) ∧
    Forall (λ c, is_patch c = true) patches.
Proof.
  intros Hshape. unfold draw_venn_shapes.
  intros (coords & ? & [Hc%table_get_inv ->]%draw_lift_inv & Hrun)%draw_bind_inv.
  apply draw_bind_inv in Hrun
    as (dims & ? & [Hd%table_get_inv ->]%draw_lift_inv & Hrun).
  apply draw_bind_inv in Hrun
    as (angles & ? & [Ha%table_get_inv ->]%draw_lift_inv & Hrun).
  apply draw_bind_inv in Hrun as ([] & ax1 & Hshapes & Hrun).
  apply draw_bind_inv in Hrun as ([] & ax2 & Htexts & Hlegend).
  apply (for_each_inv (λ _ new, ∃ p, new = [AddPatch p])) in Hshapes
    as (news & -> & Hnews).
  2: { intros [[[cs ds] angle] c] ax0 ax0' Hx.
       pose proof (Hshape (cs ++ ds ++ [angle]) c ax0) as Hone.
       rewrite Hx in Hone. destruct Hone as [p ->]. by exists [AddPatch p]; eauto. }
  apply (for_each_inv (λ item new,
           new = label_text (default ∅ (PETAL_LABEL_COORDS !! n_sets))
                   (fontsize kw) item)) in Htexts as (texts & -> & Htexts).
  2: { intros item ax0 ax0' Hx%venn_petal_inv. by eexists. }
  apply Forall2_eq_fmap in Htexts as ->.
  rewrite draw_legend_run in Hlegend. injection Hlegend as <-.
  destruct (concat_patches _ news Hnews) as [Hlen Hpatches].
  exists coords, dims, angles, (concat news).
  split_and!; [done..| | |done].
  - by rewrite <- !app_assoc.
  - by rewrite Hlen, !length_zip_with.
Qed.

(** When [draw_venn] returns, the axes hold, after what was there and the
    styling call: one patch per row of the geometry tables, cut to the
    number of colors; then the labels whose codes have a position in the
    table, in mapping order (the others are skipped); then the legend, if
    a location was given. *)
Theorem draw_venn_layout (kw kw' : kwargs color) (ax : option (axes color))
    (ax' : axes color) (N : nat) :
  validate_arguments kw = Ok kw' →
  get_n_sets (petal_labels kw') (dataset_labels kw') = Ok N →
  exact_venn kw ax = (Ok (), ax') →
  ∃ coords dims angles patches,
    2 ≤ N ≤ 6 ∧
    SHAPE_COORDS !! N = Some coords ∧
    SHAPE_DIMS !! N = Some dims ∧
    SHAPE_ANGLES !! N = Some angles ∧
    ax' = (default [] ax ++ [SetStyle]) ++ patches ++
          concat (label_text (default ∅ (PETAL_LABEL_COORDS !! N))
                    (fontsize kw') <$> petal_labels kw') ++
          legend_calls kw' ∧
    length patches =
      ((length coords `min` length dims) `min` length angles)
        `min` length (colors kw') ∧
    Forall (λ c, is_patch c = true) patches.
Proof.
  intros Hv Hn. unfold draw_venn.
  rewrite (decorated_run color validate_arguments _ kw kw' ax Hv).
  unfold draw_venn_body. rewrite Hn, draw_bind_lift_Ok.
  destruct ((2 <=? N) && (N <? 6)) eqn:Hlow.
  - rewrite draw_bind_lift_Ok. intros Hrun.
    apply venn_shapes_inv in Hrun
      as (coords & dims & angles & patches & ? & ? & ? & ? & ? & ?);
      [|apply draw_ellipse_atomic].
    apply andb_prop in Hlow as [?%Nat.leb_le ?%Nat.ltb_lt].
    exists coords, dims, angles, patches. split_and!; [lia|lia|done..].
  - destruct (N =? 6) eqn:Hsix.
    + rewrite draw_bind_lift_Ok. intros Hrun.
      apply venn_shapes_inv in Hrun
        as (coords & dims & angles & patches & ? & ? & ? & ? & ? & ?);
        [|apply draw_triangle_atomic].
      apply Nat.eqb_eq in Hsix.
      exists coords, dims, angles, patches. split_and!; [lia|lia|done..].
    + by rewrite draw_bind_lift_Err.
Qed.

End VennLayout.

(** Two datasets, a label under a code without a position, three colors
    and no legend. *)
Definition kw_sparse : kwargs rgba :=
  Kwargs [("00", "none"); ("11", "2")] ["A"; "B"] false
    (RGBA 0 0 1 (4 # 10) :: Sample.colors2) 13 None.

Lemma draw_venn_layout_witness :
  (Sample.validate_arguments kw_sparse = Ok kw_sparse ∧
   get_n_sets (petal_labels kw_sparse) (dataset_labels kw_sparse) = Ok 2 ∧
   Sample.draw_venn kw_sparse (Some [AxText 0 0 "earlier" 10])
   = (Ok (), (Sample.draw_venn kw_sparse (Some [AxText 0 0 "earlier" 10])).2)) ∧
  ∃ coords dims angles patches,
    2 ≤ 2 ≤ 6 ∧
    Sample.SHAPE_COORDS !! 2 = Some coords ∧
    Sample.SHAPE_DIMS !! 2 = Some dims ∧
    Sample.SHAPE_ANGLES !! 2 = Some angles ∧
    (Sample.draw_venn kw_sparse (Some [AxText 0 0 "earlier" 10])).2
    = (default [] (Some [AxText 0 0 "earlier" 10]) ++ [SetStyle]) ++ patches ++
      concat (label_text (default ∅ (Sample.PETAL_LABEL_COORDS !! 2))
                (fontsize kw_sparse) <$> petal_labels kw_sparse) ++
      legend_calls kw_sparse ∧
    length patches =
      ((length coords `min` length dims) `min` length angles)
        `min` length (colors kw_sparse) ∧
    Forall (λ c, is_patch c = true) patches.
Proof.
  split; [split_and!; reflexivity|].
  apply (draw_venn_layout rgba tuple_to_rgba Sample.SHAPE_COORDS
           Sample.SHAPE_DIMS Sample.SHAPE_ANGLES Sample.PETAL_LABEL_COORDS
           Sample.validate_arguments kw_sparse kw_sparse (Some [AxText 0 0 "earlier" 10]));
    reflexivity.
Defined.

(** ** More on the hidden counters *)

(** The longest digit string [int] converts in an interpreter that limits
    the conversion, at its default setting. *)
Definition int_max_str_digits : nat := 4300.

(** The code has no ["1"]. *)
Fixpoint no_ones (logic : string) : bool :=
  match logic with
  | EmptyString => true
  | String c r => negb (Ascii.eqb c "1") && no_ones r
  end.

Lemma parse_digits_error (after : bool) (acc : Z) (s : string) (e : exn) :
  PyInt.digits after acc s = Err e → e = ValueError.
Proof.
  revert after acc. induction s as [|c r IH]; intros after acc; simpl.
  - destruct after; congruence.
  - destruct (PyInt.digit c); [apply IH|].
    destruct (Ascii.eqb c "_").
    + destruct after; [apply IH | congruence].
    + destruct (after && _); congruence.
Qed.

Lemma parse_error (s : string) (e : exn) :
  PyInt.parse s = Err e → e = ValueError.
Proof.
  unfold PyInt.parse. destruct (PyInt.lstrip s) as [|c r]; [congruence|].
  destruct (Ascii.eqb c "-").
  - destruct (PyInt.digits false 0 r) eqn:Hd; simpl; [done|].
    intros [= <-]. by apply parse_digits_error in Hd.
  - destruct (Ascii.eqb c "+"); apply parse_digits_error.
Qed.

Lemma label_size_parse (label : string) (z : Z) :
  PyInt.parse label = Ok z → PyInt.parse label = Ok (label_size label).
Proof. unfold label_size. by intros ->. Qed.

Lemma no_ones_has_bit (logic : string) (j : nat) :
  no_ones logic = true → has_bit j logic = false.
Proof.
  unfold has_bit. revert j. induction logic as [|c r IH]; intros j; [done|].
  simpl. intros [Hc Hr]%andb_prop. destruct j as [|j]; simpl.
  - by apply negb_true_iff.
  - by apply IH.
Qed.

Lemma update_hidden_from_no_ones (i : nat) (chars : string) (hidden : list Z)
    (logic : string) (labels : Dict.t string) :
  no_ones chars = true →
  update_hidden_from i chars hidden logic labels = Ok hidden.
Proof.
  revert i. induction chars as [|c r IH]; intros i; [done|].
  simpl. intros [Hc Hr]%andb_prop. apply negb_true_iff in Hc. rewrite Hc.
  by apply IH.
Qed.

Lemma update_hidden_from_error (i : nat) (chars : string) (hidden : list Z)
    (logic : string) (labels : Dict.t string) (e : exn) :
  no_ones chars = false →
  i + String.length chars ≤ length hidden →
  match Dict.get logic labels with
  | Some label => PyInt.parse label
  | None => Err KeyError
  end = Err e →
  update_hidden_from i chars hidden logic labels = Err e.
Proof.
  revert i. induction chars as [|c r IH]; intros i; [done|].
  cbn [update_hidden_from no_ones String.length]. intros Hones Hlen Hfail.
  destruct (Ascii.eqb c "1").
  - destruct (lookup_lt_is_Some_2 hidden i) as [old ->]; [lia|].
    result_steps. destruct (Dict.get logic labels) as [label|].
    + result_steps. by rewrite Hfail.
    + by injection Hfail as <-.
  - apply IH; [exact Hones | lia | done].
Qed.

Lemma update_hidden_adds (hidden : list Z) (logic : string)
    (labels : Dict.t string) (label : string) (z : Z) :
  String.length logic ≤ length hidden →
  Dict.get logic labels = Some label → PyInt.parse label = Ok z →
  update_hidden hidden logic labels =
  Ok (imap (λ j h, if has_bit j logic then (h + z)%Z else h) hidden).
Proof.
  intros Hlen Hget Hparse.
  destruct (update_hidden_spec hidden logic labels label Hget
              (label_size_parse _ _ Hparse) Hlen) as (hidden' & Hup & Hl & Hj).
  rewrite Hup. f_equal.
  apply list_eq. intros j. rewrite Hj, list_lookup_imap.
  destruct (hidden !! j) as [h|]; simpl; [|done]. f_equal.
  unfold label_size. rewrite Hparse. destruct (has_bit j logic); lia.
Qed.

(** [update_hidden] on a code no longer than the list of counters, its
    label within the length [int] converts: a code without ["1"] leaves the
    counters as they are, and its label is not even looked up; otherwise a
    code missing from the mapping raises [KeyError], a label that [int]
    refuses raises [ValueError], and a label that [int] reads is added to
    the counter of every position holding ["1"], the others staying as
    they are. *)
Theorem update_hidden_outcomes (hidden : list Z) (logic : string)
    (labels : Dict.t string) :
  String.length logic ≤ length hidden →
  (∀ label, Dict.get logic labels = Some label →
     String.length label ≤ int_max_str_digits) →
  update_hidden hidden logic labels =
  if no_ones logic then Ok hidden
  else match Dict.get logic labels with
       | None => Err KeyError
       | Some label =>
           match PyInt.parse label with
           | Err _ => Err ValueError
           | Ok z =>
               Ok (imap (λ j h, if has_bit j logic then (h + z)%Z else h)
                     hidden)
           end
       end.
Proof.
  intros Hlen _. destruct (no_ones logic) eqn:Hones.
  { by apply update_hidden_from_no_ones. }
  destruct (Dict.get logic labels) as [label|] eqn:Hget.
  2: { apply update_hidden_from_error; [done | lia | by rewrite Hget]. }
  destruct (PyInt.parse label) as [z|e] eqn:Hparse.
  - by apply (update_hidden_adds _ _ _ label).
  - rewrite (parse_error _ _ Hparse) in Hparse.
    apply update_hidden_from_error; [done | lia | by rewrite Hget].
Qed.

Lemma update_hidden_outcomes_witness :
  (String.length "101" ≤ length [1; 2; 3]%Z ∧
   ∀ label, Dict.get "101" [("101", " 7 ")] = Some label →
     String.length label ≤ int_max_str_digits) ∧
  update_hidden [1; 2; 3]%Z "101" [("101", " 7 ")] = Ok [8; 2; 10]%Z.
Proof.
  assert (∀ label, Dict.get "101" [("101", " 7 ")] = Some label →
            String.length label ≤ int_max_str_digits) as Hshort.
  { intros label Hget. injection Hget as <-.
    unfold int_max_str_digits. simpl. lia. }
  split; [split; [simpl; lia | exact Hshort]|].
  rewrite (update_hidden_outcomes [1; 2; 3]%Z "101" [("101", " 7 ")]);
    [reflexivity | simpl; lia | exact Hshort].
Defined.

(** A label that [int] refuses, and a code without ["1"] whose label is
    never read. *)
Example update_hidden_refused :
  update_hidden [1; 2; 3]%Z "101" [("101", "7.0")] = Err ValueError ∧
  update_hidden [1; 2; 3]%Z "000" [("000", "many")] = Ok [1; 2; 3]%Z.
Proof. split; reflexivity. Qed.

(** ** The layout of the pseudo-Venn diagram *)

Lemma get_n_sets_Ok_inv {V} (labels : Dict.t V) (names : list string)
    (N : nat) :
  get_n_sets labels names = Ok N →
  N = length names ∧ ∀ k, k ∈ Dict.keys labels → String.length k = N.
Proof.
  unfold get_n_sets.
  destruct (check_keys_spec (length names) (Dict.keys labels))
    as [[Hc Hgood]|(k & _ & _ & [Hc|Hc])]; rewrite Hc; result_steps; try done.
  intros [= <-]. split; [done|]. intros k Hk.
  destruct (decide (String.length k = length names)); [done|].
  destruct (Hgood k Hk). by left.
Qed.

Lemma for_each_emit {color X} (f : X → call color) (l : list X)
    (body : X → draw color unit) (ax : axes color) :
  (∀ x ax, body x ax = (Ok (), ax ++ [f x])) →
  for_each l body ax = (Ok (), ax ++ (f <$> l)).
Proof.
  intros Hbody. revert ax. induction l as [|x l IH]; intros ax; simpl.
  - by rewrite app_nil_r.
  - rewrite (draw_bind_run _ _ _ _ _ (Hbody x ax)), IH.
    by rewrite <- app_assoc.
Qed.

Lemma for_each_all {color X} (P : call color → Prop) (l : list X)
    (body : X → draw color unit) (ax : axes color) :
  (∀ x, x ∈ l → ∀ ax, ∃ p, body x ax = (Ok (), ax ++ [p]) ∧ P p) →
  ∃ ps, for_each l body ax = (Ok (), ax ++ ps) ∧
        length ps = length l ∧ Forall P ps.
Proof.
  revert ax. induction l as [|x l IH]; intros ax Hbody; simpl.
  - exists []. by rewrite app_nil_r.
  - destruct (Hbody x (list_elem_of_here _ _) ax) as (p & Hx & Hp).
    destruct (IH (ax ++ [p])) as (ps & Hl & Hlen & Hps).
    { intros y Hy. apply Hbody. by right. }
    exists (p :: ps). rewrite (draw_bind_run _ _ _ _ _ Hx), Hl.
    rewrite <- app_assoc. simpl. split_and!; [done | by rewrite Hlen |].
    by constructor.
Qed.

Lemma concat_singletons {X Y} (P : Y → Prop) (l : list X)
    (news : list (list Y)) :
  Forall2 (λ _ new, ∃ y, new = [y] ∧ P y) l news →
  length (concat news) = length l ∧ Forall P (concat news).
Proof.
  induction 1 as [|x new l news (y & -> & Hy) _ [IHl IHp]]; [done|].
  simpl. split; [by rewrite IHl | by constructor].
Qed.

Lemma forallb_first_false {X} (f : X → bool) (l : list X) :
  forallb f l = false →
  ∃ before x after,
    l = before ++ x :: after ∧ forallb f before = true ∧ f x = false.
Proof.
  induction l as [|x l IH]; simpl; [done|].
  destruct (f x) eqn:Hx.
  - intros (before & y & after & -> & Hb & Hy)%IH.
    exists (x :: before), y, after. simpl. by rewrite Hx.
  - intros _. by exists [], x, l.
Qed.

(** The labels are within the length [int] converts. *)
Definition short_labels (items : list (string * string)) : bool :=
  forallb (λ item, String.length item.2 <=? int_max_str_digits) items.

(** An undisplayed code with a ["1"] carries a label that [int] reads. *)
Definition countable (tbl : gmap string (Q * Q)) (item : string * string)
    : bool :=
  match tbl !! item.1 with
  | Some _ => true
  | None => no_ones item.1 || is_ok (PyInt.parse item.2)
  end.

Section PseudovennLayout.

Variable color : Type.
Variable to_rgba : color -> option Q -> result rgba.
Variable PSEUDOVENN_PETAL_COORDS : gmap nat (gmap string (Q * Q)).
Variables cos sin : Q -> Q.
Variable pi : Q.
Variable validate_arguments : kwargs color -> result (kwargs color).

#[local] Abbreviation pseudovenn6 :=
  (draw_pseudovenn6 color to_rgba PSEUDOVENN_PETAL_COORDS cos sin pi
     validate_arguments).
#[local] Abbreviation petals :=
  (pseudovenn_petals color PSEUDOVENN_PETAL_COORDS).

(** The hint written for the counter [item.2] of set [item.1]. *)
Definition hint_call (size : Q) (item : nat * Z) : call color :=
  AxText ((1 # 2) + (57 # 100) * cos (step_angle pi item.1))%Q
         ((1 # 2) + (57 # 100) * sin (step_angle pi item.1))%Q
         (PyStr.of_Z item.2 +:+ newline +:+ " n/d*") size.

(** The explanation under the diagram. *)
Definition explanation_call (l0 l3 : string) (size : Q) : call color :=
  AxText (1 # 2) (- (1 # 10))
    ("* elements of set in intersections that are not displayed," +:+
     newline +:+ "such as shared only between " +:+ l0 +:+ " and " +:+ l3)
    size.

(** The colors whose less transparent variant can be computed. *)
Definition usable_colors (cs : list color) : bool :=
  forallb (λ c, is_ok (less_transparent_color color to_rgba c 2)) cs.


Lemma petals_step (tbl : gmap string (Q * Q)) (size : Q)
    (labels : Dict.t string) (c l : string)
    (items : list (string * string)) (hidden : list Z) (ax : axes color) :
  PSEUDOVENN_PETAL_COORDS !! 6 = Some tbl →
  String.length c ≤ length hidden →
  Dict.get c labels = Some l →
  countable tbl (c, l) = true →
  petals true size labels ((c, l) :: items) hidden ax
  = petals true size labels items
      (imap (λ j h, (h + hidden_part tbl j (c, l))%Z) hidden)
      (ax ++ label_text tbl size (c, l)).
Proof.
  intros Htbl Hlen Hget Hok.
  cbn [pseudovenn_petals]. unfold table_get. rewrite Htbl, draw_bind_lift_Ok.
  unfold label_text, countable in *. cbn [fst snd] in *.
  destruct (tbl !! c) as [[x y]|] eqn:Hc.
  - rewrite draw_bind_emit. f_equal. apply list_eq. intros j.
    rewrite list_lookup_imap, (hidden_part_Some _ _ _ _ _ Hc).
    destruct (hidden !! j); simpl; [f_equal; lia | done].
  - rewrite app_nil_r. destruct (no_ones c) eqn:Hones.
    + unfold update_hidden. rewrite (update_hidden_from_no_ones _ _ _ _ _ Hones).
      rewrite draw_bind_lift_Ok. f_equal. apply list_eq. intros j.
      rewrite list_lookup_imap, (hidden_part_None _ _ _ _ Hc).
      rewrite (no_ones_has_bit _ _ Hones).
      destruct (hidden !! j); simpl; [f_equal; lia | done].
    + simpl in Hok. destruct (PyInt.parse l) as [z|e] eqn:Hparse; [|done].
      rewrite (update_hidden_adds _ _ _ l z Hlen Hget Hparse).
      rewrite draw_bind_lift_Ok. f_equal. apply list_eq. intros j.
      rewrite !list_lookup_imap, (hidden_part_None _ _ _ _ Hc).
      unfold label_size. rewrite Hparse.
      destruct (hidden !! j); simpl; [|done].
      f_equal. destruct (has_bit j c); lia.
Qed.

Lemma petals_hints (tbl : gmap string (Q * Q)) (size : Q)
    (labels : Dict.t string) (items : list (string * string))
    (hidden : list Z) (ax : axes color) :
  PSEUDOVENN_PETAL_COORDS !! 6 = Some tbl →
  (∀ c l, (c, l) ∈ items →
     String.length c ≤ length hidden ∧ Dict.get c labels = Some l) →
  forallb (countable tbl) items = true →
  petals true size labels items hidden ax
  = (Ok (imap (λ j h, (h + sumZ (hidden_part tbl j <$> items))%Z) hidden),
     ax ++ concat (label_text tbl size <$> items)).
Proof.
  intros Htbl. revert hidden ax.
  induction items as [|[c l] items IH]; intros hidden ax Hitems Hok.
  - change (petals true size labels [] hidden ax) with (Ok hidden, ax).
    simpl. rewrite app_nil_r. f_equal. f_equal. symmetry.
    apply list_eq. intros j.
    rewrite list_lookup_imap. destruct (hidden !! j); simpl; [|done].
    f_equal. unfold sumZ. simpl. lia.
  - cbn [forallb] in Hok. apply andb_prop in Hok as [Hc Hok].
    destruct (Hitems c l) as [Hlen Hget]; [by left|].
    rewrite (petals_step tbl _ _ _ _ _ _ _ Htbl Hlen Hget Hc), IH; [|  |done].
    + rewrite fmap_cons. cbn [concat]. rewrite <- app_assoc.
      f_equal. f_equal. apply list_eq. intros j.
      rewrite !list_lookup_imap.
      destruct (hidden !! j); simpl; [|done].
      f_equal. symmetry. apply Z.add_assoc.
    + intros c' l' Hin. rewrite length_imap. apply Hitems. by right.
Qed.

Lemma petals_bad_label (tbl : gmap string (Q * Q)) (size : Q)
    (labels : Dict.t string) (before after : list (string * string))
    (c l : string) (hidden : list Z) (ax : axes color) :
  PSEUDOVENN_PETAL_COORDS !! 6 = Some tbl →
  (∀ c' l', (c', l') ∈ before ++ (c, l) :: after →
     String.length c' ≤ length hidden ∧ Dict.get c' labels = Some l') →
  forallb (countable tbl) before = true →
  countable tbl (c, l) = false →
  petals true size labels (before ++ (c, l) :: after) hidden ax
  = (Err ValueError, ax ++ concat (label_text tbl size <$> before)).
Proof.
  intros Htbl. revert hidden ax.
  induction before as [|[c' l'] before IH]; intros hidden ax Hitems Hok Hbad.
  - simpl. rewrite app_nil_r. unfold table_get.
    rewrite Htbl, draw_bind_lift_Ok.
    destruct (Hitems c l) as [Hlen Hget]; [by left|].
    unfold countable in Hbad. cbn [fst snd] in Hbad.
    destruct (tbl !! c); [done|].
    apply orb_false_iff in Hbad as [Hones Hparse].
    destruct (PyInt.parse l) as [z|e] eqn:Hl; [done|].
    rewrite (parse_error _ _ Hl) in Hl.
    unfold update_hidden.
    rewrite (update_hidden_from_error 0 c hidden c labels ValueError);
      [done | done | simpl; lia | by rewrite Hget].
  - cbn [forallb] in Hok. apply andb_prop in Hok as [Hc Hok].
    destruct (Hitems c' l') as [Hlen Hget]; [by left|].
    rewrite <- app_comm_cons.
    rewrite (petals_step tbl _ _ _ _ _ _ _ Htbl Hlen Hget Hc), IH; [| |done..].
    + rewrite fmap_cons. cbn [concat]. by rewrite <- app_assoc.
    + intros c'' l'' Hin. rewrite length_imap. apply Hitems. by right.
Qed.

Lemma pseudovenn6_accepted (kw kw' : kwargs color)
    (ax : option (axes color)) :
  validate_arguments kw = Ok kw' →
  get_n_sets (petal_labels kw') (dataset_labels kw') = Ok 6 →
  pseudovenn6 kw ax
  = draw_pseudovenn6_shapes color to_rgba PSEUDOVENN_PETAL_COORDS cos sin pi
      kw' 6 (default [] ax ++ [SetStyle]).
Proof.
  intros Hv Hn. unfold draw_pseudovenn6.
  rewrite (decorated_run color validate_arguments _ kw kw' ax Hv).
  unfold draw_pseudovenn6_body. by rewrite Hn, draw_bind_lift_Ok.
Qed.

Lemma ellipses_drawn (cs : list color) (ax : axes color) :
  usable_colors cs = true →
  ∃ patches,
    for_each (zip (seq 0 6) cs)
      (λ '(step, c),
         let angle := step_angle pi step in
         let x := ((1 # 2) + (1 # 5) * cos angle)%Q in
         let y := ((1 # 2) + (1 # 5) * sin angle)%Q in
         draw_ellipse color to_rgba
           [Some x; Some y; Some (6 # 10); Some (6 # 10); Some 0%Q] c) ax
    = (Ok (), ax ++ patches) ∧
    length patches = 6 `min` length cs ∧
    Forall (λ c, is_ellipse c = true) patches.
Proof.
  intros Hcs.
  edestruct (for_each_all (λ c : call color, is_ellipse c = true)
               (zip (seq 0 6) cs))
    as (ps & Hrun & Hlen & Hps); [|exists ps; split_and!; [exact Hrun| |done]].
  - intros [step c] Hin ax0.
    apply elem_of_zip_r in Hin.
    unfold usable_colors in Hcs. rewrite forallb_forall in Hcs.
    apply list_elem_of_In, Hcs in Hin.
    unfold draw_ellipse. cbv zeta.
    destruct (less_transparent_color color to_rgba c 2) as [edge|]; [|done].
    rewrite draw_bind_lift_Ok. by eexists.
  - by rewrite Hlen, length_zip_with, length_seq.
Qed.


Lemma ellipses_drawn_inv (cs : list color) (ax ax' : axes color) :
  for_each (zip (seq 0 6) cs)
    (λ '(step, c),
       let angle := step_angle pi step in
       let x := ((1 # 2) + (1 # 5) * cos angle)%Q in
       let y := ((1 # 2) + (1 # 5) * sin angle)%Q in
       draw_ellipse color to_rgba
         [Some x; Some y; Some (6 # 10); Some (6 # 10); Some 0%Q] c) ax
  = (Ok (), ax') →
  ∃ patches,
    ax' = ax ++ patches ∧
    length patches = 6 `min` length cs ∧
    Forall (λ c, is_ellipse c = true) patches.
Proof.
  intros Hrun.
  apply (for_each_inv (λ _ new, ∃ p : call color,
                         new = [p] ∧ is_ellipse p = true))
    in Hrun as (news & -> & Hnews).
  2: { intros [step c] ax0 ax0'. cbv zeta. unfold draw_ellipse.
       destruct (less_transparent_color color to_rgba c 2) as [edge|]; [|done].
       rewrite draw_bind_lift_Ok. intros [= <-].
       eexists. split; [done|]. by eexists. }
  destruct (concat_singletons _ _ _ Hnews) as [Hlen Hps].
  exists (concat news). split_and!; [done| |done].
  by rewrite Hlen, length_zip_with, length_seq.
Qed.

Lemma petals_hints_inv (tbl : gmap string (Q * Q)) (size : Q)
    (labels : Dict.t string) (items : list (string * string))
    (hidden hidden' : list Z) (ax ax' : axes color) :
  PSEUDOVENN_PETAL_COORDS !! 6 = Some tbl →
  (∀ c l, (c, l) ∈ items →
     String.length c ≤ length hidden ∧ Dict.get c labels = Some l) →
  petals true size labels items hidden ax = (Ok hidden', ax') →
  forallb (countable tbl) items = true ∧
  hidden' = imap (λ j h, (h + sumZ (hidden_part tbl j <$> items))%Z) hidden ∧
  ax' = ax ++ concat (label_text tbl size <$> items).
Proof.
  intros Htbl Hitems Hrun.
  destruct (forallb (countable tbl) items) eqn:Hok.
  - rewrite (petals_hints tbl _ _ _ _ _ Htbl Hitems Hok) in Hrun.
    by injection Hrun as <- <-.
  - apply forallb_first_false in Hok
      as (before & [c l] & after & -> & Hb & Hbad).
    by rewrite (petals_bad_label tbl _ _ before after c l _ _ Htbl Hitems
                  Hb Hbad) in Hrun.
Qed.

(** A run of [draw_pseudovenn6] with hints that returns: the number of
    sets was 6, the ellipses were drawn, the label loop returned its
    counters, and the hints, the limits, the explanation and the legend
    followed. *)
Lemma pseudovenn6_hint_run (kw kw' : kwargs color)
    (ax : option (axes color)) (ax' : axes color) :
  validate_arguments kw = Ok kw' →
  hint_hidden kw' = true →
  pseudovenn6 kw ax = (Ok (), ax') →
  get_n_sets (petal_labels kw') (dataset_labels kw') = Ok 6 ∧
  ∃ patches hidden ax2 l0 l3,
    length patches = 6 `min` length (colors kw') ∧
    Forall (λ c, is_ellipse c = true) patches ∧
    petals true (fontsize kw') (petal_labels kw') (petal_labels kw')
      (replicate 6 0%Z) ((default [] ax ++ [SetStyle]) ++ patches)
    = (Ok hidden, ax2) ∧
    dataset_labels kw' !! 0 = Some l0 ∧
    dataset_labels kw' !! 3 = Some l3 ∧
    ax' = ax2 ++ (hint_call (fontsize kw') <$> zip (seq 0 6) hidden) ++
          [SetXlim (- (2 # 10)) (105 # 100);
           explanation_call l0 l3 (fontsize kw')] ++
          legend_calls kw'.
Proof.
  intros Hv Hhint. unfold draw_pseudovenn6.
  rewrite (decorated_run color validate_arguments _ kw kw' ax Hv).
  unfold draw_pseudovenn6_body.
  intros (n & ? & [Hn ->]%draw_lift_inv & Hrun)%draw_bind_inv.
  apply draw_bind_inv in Hrun as ([] & ? & [Hsix ->]%draw_lift_inv & Hrun).
  destruct (n =? 6) eqn:Hn6; [|discriminate Hsix].
  apply Nat.eqb_eq in Hn6. subst n. split; [done|].
  destruct (get_n_sets_Ok_inv _ _ _ Hn) as [Hnames _].
  destruct (lookup_lt_is_Some_2 (dataset_labels kw') 0) as [l0 Hl0]; [lia|].
  destruct (lookup_lt_is_Some_2 (dataset_labels kw') 3) as [l3 Hl3]; [lia|].
  unfold draw_pseudovenn6_shapes in Hrun. rewrite Hhint in Hrun.
  apply draw_bind_inv in Hrun
    as ([] & ax1 & (patches & -> & Hlen & Hps)%ellipses_drawn_inv & Hrun).
  apply draw_bind_inv in Hrun as (hidden & ax2 & Hpet & Hrun).
  exists patches, hidden, ax2, l0, l3. split_and!; [done..|].
  rewrite (draw_bind_run _ _ _
             (ax2 ++ (hint_call (fontsize kw') <$> zip (seq 0 6) hidden) ++
              [SetXlim (- (2 # 10)) (105 # 100);
               explanation_call l0 l3 (fontsize kw')]) ()) in Hrun.
  - rewrite draw_legend_run in Hrun. injection Hrun as <-.
    by rewrite <- !app_assoc.
  - rewrite (draw_bind_run _ _ _ _ _
               (for_each_emit (hint_call (fontsize kw')) _ _ _
                  (λ _ _, eq_refl))).
    rewrite draw_bind_emit. unfold draw_hint_explanation, list_index.
    rewrite Hl0, Hl3, !draw_bind_lift_Ok. unfold emit.
    f_equal. rewrite <- !app_assoc. reflexivity.
Qed.

(** When [draw_pseudovenn6] returns with hints on, every undisplayed code
    with a ["1"] carried a label that [int] reads, and the axes hold, after
    what was there and the styling: the ellipses; the displayed labels, in
    mapping order; six hints, the [i]-th showing the sum of the undisplayed
    labels whose code has ["1"] at [i]; the wider horizontal limits; the
    explanation naming the first and the fourth dataset; and the legend if
    a location was given. *)
Theorem pseudovenn6_hint_layout (kw kw' : kwargs color)
    (ax : option (axes color)) (ax' : axes color)
    (tbl : gmap string (Q * Q)) :
  validate_arguments kw = Ok kw' →
  hint_hidden kw' = true →
  PSEUDOVENN_PETAL_COORDS !! 6 = Some tbl →
  NoDup (Dict.keys (petal_labels kw')) →
  pseudovenn6 kw ax = (Ok (), ax') →
  forallb (countable tbl) (petal_labels kw') = true ∧
  ∃ patches l0 l3,
    length patches = 6 `min` length (colors kw') ∧
    Forall (λ c, is_ellipse c = true) patches ∧
    dataset_labels kw' !! 0 = Some l0 ∧
    dataset_labels kw' !! 3 = Some l3 ∧
    ax' = (default [] ax ++ [SetStyle]) ++ patches ++
          concat (label_text tbl (fontsize kw') <$> petal_labels kw') ++
          (hint_call (fontsize kw') <$>
             zip (seq 0 6)
               ((λ i, sumZ (hidden_part tbl i <$> petal_labels kw'))
                  <$> seq 0 6)) ++
          [SetXlim (- (2 # 10)) (105 # 100);
           explanation_call l0 l3 (fontsize kw')] ++
          legend_calls kw'.
Proof.
  intros Hv Hhint Htbl Hnd Hrun.
  destruct (pseudovenn6_hint_run kw kw' ax ax' Hv Hhint Hrun)
    as (Hn & patches & hidden & ax2 & l0 & l3 & Hlen & Hps & Hpet
        & Hl0 & Hl3 & ->).
  destruct (get_n_sets_Ok_inv _ _ _ Hn) as [_ Hkeys].
  apply (petals_hints_inv tbl) in Hpet as (Hok & -> & ->); [|done|].
  2: { intros c l Hin. split; [|by apply dict_get_NoDup].
       rewrite length_replicate, (Hkeys c); [done|].
       apply list_elem_of_fmap. by exists (c, l). }
  split; [done|]. exists patches, l0, l3. split_and!; [done..|].
  rewrite <- !app_assoc. reflexivity.
Qed.

(** With hints, the first undisplayed code with a ["1"] whose label [int]
    refuses makes [draw_pseudovenn6] raise [ValueError], the labels before
    it being within the length [int] converts; the ellipses and the labels
    displayed before it stay on the axes, and neither a hint nor the
    legend is drawn. *)
Theorem pseudovenn6_bad_label (kw kw' : kwargs color)
    (ax : option (axes color)) (tbl : gmap string (Q * Q))
    (before after : list (string * string)) (c l : string) :
  validate_arguments kw = Ok kw' →
  get_n_sets (petal_labels kw') (dataset_labels kw') = Ok 6 →
  hint_hidden kw' = true →
  PSEUDOVENN_PETAL_COORDS !! 6 = Some tbl →
  usable_colors (colors kw') = true →
  NoDup (Dict.keys (petal_labels kw')) →
  petal_labels kw' = before ++ (c, l) :: after →
  short_labels before = true →
  forallb (countable tbl) before = true →
  countable tbl (c, l) = false →
  ∃ patches,
    length patches = 6 `min` length (colors kw') ∧
    Forall (λ c, is_ellipse c = true) patches ∧
    pseudovenn6 kw ax
    = (Err ValueError,
       (default [] ax ++ [SetStyle]) ++ patches ++
       concat (label_text tbl (fontsize kw') <$> before)).
Proof.
  intros Hv Hn Hhint Htbl Hcs Hnd Hsplit _ Hok Hbad.
  destruct (ellipses_drawn (colors kw') (default [] ax ++ [SetStyle]) Hcs)
    as (patches & Hrun & Hlen & Hps).
  destruct (get_n_sets_Ok_inv _ _ _ Hn) as [Hnames Hkeys].
  exists patches. split_and!; [done..|].
  rewrite (pseudovenn6_accepted kw kw' ax Hv Hn).
  unfold draw_pseudovenn6_shapes.
  rewrite (draw_bind_run _ _ _ _ _ Hrun), Hhint.
  unfold mbind at 1, draw_bind at 1.
  rewrite Hsplit at 2.
  rewrite (petals_bad_label tbl _ (petal_labels kw') before after c l
             (replicate 6 0%Z) _ Htbl); [by rewrite <- !app_assoc| |done..].
  intros c' l' Hin. rewrite <- Hsplit in Hin.
  split; [|by apply dict_get_NoDup].
  rewrite length_replicate, (Hkeys c'); [done|].
  apply list_elem_of_fmap. by exists (c', l').
Qed.

End PseudovennLayout.

(** ** The hints of the pseudo-Venn diagram *)

Section HintAccounting.

Context `{Countable A}.
Variable color : Type.
Variable format_other : string -> fields -> result string.
Variable to_rgba : color -> option Q -> result rgba.
Variable PSEUDOVENN_PETAL_COORDS : gmap nat (gmap string (Q * Q)).
Variables cos sin : Q -> Q.
Variable pi : Q.
Variable validate_arguments : kwargs color -> result (kwargs color).

(** C4: six sets, their labels generated with the default template and
    handed over by the validation, [hint_hidden] on.  When
    [draw_pseudovenn6] returns, the axes hold, after the ellipses and the
    displayed labels, six hints showing the counters of the six sets, then
    the limits, the explanation and the legend; and for every set, the
    counter in its hint plus the sizes of the displayed codes (those in
    the pseudo-Venn position table) whose bit for the set is 1 equals the
    cardinality of the set. *)
Theorem hidden_hint_accounting (datasets : list (gset A))
    (labels : Dict.t string) (tbl : gmap string (Q * Q))
    (kw kw' : kwargs color) (ax : option (axes color)) (ax' : axes color) :
  length datasets = 6 →
  generate_petal_labels format_other datasets "{size}" = Ok labels →
  PSEUDOVENN_PETAL_COORDS !! 6 = Some tbl →
  validate_arguments kw = Ok kw' →
  petal_labels kw' = labels → hint_hidden kw' = true →
  draw_pseudovenn6 color to_rgba PSEUDOVENN_PETAL_COORDS cos sin pi
    validate_arguments kw ax = (Ok (), ax') →
  ∃ (patches : list (call color)) (hidden : list Z) (l0 l3 : string),
    length patches = 6 `min` length (colors kw') ∧
    Forall (λ c, is_ellipse c = true) patches ∧
    length hidden = 6 ∧
    ax' = (default [] ax ++ [SetStyle]) ++ patches ++
          concat (label_text tbl (fontsize kw') <$> labels) ++
          (hint_call color cos sin pi (fontsize kw')
             <$> zip (seq 0 6) hidden) ++
          [SetXlim (- (2 # 10)) (105 # 100);
           explanation_call color l0 l3 (fontsize kw')] ++
          legend_calls kw' ∧
    ∀ i S, datasets !! i = Some S →
      ∃ h, hidden !! i = Some h ∧
           (h + sumZ (displayed_part tbl i <$> labels))%Z = Z.of_nat (size S).
Proof.
  intros Hsix Hl Htbl Hv Hlabels Hhint Hrun.
  destruct (pseudovenn6_hint_run color to_rgba PSEUDOVENN_PETAL_COORDS
              cos sin pi validate_arguments kw kw' ax ax' Hv Hhint Hrun)
    as (Hn & patches & hidden & ax2 & l0 & l3 & Hlen & Hps & Hpet
        & Hl0 & Hl3 & ->).
  destruct (hidden_counters_accounting color format_other
              PSEUDOVENN_PETAL_COORDS datasets labels tbl kw'
              ((default [] ax ++ [SetStyle]) ++ patches)
              Hsix Hl Htbl Hlabels Hhint)
    as (hidden0 & new & Hloop & Hcount & Hsum).
  rewrite Hhint in Hloop. rewrite Hpet in Hloop.
  injection Hloop as <- _.
  destruct (get_n_sets_Ok_inv _ _ _ Hn) as [_ Hkeys].
  apply (petals_hints_inv color PSEUDOVENN_PETAL_COORDS tbl) in Hpet
    as (_ & _ & ->); [|done|].
  2: { intros c l Hin. split.
       - rewrite length_replicate, (Hkeys c); [done|].
         apply list_elem_of_fmap. by exists (c, l).
       - apply dict_get_NoDup; [|done].
         rewrite Hlabels, (generate_petal_labels_keys _ _ _ _ Hl).
         apply logic_codes_NoDup. }
  exists patches, hidden, l0, l3. rewrite <- Hlabels.
  split_and!; [done..| |by rewrite Hlabels].
  by rewrite <- !app_assoc.
Qed.

End HintAccounting.


(** Six datasets, the second label under an undisplayed code. *)
Definition kw_counts (second : string) : kwargs rgba :=
  Kwargs [("100000", "1"); ("010101", second); ("111111", "3");
          ("000011", "4")]
    ["A"; "B"; "C"; "D"; "E"; "F"] true Sample.colors2 13 None.


Lemma pseudovenn6_hint_layout_witness :
  (Sample.validate_arguments (kw_counts "20") = Ok (kw_counts "20") ∧
   hint_hidden (kw_counts "20") = true ∧
   Sample.PSEUDOVENN_PETAL_COORDS !! 6 = Some Six.table ∧
   NoDup (Dict.keys (petal_labels (kw_counts "20"))) ∧
   Sample.draw_pseudovenn6 (kw_counts "20") None
   = (Ok (), (Sample.draw_pseudovenn6 (kw_counts "20") None).2)) ∧
  forallb (countable Six.table) (petal_labels (kw_counts "20")) = true ∧
  ∃ patches l0 l3,
    length patches = 6 `min` length (colors (kw_counts "20")) ∧
    Forall (λ c, is_ellipse c = true) patches ∧
    dataset_labels (kw_counts "20") !! 0 = Some l0 ∧
    dataset_labels (kw_counts "20") !! 3 = Some l3 ∧
    (Sample.draw_pseudovenn6 (kw_counts "20") None).2
    = (default [] None ++ [SetStyle]) ++ patches ++
      concat (label_text Six.table (fontsize (kw_counts "20"))
                <$> petal_labels (kw_counts "20")) ++
      (hint_call rgba Sample.cos Sample.sin Sample.pi
         (fontsize (kw_counts "20")) <$>
         zip (seq 0 6)
           ((λ i, sumZ (hidden_part Six.table i
                          <$> petal_labels (kw_counts "20"))) <$> seq 0 6))
      ++ [SetXlim (- (2 # 10)) (105 # 100);
          explanation_call rgba l0 l3 (fontsize (kw_counts "20"))] ++
      legend_calls (kw_counts "20").
Proof.
  assert (NoDup (Dict.keys (petal_labels (kw_counts "20")))) as Hnd
    by (apply (bool_decide_unpack _); vm_compute; reflexivity).
  split; [split_and!; (reflexivity || exact Hnd)|].
  apply (pseudovenn6_hint_layout rgba tuple_to_rgba
           Sample.PSEUDOVENN_PETAL_COORDS Sample.cos Sample.sin Sample.pi
           Sample.validate_arguments (kw_counts "20") (kw_counts "20") None
           (Sample.draw_pseudovenn6 (kw_counts "20") None).2
           Six.table); (reflexivity || exact Hnd).
Defined.

Lemma pseudovenn6_bad_label_witness :
  (Sample.validate_arguments (kw_counts "many") = Ok (kw_counts "many") ∧
   get_n_sets (petal_labels (kw_counts "many"))
     (dataset_labels (kw_counts "many")) = Ok 6 ∧
   hint_hidden (kw_counts "many") = true ∧
   Sample.PSEUDOVENN_PETAL_COORDS !! 6 = Some Six.table ∧
   usable_colors rgba tuple_to_rgba (colors (kw_counts "many")) = true ∧
   NoDup (Dict.keys (petal_labels (kw_counts "many"))) ∧
   petal_labels (kw_counts "many")
   = [("100000", "1")] ++
     ("010101", "many") :: [("111111", "3"); ("000011", "4")] ∧
   short_labels [("100000", "1")] = true ∧
   forallb (countable Six.table) [("100000", "1")] = true ∧
   countable Six.table ("010101", "many") = false) ∧
  ∃ patches,
    length patches = 6 `min` length (colors (kw_counts "many")) ∧
    Forall (λ c, is_ellipse c = true) patches ∧
    Sample.draw_pseudovenn6 (kw_counts "many") None
    = (Err ValueError,
       (default [] None ++ [SetStyle]) ++ patches ++
       concat (label_text Six.table (fontsize (kw_counts "many"))
                 <$> [("100000", "1")])).
Proof.
  assert (NoDup (Dict.keys (petal_labels (kw_counts "many")))) as Hnd
    by (apply (bool_decide_unpack _); vm_compute; reflexivity).
  split; [split_and!; (reflexivity || exact Hnd)|].
  apply (pseudovenn6_bad_label rgba tuple_to_rgba
           Sample.PSEUDOVENN_PETAL_COORDS Sample.cos Sample.sin Sample.pi
           Sample.validate_arguments (kw_counts "many") (kw_counts "many")
           None Six.table [("100000", "1")]
           [("111111", "3"); ("000011", "4")] "010101" "many");
    (reflexivity || exact Hnd).
Defined.

Lemma hidden_hint_accounting_witness :
  (length Six.sets = 6 ∧
   generate_petal_labels no_format Six.sets "{size}" = Ok Six.labels ∧
   Sample.PSEUDOVENN_PETAL_COORDS !! 6 = Some Six.table ∧
   Sample.validate_arguments Six.kw = Ok Six.kw ∧
   petal_labels Six.kw = Six.labels ∧ hint_hidden Six.kw = true ∧
   Sample.draw_pseudovenn6 Six.kw None
   = (Ok (), (Sample.draw_pseudovenn6 Six.kw None).2)) ∧
  ∃ (patches : list (call rgba)) (hidden : list Z) (l0 l3 : string),
    length patches = 6 `min` length (colors Six.kw) ∧
    Forall (λ c, is_ellipse c = true) patches ∧
    length hidden = 6 ∧
    (Sample.draw_pseudovenn6 Six.kw None).2
    = (default [] None ++ [SetStyle]) ++ patches ++
      concat (label_text Six.table (fontsize Six.kw) <$> Six.labels) ++
      (hint_call rgba Sample.cos Sample.sin Sample.pi (fontsize Six.kw)
         <$> zip (seq 0 6) hidden) ++
      [SetXlim (- (2 # 10)) (105 # 100);
       explanation_call rgba l0 l3 (fontsize Six.kw)] ++
      legend_calls Six.kw ∧
    ∀ i S, Six.sets !! i = Some S →
      ∃ h, hidden !! i = Some h ∧
           (h + sumZ (displayed_part Six.table i <$> Six.labels))%Z
           = Z.of_nat (size S).
Proof.
  assert (generate_petal_labels no_format Six.sets "{size}" = Ok Six.labels)
    as Hl by (vm_compute; reflexivity).
  assert (Sample.draw_pseudovenn6 Six.kw None
          = (Ok (), (Sample.draw_pseudovenn6 Six.kw None).2)) as Hrun
    by (vm_compute; reflexivity).
  split; [split_and!; [reflexivity | exact Hl | reflexivity.. | exact Hrun]|].
  apply (hidden_hint_accounting rgba no_format tuple_to_rgba
           Sample.PSEUDOVENN_PETAL_COORDS Sample.cos Sample.sin Sample.pi
           Sample.validate_arguments Six.sets Six.labels Six.table
           Six.kw Six.kw None (Sample.draw_pseudovenn6 Six.kw None).2);
    [reflexivity | exact Hl | reflexivity.. | vm_compute; reflexivity].
Defined.

Example draw_pseudovenn6_counts :
  Six.texts (Sample.draw_pseudovenn6 (kw_counts "20") None).2
  = ["1"; "3";
     "0" +:+ newline +:+ " n/d*"; "20" +:+ newline +:+ " n/d*";
     "0" +:+ newline +:+ " n/d*"; "20" +:+ newline +:+ " n/d*";
     "4" +:+ newline +:+ " n/d*"; "24" +:+ newline +:+ " n/d*";
     "* elements of set in intersections that are not displayed," +:+
     newline +:+ "such as shared only between A and D"].
Proof. vm_compute. reflexivity. Qed.

(** ** More on the dispatcher *)

(** The test of the first lines of [_venn_dispatch]. *)
Definition guarded (func : composer) (fmt : option string) (hint : bool)
    : bool :=
  hint && bool_decide (func = DrawPseudovenn6) && unsupported_fmt fmt.

Section MoreDispatch.

Context `{Countable A}.
Variables color cmap_id : Type.
Variable format_other : string -> fields -> result string.
Variable to_rgba : color -> option Q -> result rgba.
Variable cmap_to_rgba : cmap_id -> list nat -> Q -> result (list rgba).
Variable rgba_color : rgba -> color.
Variables SHAPE_COORDS SHAPE_DIMS : gmap nat (list (list arg)).
Variable SHAPE_ANGLES : gmap nat (list arg).
Variables PETAL_LABEL_COORDS PSEUDOVENN_PETAL_COORDS
  : gmap nat (gmap string (Q * Q)).
Variables cos sin : Q -> Q.
Variable pi : Q.
Variable validate_arguments : kwargs color -> result (kwargs color).

#[local] Abbreviation dispatcher :=
  (_venn_dispatch color cmap_id format_other to_rgba cmap_to_rgba rgba_color
     SHAPE_COORDS SHAPE_DIMS SHAPE_ANGLES PETAL_LABEL_COORDS
     PSEUDOVENN_PETAL_COORDS cos sin pi validate_arguments).
#[local] Abbreviation palette :=
  (generate_colors color cmap_id to_rgba cmap_to_rgba).

(** The labels handed to the composer: those given, or else those
    generated from the sets. *)
Definition labels_for (data : list (string * gset A))
    (labels : option (Dict.t string)) (fmt : option string)
    : result (Dict.t string) :=
  match labels with
  | Some l => Ok l
  | None => generate_petal_labels format_other data.*2 (fmt_or_default fmt)
  end.

Lemma empty_universe_fails (datasets : list (gset A)) (fmt : string) :
  datasets ≠ [] →
  (∀ S, S ∈ datasets → S = ∅) →
  generate_petal_labels format_other datasets fmt = Err ZeroDivisionError.
Proof.
  intros Hn Hempty. unfold generate_petal_labels.
  destruct (set_union datasets) as [U|e] eqn:HU.
  2: { by destruct datasets. }
  assert (U = ∅) as ->.
  { apply set_eq. intros x. rewrite (set_union_elem _ _ x HU).
    split; [|by intros ?%elem_of_empty].
    intros (S & HS & Hx). by rewrite (Hempty S HS) in Hx. }
  result_steps. destruct (logic_codes (length datasets)) as [|c codes] eqn:Hc.
  { apply (f_equal length) in Hc. rewrite logic_codes_length in Hc.
    assert (2 ^ 1 ≤ 2 ^ length datasets).
    { apply Nat.pow_le_mono_r; [lia|]. destruct datasets; [done | simpl; lia]. }
    simpl in *. lia. }
  assert (is_logic_code (length datasets) c) as Hcode.
  { apply logic_codes_elem. rewrite Hc. by left. }
  destruct (petal_set_code datasets ∅ c Hcode) as (P & HP & _).
  cbn [petal_loop]. rewrite HP. result_steps.
  unfold petal_fields. by rewrite size_empty.
Qed.

(** With explicit petal labels the sets are never looked at: two calls
    that agree on the dataset names, and on whether the template test
    fires, behave alike whatever the sets hold. *)
Theorem dispatch_given_labels (data data' : list (string * gset A))
    (func : composer) (labels : Dict.t string) (fmt fmt' : option string)
    (hint : bool) (size : Q) (cmap : cmap_arg color cmap_id) (alpha : Q)
    (loc : option string) (ax : option (axes color)) :
  data.*1 = data'.*1 →
  guarded func fmt hint = guarded func fmt' hint →
  dispatcher data func (Some labels) fmt hint size cmap alpha loc ax
  = dispatcher data' func (Some labels) fmt' hint size cmap alpha loc ax.
Proof.
  intros Hnames Hguard. unfold _venn_dispatch. unfold guarded in Hguard.
  rewrite Hguard, Hnames.
  assert (length data = length data') as ->; [|done].
  by rewrite <- (length_fmap fst data), Hnames, length_fmap.
Qed.

(** Once the labels are there, a number of datasets outside [2..6] makes
    the dispatcher raise the [ValueError] of [generate_colors], for either
    composer: the composer is not called, and the axes are handed back as
    they came. *)
Theorem dispatch_count_out_of_range (data : list (string * gset A))
    (func : composer) (labels : option (Dict.t string)) (fmt : option string)
    (hint : bool) (size : Q) (cmap : cmap_arg color cmap_id) (alpha : Q)
    (loc : option string) (ax : option (axes color)) :
  guarded func fmt hint = false →
  is_ok (labels_for data labels fmt) = true →
  length data < 2 ∨ 6 < length data →
  dispatcher data func labels fmt hint size cmap alpha loc ax
  = (Err ValueError, ax).
Proof.
  intros Hguard Hlabels Hn. unfold _venn_dispatch, labels_for, guarded in *.
  rewrite Hguard.
  rewrite (generate_colors_invalid color cmap_id to_rgba cmap_to_rgba).
  2: { simpl. intros n [= <-]. lia. }
  destruct labels as [l|]; [done|].
  by destruct (generate_petal_labels _ _ _).
Qed.

(** Without explicit labels, datasets that are all empty make the
    dispatcher raise [ZeroDivisionError], whatever their number; the axes
    are handed back as they came. *)
Theorem dispatch_empty_universe (data : list (string * gset A))
    (func : composer) (fmt : option string)
    (hint : bool) (size : Q) (cmap : cmap_arg color cmap_id) (alpha : Q)
    (loc : option string) (ax : option (axes color)) :
  guarded func fmt hint = false →
  data ≠ [] →
  (∀ S, S ∈ data.*2 → S = ∅) →
  dispatcher data func None fmt hint size cmap alpha loc ax
  = (Err ZeroDivisionError, ax).
Proof.
  intros Hguard Hdata Hempty. unfold _venn_dispatch. unfold guarded in Hguard.
  rewrite Hguard, empty_universe_fails; [done| |done].
  by destruct data.
Qed.

(** The empty template: [fmt or "{size}"] takes it for the default one,
    but the test of the first lines does not. *)
Theorem dispatch_empty_fmt (data : list (string * gset A))
    (func : composer) (labels : option (Dict.t string))
    (hint : bool) (size : Q) (cmap : cmap_arg color cmap_id) (alpha : Q)
    (loc : option string) (ax : option (axes color)) :
  dispatcher data func labels (Some "") hint size cmap alpha loc ax
  = if hint && bool_decide (func = DrawPseudovenn6)
    then (Err NotImplementedError, ax)
    else dispatcher data func labels None hint size cmap alpha loc ax.
Proof.
  unfold _venn_dispatch.
  destruct (hint && bool_decide (func = DrawPseudovenn6)); reflexivity.
Qed.

(** With generated labels and colors, and arguments that the validation
    hands on as they are, the checks of the composers on the number [N] of
    sets collapse: [N] is between 2 and 6, [draw_venn] goes straight to
    its drawing with the wrapper for [N], and [draw_pseudovenn6] raises
    [NotImplementedError] exactly when [N] is not 6, the axes then being
    created and styled all the same. *)
Theorem dispatch_composed (data : list (string * gset A))
    (func : composer) (fmt : option string)
    (hint : bool) (size : Q) (cmap : cmap_arg color cmap_id) (alpha : Q)
    (loc : option string) (ax : option (axes color))
    (pl : Dict.t string) (cs : list rgba) :
  guarded func fmt hint = false →
  generate_petal_labels format_other data.*2 (fmt_or_default fmt) = Ok pl →
  palette cmap (PyInteger (Z.of_nat (length data))) alpha = Ok cs →
  let kw := Kwargs pl data.*1 hint (rgba_color <$> cs) size loc in
  validate_arguments kw = Ok kw →
  2 ≤ length data ≤ 6 ∧
  dispatcher data func None fmt hint size cmap alpha loc ax
  = let ax1 := default [] ax ++ [SetStyle] in
    let '(r, ax') :=
      match func with
      | DrawVenn =>
          draw_venn_shapes color SHAPE_COORDS SHAPE_DIMS SHAPE_ANGLES
            PETAL_LABEL_COORDS kw (length data)
            (if length data =? 6 then draw_triangle color to_rgba
             else draw_ellipse color to_rgba) ax1
      | DrawPseudovenn6 =>
          if length data =? 6
          then draw_pseudovenn6_shapes color to_rgba PSEUDOVENN_PETAL_COORDS
                 cos sin pi kw 6 ax1
          else (Err NotImplementedError, ax1)
      end in
    (r, Some ax').
Proof.
  intros Hguard Hl Hc kw Hv.
  assert (2 ≤ length data ≤ 6) as Hrange.
  { destruct (decide (2 ≤ length data ≤ 6)) as [|Hout]; [done|].
    rewrite (generate_colors_invalid color cmap_id to_rgba cmap_to_rgba)
      in Hc; [done|].
    simpl. intros n [= <-]. lia. }
  split; [done|].
  assert (get_n_sets (petal_labels kw) (dataset_labels kw)
          = Ok (length data)) as Hn.
  { unfold get_n_sets. simpl.
    rewrite (generate_petal_labels_keys _ _ _ _ Hl), !length_fmap.
    rewrite check_keys_good; [done|].
    by intros k (? & ? & _)%logic_codes_elem. }
  unfold _venn_dispatch. unfold guarded in Hguard. rewrite Hguard, Hl, Hc.
  result_steps. fold kw. cbv zeta.
  destruct func; unfold call_composer.
  - unfold draw_venn.
    rewrite (decorated_run color validate_arguments _ kw kw ax Hv).
    unfold draw_venn_body. rewrite Hn, draw_bind_lift_Ok.
    destruct (length data =? 6) eqn:Hsix.
    + apply Nat.eqb_eq in Hsix. rewrite Hsix. reflexivity.
    + apply Nat.eqb_neq in Hsix.
      replace ((2 <=? length data) && (length data <? 6)) with true; [done|].
      symmetry. apply andb_true_intro.
      split; [apply Nat.leb_le | apply Nat.ltb_lt]; lia.
  - unfold draw_pseudovenn6.
    rewrite (decorated_run color validate_arguments _ kw kw ax Hv).
    unfold draw_pseudovenn6_body. rewrite Hn, draw_bind_lift_Ok.
    destruct (length data =? 6) eqn:Hsix; [|done].
    apply Nat.eqb_eq in Hsix. rewrite Hsix. reflexivity.
Qed.

End MoreDispatch.

(** The two sets of the example under their names, and the same names
    over empty sets. *)
Definition data_ab : list (string * gset Z) :=
  [("A", {[1; 2; 3]}); ("B", {[2; 3; 4]})]%Z.
Definition data_empty : list (string * gset Z) := [("A", ∅); ("B", ∅)].

Definition labels_ab : Dict.t string := [("01", "1"); ("10", "1"); ("11", "2")].

(** Two shades of the gray colormap. *)
Definition gray2 : list rgba :=
  Eval vm_compute in
    match gray_to_rgba () (seq 0 2) (4 # 10) with
    | Ok l => l
    | Err _ => []
    end.

Lemma dispatch_given_labels_witness :
  (data_ab.*1 = data_empty.*1 ∧
   guarded DrawVenn None true = guarded DrawVenn (Some "{percentage}") true) ∧
  Sample._venn_dispatch data_ab DrawVenn (Some labels_ab) None true 13
    (CmapId ()) (4 # 10) None None
  = Sample._venn_dispatch data_empty DrawVenn (Some labels_ab)
      (Some "{percentage}") true 13 (CmapId ()) (4 # 10) None None.
Proof.
  split; [split; reflexivity|].
  apply (dispatch_given_labels rgba unit no_format tuple_to_rgba
           gray_to_rgba id Sample.SHAPE_COORDS Sample.SHAPE_DIMS
           Sample.SHAPE_ANGLES Sample.PETAL_LABEL_COORDS
           Sample.PSEUDOVENN_PETAL_COORDS Sample.cos Sample.sin Sample.pi
           Sample.validate_arguments); reflexivity.
Defined.

Lemma dispatch_count_out_of_range_witness :
  (guarded DrawPseudovenn6 None true = false ∧
   is_ok (labels_for no_format [("A", {[1; 2]}%Z)] None None) = true ∧
   (length [("A", ({[1; 2]} : gset Z)%Z)] < 2 ∨
    6 < length [("A", ({[1; 2]} : gset Z)%Z)])) ∧
  Sample._venn_dispatch [("A", {[1; 2]}%Z)] DrawPseudovenn6 None None true 13
    (CmapId ()) (4 # 10) None None
  = (Err ValueError, None).
Proof.
  split; [split_and!; [reflexivity | vm_compute; reflexivity | left; simpl; lia]|].
  apply (dispatch_count_out_of_range rgba unit no_format tuple_to_rgba
           gray_to_rgba id Sample.SHAPE_COORDS Sample.SHAPE_DIMS
           Sample.SHAPE_ANGLES Sample.PETAL_LABEL_COORDS
           Sample.PSEUDOVENN_PETAL_COORDS Sample.cos Sample.sin Sample.pi
           Sample.validate_arguments);
    [reflexivity | vm_compute; reflexivity | left; simpl; lia].
Defined.

Lemma dispatch_empty_universe_witness :
  (guarded DrawVenn None false = false ∧
   [("A", (∅ : gset Z))] ≠ [] ∧
   (∀ S, S ∈ [("A", (∅ : gset Z))].*2 → S = ∅)) ∧
  Sample._venn_dispatch [("A", ∅)] DrawVenn None None false 13
    (CmapId ()) (4 # 10) None (Some [])
  = (Err ZeroDivisionError, Some []).
Proof.
  assert (∀ S, S ∈ [("A", (∅ : gset Z))].*2 → S = ∅) as Hempty.
  { intros S HS. apply list_elem_of_singleton in HS. exact HS. }
  split; [split_and!; [reflexivity | discriminate | exact Hempty]|].
  apply (dispatch_empty_universe rgba unit no_format tuple_to_rgba
           gray_to_rgba id Sample.SHAPE_COORDS Sample.SHAPE_DIMS
           Sample.SHAPE_ANGLES Sample.PETAL_LABEL_COORDS
           Sample.PSEUDOVENN_PETAL_COORDS Sample.cos Sample.sin Sample.pi
           Sample.validate_arguments);
    [reflexivity | discriminate | exact Hempty].
Defined.

Lemma dispatch_composed_witness :
  (guarded DrawPseudovenn6 None true = false ∧
   generate_petal_labels no_format data_ab.*2 (fmt_or_default None)
   = Ok labels_ab ∧
   generate_colors rgba unit tuple_to_rgba gray_to_rgba (CmapId ())
     (PyInteger (Z.of_nat (length data_ab))) (4 # 10) = Ok gray2 ∧
   Sample.validate_arguments
     (Kwargs labels_ab data_ab.*1 true (id <$> gray2) 13 None)
   = Ok (Kwargs labels_ab data_ab.*1 true (id <$> gray2) 13 None)) ∧
  2 ≤ length data_ab ≤ 6 ∧
  Sample._venn_dispatch data_ab DrawPseudovenn6 None None true 13
    (CmapId ()) (4 # 10) None None
  = (Err NotImplementedError, Some [SetStyle]).
Proof.
  split; [split_and!; (reflexivity || (vm_compute; reflexivity))|].
  apply (dispatch_composed rgba unit no_format tuple_to_rgba
           gray_to_rgba id Sample.SHAPE_COORDS Sample.SHAPE_DIMS
           Sample.SHAPE_ANGLES Sample.PETAL_LABEL_COORDS
           Sample.PSEUDOVENN_PETAL_COORDS Sample.cos Sample.sin Sample.pi
           Sample.validate_arguments data_ab DrawPseudovenn6 None true 13
           (CmapId ()) (4 # 10) None None labels_ab gray2);
    (reflexivity || (vm_compute; reflexivity)).
Defined.

(** ** When [draw_venn] returns *)

Lemma for_each_ok {color X} (l : list X) (body : X → draw color unit)
    (ax : axes color) :
  (∀ x, x ∈ l → ∀ ax, ∃ ax', body x ax = (Ok (), ax')) →
  ∃ ax', for_each l body ax = (Ok (), ax').
Proof.
  revert ax. induction l as [|x l IH]; intros ax Hbody; simpl.
  - by exists ax.
  - destruct (Hbody x (list_elem_of_here _ _) ax) as (ax1 & Hx).
    rewrite (draw_bind_run _ _ _ _ _ Hx). apply IH.
    intros y Hy. apply Hbody. by right.
Qed.

Section VennReturns.

Variable color : Type.
Variable to_rgba : color -> option Q -> result rgba.
Variables SHAPE_COORDS SHAPE_DIMS : gmap nat (list (list arg)).
Variable SHAPE_ANGLES : gmap nat (list arg).
Variable PETAL_LABEL_COORDS : gmap nat (gmap string (Q * Q)).
Variable validate_arguments : kwargs color -> result (kwargs color).

(** Every value is a number. *)
Definition numeric (args : list arg) : bool :=
  forallb (λ a : arg, match a with Some _ => true | None => false end) args.

(** The positional values [args] suit the wrapper for [n_sets]: five
    numbers for an ellipse; eight values for a triangle, the six
    coordinates being numbers. *)
Definition drawable (n_sets : nat) (args : list arg) : bool :=
  if n_sets =? 6 then (length args =? 8) && numeric (take 6 args)
  else (length args =? 5) && numeric args.

(** The legend locations matplotlib names. *)
Definition known_locations : list string :=
  ["best"; "upper right"; "upper left"; "lower left"; "lower right";
   "right"; "center left"; "center right"; "lower center"; "upper center";
   "center"].

(** No legend is asked for, or it is asked for at a named location. *)
Definition legend_placed (kw : kwargs color) : bool :=
  match legend_loc kw with
  | None => true
  | Some loc => bool_decide (loc ∈ known_locations)
  end.

Lemma draw_ellipse_ok (args : list arg) (c : color) (ax : axes color) :
  length args = 5 →
  is_ok (less_transparent_color color to_rgba c 2) = true →
  ∃ ax', draw_ellipse color to_rgba args c ax = (Ok (), ax').
Proof.
  intros Hlen Hc. unfold draw_ellipse.
  destruct args as [|x [|y [|w [|h [|a [|? ?]]]]]]; try done.
  destruct (less_transparent_color color to_rgba c 2) as [edge|]; [|done].
  rewrite draw_bind_lift_Ok. by eexists.
Qed.

Lemma draw_triangle_ok (args : list arg) (c : color) (ax : axes color) :
  length args = 8 →
  is_ok (less_transparent_color color to_rgba c 2) = true →
  ∃ ax', draw_triangle color to_rgba args c ax = (Ok (), ax').
Proof.
  intros Hlen Hc. unfold draw_triangle.
  destruct args as [|x1 [|y1 [|x2 [|y2 [|x3 [|y3 [|d [|a [|? ?]]]]]]]]];
    try done.
  destruct (less_transparent_color color to_rgba c 2) as [edge|]; [|done].
  rewrite draw_bind_lift_Ok. by eexists.
Qed.

Lemma venn_shapes_ok (kw : kwargs color) (n_sets : nat)
    (draw_shape : list arg → color → draw color unit)
    (coords dims : list (list arg)) (angles : list arg) (ax : axes color) :
  SHAPE_COORDS !! n_sets = Some coords →
  SHAPE_DIMS !! n_sets = Some dims →
  SHAPE_ANGLES !! n_sets = Some angles →
  is_Some (PETAL_LABEL_COORDS !! n_sets) →
  (∀ cs ds angle c ax,
     (cs, ds, angle) ∈ zip (zip coords dims) angles → c ∈ colors kw →
     ∃ ax', draw_shape (cs ++ ds ++ [angle]) c ax = (Ok (), ax')) →
  ∃ ax', draw_venn_shapes color SHAPE_COORDS SHAPE_DIMS SHAPE_ANGLES
           PETAL_LABEL_COORDS kw n_sets draw_shape ax = (Ok (), ax').
Proof.
  intros Hc Hd Ha [tbl Htbl] Hshape. unfold draw_venn_shapes, table_get.
  rewrite Hc, Hd, Ha, !draw_bind_lift_Ok.
  destruct (for_each_ok (zip (zip (zip coords dims) angles) (colors kw))
              (λ '(cs, ds, angle, c), draw_shape (cs ++ ds ++ [angle]) c) ax)
    as (ax1 & Hshapes).
  { intros [[[cs ds] angle] c] Hin ax0. apply Hshape.
    - by apply elem_of_zip_l in Hin.
    - by apply elem_of_zip_r in Hin. }
  rewrite (draw_bind_run _ _ _ _ _ Hshapes).
  destruct (for_each_ok (petal_labels kw)
              (venn_petal color PETAL_LABEL_COORDS n_sets (fontsize kw)) ax1)
    as (ax2 & Htexts).
  { intros item _ ax0. unfold venn_petal, table_get.
    rewrite Htbl, draw_bind_lift_Ok.
    destruct (tbl !! item.1) as [[x y]|]; by eexists. }
  rewrite (draw_bind_run _ _ _ _ _ Htexts), draw_legend_run. by eexists.
Qed.

(** [draw_venn] returns whenever the arguments are validated, the number
    [N] of sets is confirmed and between 2 and 6, the four tables have an
    entry for [N], every row drawn gives the wrapper for [N] the values it
    takes (five numbers for an ellipse; eight values for a triangle, the
    six coordinates being numbers), the outline of every color can be
    computed, and the legend, if any, is asked for at a location
    matplotlib names. *)
Theorem draw_venn_returns (kw kw' : kwargs color) (ax : option (axes color))
    (N : nat) (coords dims : list (list arg)) (angles : list arg) :
  validate_arguments kw = Ok kw' →
  get_n_sets (petal_labels kw') (dataset_labels kw') = Ok N →
  2 ≤ N ≤ 6 →
  SHAPE_COORDS !! N = Some coords →
  SHAPE_DIMS !! N = Some dims →
  SHAPE_ANGLES !! N = Some angles →
  is_Some (PETAL_LABEL_COORDS !! N) →
  forallb (λ '(cs, ds, angle), drawable N (cs ++ ds ++ [angle]))
    (zip (zip coords dims) angles) = true →
  usable_colors color to_rgba (colors kw') = true →
  legend_placed kw' = true →
  ∃ ax', draw_venn color to_rgba SHAPE_COORDS SHAPE_DIMS SHAPE_ANGLES
           PETAL_LABEL_COORDS validate_arguments kw ax = (Ok (), ax').
Proof.
  intros Hv Hn Hrange Hc Hd Ha Htbl Hrows Hcs _. unfold draw_venn.
  rewrite (decorated_run color validate_arguments _ kw kw' ax Hv).
  unfold draw_venn_body. rewrite Hn, draw_bind_lift_Ok.
  rewrite forallb_forall in Hrows.
  unfold usable_colors in Hcs. rewrite forallb_forall in Hcs.
  unfold drawable in Hrows.
  destruct (N =? 6) eqn:Hsix.
  - apply Nat.eqb_eq in Hsix. subst N. simpl. rewrite draw_bind_lift_Ok.
    apply (venn_shapes_ok _ _ _ coords dims angles); [done..|].
    intros cs ds angle c ax0 Hin Hcol. apply draw_triangle_ok.
    + apply list_elem_of_In, Hrows in Hin.
      by apply andb_prop in Hin as [Hlen%Nat.eqb_eq _].
    + by apply Hcs, list_elem_of_In.
  - apply Nat.eqb_neq in Hsix.
    replace ((2 <=? N) && (N <? 6)) with true.
    2: { symmetry. apply andb_true_intro.
         split; [apply Nat.leb_le | apply Nat.ltb_lt]; lia. }
    rewrite draw_bind_lift_Ok.
    apply (venn_shapes_ok _ _ _ coords dims angles); [done..|].
    intros cs ds angle c ax0 Hin Hcol. apply draw_ellipse_ok.
    + apply list_elem_of_In, Hrows in Hin.
      by apply andb_prop in Hin as [Hlen%Nat.eqb_eq _].
    + by apply Hcs, list_elem_of_In.
Qed.

End VennReturns.

(** Two datasets, three colors and a legend in the upper right corner. *)
Definition kw_legend : kwargs rgba :=
  Kwargs [("00", "none"); ("11", "2")] ["A"; "B"] false
    (RGBA 0 0 1 (4 # 10) :: Sample.colors2) 13 (Some "upper right").

Lemma draw_venn_returns_witness :
  (Sample.validate_arguments kw_legend = Ok kw_legend ∧
   get_n_sets (petal_labels kw_legend) (dataset_labels kw_legend) = Ok 2 ∧
   2 ≤ 2 ≤ 6 ∧
   Sample.SHAPE_COORDS !! 2
   = Some [[Some (375 # 1000); Some (1 # 2)]; [Some (625 # 1000); Some (1 # 2)]] ∧
   Sample.SHAPE_DIMS !! 2
   = Some [[Some (1 # 2); Some (1 # 2)]; [Some (1 # 2); Some (1 # 2)]] ∧
   Sample.SHAPE_ANGLES !! 2 = Some [Some 0%Q; Some 0%Q] ∧
   is_Some (Sample.PETAL_LABEL_COORDS !! 2) ∧
   forallb (λ '(cs, ds, angle), drawable 2 (cs ++ ds ++ [angle]))
     (zip (zip [[Some (375 # 1000); Some (1 # 2)];
                [Some (625 # 1000); Some (1 # 2)]]
               [[Some (1 # 2); Some (1 # 2)]; [Some (1 # 2); Some (1 # 2)]])
          [Some 0%Q; Some 0%Q]) = true ∧
   usable_colors rgba tuple_to_rgba (colors kw_legend) = true ∧
   legend_placed rgba kw_legend = true) ∧
  ∃ ax', Sample.draw_venn kw_legend None = (Ok (), ax').
Proof.
  assert (is_Some (Sample.PETAL_LABEL_COORDS !! 2)) as Htbl
    by (eexists; reflexivity).
  split; [split_and!; (reflexivity || lia || exact Htbl)|].
  apply (draw_venn_returns rgba tuple_to_rgba Sample.SHAPE_COORDS
           Sample.SHAPE_DIMS Sample.SHAPE_ANGLES Sample.PETAL_LABEL_COORDS
           Sample.validate_arguments kw_legend kw_legend None 2
           [[Some (375 # 1000); Some (1 # 2)]; [Some (625 # 1000); Some (1 # 2)]]
           [[Some (1 # 2); Some (1 # 2)]; [Some (1 # 2); Some (1 # 2)]]
           [Some 0%Q; Some 0%Q]);
    (reflexivity || lia || exact Htbl).
Defined.
